(** * Banking customer-intelligence dashboard: the rule-based core

    A shallow embedding of the deterministic logic of the dashboard:
    - [DataSeeder]: the scoring formulas and the batch splitter of
      [src/services/dataSeeder.ts];
    - [MLEngine]: the AI-backed operations of the ML engine with their
      [try]/[catch] fallbacks, and the rule-based fallback segmentation;
    - [RiskAssessmentPage]: the batch risk analysis of
      [src/pages/RiskAssessment.tsx].

    Numbers.  A JavaScript [number] is modelled by the rational [Q] it
    denotes: the finite binary64 values ([NaN] and the infinities are left
    out, and with them overflow).  The operations [+], [-], [*], [/] of the
    source are [JS.add], [JS.sub], [JS.mul], [JS.div], written [[+]], [[-]],
    [[*]], [[/]]: the exact result rounded to the nearest binary64 number,
    ties to even, subnormal numbers included ([Binary64.round]).  A decimal
    literal of the source is [JS.num] of the decimal: the nearest binary64
    number.  Whole-number literals are themselves.  Comparisons,
    [Math.floor], [Math.ceil], [Math.min] and [Math.max] are exact.  A
    quotient by a zero length ([0/0], JavaScript's [NaN]) is modelled as
    [None].  Array lengths, indices and chunk sizes are [nat].

    Three places keep the decimal itself, where it decides the same as the
    binary64 literal on every binary64 number: the strict comparisons
    [riskScore > 0.7] and [riskScore > 0.6] (the literal lies below the
    decimal, with no binary64 number in between), the comparator
    [b.accountBalance - a.accountBalance] (a difference of two numbers and
    its rounding have the same sign) and [Math.ceil(length * 0.2)] (see
    [MLEngine.highValueCount]). *)

From Stdlib Require Import String.
From Stdlib Require Import ZArith QArith Qround Qminmax Qabs Qpower Lqa Lia.
From Stdlib Require Import List Bool Permutation Sorted.
From Stdlib Require DecimalString.
Import ListNotations.

Set Implicit Arguments.

(** ** Binary64 rounding

    [round q] is the binary64 number nearest to [q], ties to the even
    mantissa: with [2^k <= |q| < 2^(k+1)] the spacing of the numbers around
    [q] is [2^e] for [e = max (k - 52) (-1074)], and [q] is rounded to a
    multiple of it. *)

Module Binary64.

Open Scope Q_scope.

Definition pow2 (e : Z) : Q := 2 ^ e.

(** [floor (log2 |q|)], for [q <> 0]. *)
Definition ilog2 (q : Q) : Z :=
  let k := (Z.log2 (Z.abs (Qnum q)) - Z.log2 (Zpos (Qden q)))%Z in
  if Qle_bool (pow2 k) (Qabs q) then k else (k - 1)%Z.

Definition exponent (q : Q) : Z := Z.max (ilog2 q - 52) (-1074).

(** The nearest integer, ties to even. *)
Definition rne (x : Q) : Z :=
  let f := Qfloor x in
  match Qcompare (x - inject_Z f) (1 # 2) with
  | Lt => f
  | Eq => if Z.even f then f else (f + 1)%Z
  | Gt => (f + 1)%Z
  end.

(** The integer [z] is the rounding of [x]. *)
Definition nearest (x : Q) (z : Z) : Prop :=
  x - (1 # 2) < inject_Z z < x + (1 # 2) \/
  (inject_Z z == x - (1 # 2) \/ inject_Z z == x + (1 # 2)) /\ Z.even z = true.

Definition round (q : Q) : Q :=
  let e := exponent q in Qred (inject_Z (rne (q / pow2 e)) * pow2 e).

End Binary64.

(** ** JavaScript numbers and arrays *)

Module JS.

Open Scope Q_scope.

(** A decimal literal, and the four operations. *)
Definition num (q : Q) : Q := Binary64.round q.
Definition add (x y : Q) : Q := Binary64.round (x + y).
Definition sub (x y : Q) : Q := Binary64.round (x - y).
Definition mul (x y : Q) : Q := Binary64.round (x * y).
Definition div (x y : Q) : Q := Binary64.round (x / y).

(** A binary64 number, and a value of [Math.random()]: a number in
    [0, 1). *)
Definition isNumber (q : Q) : Prop := Binary64.round q == q.
Definition isRandom (r : Q) : Prop := isNumber r /\ 0 <= r /\ r < 1.

(** [x < y] on numbers, as a boolean. *)
Definition ltb (x y : Q) : bool := negb (Qle_bool y x).

(** [x > y]. *)
Definition gtb (x y : Q) : bool := ltb y x.

(** [Math.floor], [Math.ceil], [Math.min], [Math.max]. *)
Definition floor (x : Q) : Q := inject_Z (Qfloor x).
Definition ceil (x : Q) : Q := inject_Z (Qceiling x).
Definition min (x y : Q) : Q := Qmin x y.
Definition max (x y : Q) : Q := Qmax x y.

(** The length of an array, as a number. *)
Definition length {T} (a : list T) : Q := inject_Z (Z.of_nat (List.length a)).

(** [a.slice(start, end)] for integer indices [0 <= start]. *)
Definition slice {T} (a : list T) (start end_ : nat) : list T :=
  firstn (end_ - start) (skipn start a).

End JS.

Declare Scope js_scope.
Delimit Scope js_scope with js.
Infix "[+]" := JS.add (at level 50, left associativity) : js_scope.
Infix "[-]" := JS.sub (at level 50, left associativity) : js_scope.
Infix "[*]" := JS.mul (at level 40, left associativity) : js_scope.
Infix "[/]" := JS.div (at level 40, left associativity) : js_scope.

(** ** The data seeder *)

Module DataSeeder.

Open Scope Q_scope.
Open Scope js_scope.

(** [generateCreditScore(income)]; [random] is the draw of
    [Math.random()]. *)
Definition generateCreditScore (income random : Q) : Q :=
  let baseScore := JS.min 850 (580 [+] income [/] 1000) in
  let variation := (random [-] JS.num 0.5) [*] 100 in
  JS.max 300 (JS.min 850 (JS.floor (baseScore [+] variation))).

(** [calculateRiskScore(creditScore, balance, transactionCount)]. *)
Definition calculateRiskScore
    (creditScore balance transactionCount random : Q) : Q :=
  let creditRisk := (850 [-] creditScore) [/] 550 in
  let balanceRisk :=
    if JS.ltb balance 1000 then JS.num 0.3
    else if JS.ltb balance 5000 then JS.num 0.1 else 0 in
  let activityRisk :=
    if JS.ltb transactionCount 5 then JS.num 0.2
    else if JS.gtb transactionCount 100 then JS.num 0.1 else 0 in
  let totalRisk :=
    (creditRisk [*] JS.num 0.6) [+] (balanceRisk [*] JS.num 0.3)
    [+] (activityRisk [*] JS.num 0.1) in
  JS.max 0 (JS.min 1 (totalRisk [+] (random [-] JS.num 0.5) [*] JS.num 0.2)).

(** [calculateCLV(balance, income, accountAge)]. *)
Definition calculateCLV (balance income accountAge random : Q) : Q :=
  let monthlyRevenue := (balance [*] JS.num 0.001) [+] (income [*] JS.num 0.0001) in
  let retentionMultiplier := JS.min 5 (accountAge [/] 12) in
  JS.floor (monthlyRevenue [*] 12 [*] retentionMultiplier [*] (2 [+] random [*] 3)).

(** The loop of [chunkArray]: [i] is the loop counter, [chunks] the
    accumulator; [chunkSize] is a whole number, as at the call site (50).
    The loop need not terminate ([chunkSize = 0]), so it runs on fuel and
    answers [None] when the fuel is exhausted. *)
Fixpoint chunkLoop {T} (fuel : nat) (array : list T) (chunkSize i : nat)
    (chunks : list (list T)) : option (list (list T)) :=
  if (i <? List.length array)%nat then
    match fuel with
    | O => None
    | S fuel' =>
        chunkLoop fuel' array chunkSize (i + chunkSize)
          (chunks ++ [JS.slice array i (i + chunkSize)])
    end
  else Some chunks.

(** [chunkArray(array, chunkSize)], with one unit of fuel per element. *)
Definition chunkArray {T} (array : list T) (chunkSize : nat)
    : option (list (list T)) :=
  chunkLoop (List.length array) array chunkSize 0 [].

End DataSeeder.

(** ** What the specification says of the seeder's formulas

    The formulas as the specification writes them, in exact arithmetic. *)

Module SeederSpec.

Open Scope Q_scope.

Definition clamp (lo hi x : Q) : Q := Qmax lo (Qmin hi x).

(** The balance-tier and activity-tier penalties of the risk score. *)
Definition balanceTier (balance : Q) : Q :=
  if JS.ltb balance 1000 then 0.3 else if JS.ltb balance 5000 then 0.1 else 0.

Definition activityTier (transactionCount : Q) : Q :=
  if JS.ltb transactionCount 5 then 0.2
  else if JS.gtb transactionCount 100 then 0.1 else 0.

(** "0.6 x (850 - credit)/550 + 0.3 x balance-tier penalty + 0.1 x
    activity-tier penalty + noise, clamped to [0,1]". *)
Definition riskScore (creditScore balance transactionCount noise : Q) : Q :=
  clamp 0 1
    (0.6 * ((850 - creditScore) / 550) + 0.3 * balanceTier balance
     + 0.1 * activityTier transactionCount + noise).

(** "base = min(850, 580 + income/1000), plus noise, clamped to
    [300, 850]". *)
Definition creditScore (income noise : Q) : Q :=
  clamp 300 850 (Qmin 850 (580 + income / 1000) + noise).


(** "(balance x 0.001 + income x 0.0001) x 12 x min(5, accountAge/12) x
    factor". *)
Definition clv (balance income accountAge factor : Q) : Q :=
  (balance * 0.001 + income * 0.0001) * 12 * Qmin 5 (accountAge / 12) * factor.

End SeederSpec.

(** ** The formulas in the arithmetic of the language

    The same formulas with every operation and every decimal rounded to
    binary64, as the language computes them, and the credit score rounded
    down. *)

Module SeederRounded.

Open Scope Q_scope.
Open Scope js_scope.

Definition balanceTier (balance : Q) : Q :=
  if JS.ltb balance 1000 then JS.num 0.3
  else if JS.ltb balance 5000 then JS.num 0.1 else 0.

Definition activityTier (transactionCount : Q) : Q :=
  if JS.ltb transactionCount 5 then JS.num 0.2
  else if JS.gtb transactionCount 100 then JS.num 0.1 else 0.

Definition riskScore (creditScore balance transactionCount noise : Q) : Q :=
  SeederSpec.clamp 0 1
    (JS.num 0.6 [*] ((850 [-] creditScore) [/] 550)
     [+] JS.num 0.3 [*] balanceTier balance
     [+] JS.num 0.1 [*] activityTier transactionCount
     [+] noise).

Definition creditScore (income noise : Q) : Q :=
  SeederSpec.clamp 300 850 (JS.floor (Qmin 850 (580 [+] income [/] 1000) [+] noise)).

Definition clv (balance income accountAge factor : Q) : Q :=
  (balance [*] JS.num 0.001 [+] income [*] JS.num 0.0001) [*] 12
  [*] Qmin 5 (accountAge [/] 12) [*] factor.

End SeederRounded.

(** ** Records of the ML engine and of the risk page

    Each interface of the source is a record in a module of its name.  A
    mean over an empty array ([0/0], [NaN]) is [None]. *)

Module CustomerData.
Record t : Type := mk {
  id : string;
  accountBalance : Q;
  creditScore : Q;
  annualIncome : Q;
  transactionCount : Q;
  avgMonthlyBalance : Q;
  riskScore : Q;
  customerLifetimeValue : Q;
  accountAge : Q;              (* in months *)
  lastTransactionDays : Q      (* days since last transaction *)
}.
End CustomerData.

Module Characteristics.
Record t : Type := mk {
  avgBalance : option Q;
  avgIncome : option Q;
  avgRiskScore : option Q;
  avgCLV : option Q;
  size : Q
}.
End Characteristics.

Module SegmentationResult.
Record t : Type := mk {
  segmentId : string;
  segmentName : string;
  customers : list string;
  characteristics : Characteristics.t;
  insights : list string
}.
End SegmentationResult.

(** The entries of the prompt of the segmentation call. *)
Module CustomerSummary.
Record t : Type := mk {
  id : string;
  balance : Q;
  income : Q;
  creditScore : Q;
  transactionCount : Q;
  riskScore : Q;
  clv : Q;
  accountAge : Q;
  lastActivity : Q
}.
End CustomerSummary.

(** A transaction, as far as the risk prompt reads it. *)
Module Transaction.
Record t : Type := mk {
  transactionType : string;
  amount : Q;
  merchantCategory : option string
}.
End Transaction.

(** The objects the hosted AI answers with, one per schema; a property
    that the answer lacks is [None]. *)
Module AISegment.
Record t : Type := mk {
  segmentName : string;
  customerIds : list string;
  characteristics : Characteristics.t;
  insights : list string
}.
End AISegment.

Module Insight.
Record t : Type := mk {
  type : string;
  title : string;
  description : string;
  priority : string;
  confidence : Q;
  recommendation : string;
  potentialRevenue : Q
}.
End Insight.

Module ProductRecommendation.
Record t : Type := mk {
  productType : string;
  productName : string;
  reasoning : string;
  recommendationScore : Q;
  potentialRevenue : Q;
  priority : string
}.
End ProductRecommendation.

Module RiskObject.
Record t : Type := mk {
  riskScore : option Q;
  riskLevel : option string;
  factors : option (list string);
  recommendations : option (list string)
}.
End RiskObject.

(** The value [assessCustomerRisk] resolves to. *)
Module RiskAnalysis.
Record t : Type := mk {
  riskScore : Q;
  riskLevel : string;
  factors : list string;
  recommendations : list string
}.
End RiskAnalysis.

(** The page's [Customer]; [lastTransactionDate] is the instant the date
    string denotes, [None] for an absent or empty string. *)
Module Customer.
Record t : Type := mk {
  id : string;
  firstName : string;
  lastName : string;
  email : string;
  accountBalance : Q;
  creditScore : Q;
  annualIncome : Q;
  riskScore : Q;
  transactionCount : Q;
  lastTransactionDate : option Z
}.
End Customer.

Module User.
Record t : Type := mk { id : string }.
End User.

(** The row written to [riskAssessments]; instants stand for their ISO
    strings and lists for their JSON text. *)
Module RiskAssessmentRow.
Record t : Type := mk {
  id : string;
  userId : string;
  customerId : string;
  assessmentType : string;
  riskScore : Q;
  riskLevel : string;
  factors : list string;
  recommendations : list string;
  status : string;
  assessedDate : Z;
  expiresDate : Z
}.
End RiskAssessmentRow.

(** ** Effects: the hosted services, the clock, the console

    An asynchronous operation is a tree of requests to its environment:
    [Vis ev k] performs [ev] and continues with [k] on the answer; [Throw]
    is a pending exception (a rejected promise).  The environment is any
    [handler] over any type of worlds. *)

Module Effects.

Inductive exn : Type := Error (message : string).

Inductive Schema : Type :=
| SegmentsSchema | InsightsSchema | RiskSchema | RecommendationsSchema.

(** The object a call with the given schema resolves to. *)
Definition AIObject (s : Schema) : Type :=
  match s with
  | SegmentsSchema => option (list AISegment.t)            (* object.segments *)
  | InsightsSchema => option (list Insight.t)              (* object.insights *)
  | RiskSchema => RiskObject.t
  | RecommendationsSchema => option (list ProductRecommendation.t)
  end.

(** The data a prompt is written from. *)
Inductive Prompt : Type :=
| SegmentationPrompt (count : Q) (summary : list CustomerSummary.t)
| InsightsPrompt (customerData : CustomerData.t)
| RiskPrompt (customerData : CustomerData.t) (recent : list Transaction.t)
| RecommendationsPrompt (customerData : CustomerData.t).

Inductive Eff : Type -> Type :=
| DateNow : Eff Z                          (* Date.now(), new Date() *)
| RandomSuffix : Eff string                (* Math.random().toString(36).substr(2, 9) *)
| ConsoleError (label : string) (e : exn) : Eff unit
| GenerateObject (s : Schema) (p : Prompt) : Eff (exn + AIObject s)
| SetAnalyzing (b : bool) : Eff unit
| AuthMe : Eff (exn + User.t)
| TransactionsList (customerId : string) (limit : nat)
    : Eff (exn + list Transaction.t)
| RiskAssessmentsCreate (row : RiskAssessmentRow.t) : Eff (exn + unit)
| CustomersUpdate (customerId : string) (riskScore : Q) : Eff (exn + unit)
| LoadData : Eff unit.

Inductive Prog (A : Type) : Type :=
| Ret (a : A)
| Throw (e : exn)
| Vis (X : Type) (ev : Eff X) (k : X -> Prog A).

Arguments Throw {A} e.

Fixpoint bind {A B} (p : Prog A) (f : A -> Prog B) : Prog B :=
  match p with
  | Ret a => f a
  | Throw e => Throw e
  | Vis ev k => Vis ev (fun x => bind (k x) f)
  end.

(** [try { p } catch (e) { handle e }]. *)
Fixpoint try_catch {A} (p : Prog A) (handle : exn -> Prog A) : Prog A :=
  match p with
  | Ret a => Ret a
  | Throw e => handle e
  | Vis ev k => Vis ev (fun x => try_catch (k x) handle)
  end.

(** [try { p } finally { final }]. *)
Fixpoint try_finally {A} (p : Prog A) (final : Prog unit) : Prog A :=
  match p with
  | Ret a => bind final (fun _ => Ret a)
  | Throw e => bind final (fun _ => Throw e)
  | Vis ev k => Vis ev (fun x => try_finally (k x) final)
  end.

(** A request that cannot fail, and one that resolves or rejects. *)
Definition trigger {X} (ev : Eff X) : Prog X := Vis ev (fun x => Ret x).

Definition await {X} (ev : Eff (exn + X)) : Prog X :=
  Vis ev (fun r => match r with inl e => Throw e | inr x => Ret x end).

(** [for (const x of l) { body x }]. *)
Fixpoint forEach {A} (l : list A) (body : A -> Prog unit) : Prog unit :=
  match l with
  | [] => Ret tt
  | x :: l' => bind (body x) (fun _ => forEach l' body)
  end.

(** What a run leaves behind, request by request. *)
Inductive Obs : Type :=
| ONow (t : Z)
| ORandom (s : string)
| OLog (label : string) (e : exn)
| OGenerateObject (p : Prompt) (threw : option exn)
| OSetAnalyzing (b : bool)
| OAuthMe (threw : option exn)
| OTransactionsList (customerId : string) (threw : option exn)
| OCreate (customerId : string) (threw : option exn)
| OUpdate (customerId : string) (threw : option exn)
| OLoadData.

Definition thrown {X} (r : exn + X) : option exn :=
  match r with inl e => Some e | inr _ => None end.

Definition observe {X} (ev : Eff X) : X -> Obs :=
  match ev in Eff X return X -> Obs with
  | DateNow => ONow
  | RandomSuffix => ORandom
  | ConsoleError label e => fun _ => OLog label e
  | GenerateObject _ p => fun r => OGenerateObject p (thrown r)
  | SetAnalyzing b => fun _ => OSetAnalyzing b
  | AuthMe => fun r => OAuthMe (thrown r)
  | TransactionsList customerId _ => fun r => OTransactionsList customerId (thrown r)
  | RiskAssessmentsCreate row =>
      fun r => OCreate (RiskAssessmentRow.customerId row) (thrown r)
  | CustomersUpdate customerId _ => fun r => OUpdate customerId (thrown r)
  | LoadData => fun _ => OLoadData
  end.

(** An environment answers every request and moves to a next world. *)
Definition handler (World : Type) : Type :=
  forall X, Eff X -> World -> X * World.

Record Outcome (World A : Type) : Type := mkOutcome {
  result : exn + A;
  world : World;
  trace : list Obs
}.

Fixpoint run {World A} (h : handler World) (p : Prog A) (w : World)
    : Outcome World A :=
  match p with
  | Ret a => mkOutcome (inr a) w []
  | Throw e => mkOutcome (inl e) w []
  | Vis ev k =>
      let (x, w') := h _ ev w in
      match run h (k x) w' with
      | mkOutcome r w'' tr => mkOutcome r w'' (observe ev x :: tr)
      end
  end.

(** The requests of the hosted AI that threw, in a trace. *)
Definition aiThrew (o : Obs) : bool :=
  match o with OGenerateObject _ (Some _) => true | _ => false end.

End Effects.

Declare Scope prog_scope.
Delimit Scope prog_scope with prog.
Notation "x <- p ;; q" := (Effects.bind p (fun x => q))
  (at level 61, p at next level, right associativity) : prog_scope.
Notation "p ;; q" := (Effects.bind p (fun _ => q))
  (at level 61, right associativity) : prog_scope.

(** ** The ML engine *)

Module MLEngine.

Import Effects.
Open Scope string_scope.
Open Scope list_scope.
Open Scope Q_scope.
Open Scope js_scope.
Open Scope prog_scope.

(** [`${n}`] for an integer. *)
Definition show (n : Z) : string :=
  DecimalString.NilZero.string_of_int (Z.to_int n).

Definition console_error (label : string) (e : exn) : Prog unit :=
  trigger (ConsoleError label e).

(** [a.sort(cmp)] on a copy of the array.  [Array.prototype.sort] is
    stable: it is modelled by insertion from the right, where an element
    goes in front of the first one it need not follow ([cmp x y <= 0]). *)
Section Sort.
Variable A : Type.
Variable cmp : A -> A -> Q.

Fixpoint insert (x : A) (l : list A) : list A :=
  match l with
  | [] => [x]
  | y :: l' => if JS.gtb (cmp x y) 0 then y :: insert x l' else x :: l
  end.

Fixpoint sort (l : list A) : list A :=
  match l with
  | [] => []
  | x :: l' => insert x (sort l')
  end.
End Sort.

(** [l.reduce((sum, c) => sum + f(c), 0) / l.length]. *)
Definition mean (f : CustomerData.t -> Q) (l : list CustomerData.t) : option Q :=
  let sum := fold_left (fun sum c => sum [+] f c) l 0 in
  match l with
  | [] => None
  | _ => Some (sum [/] JS.length l)
  end.

Definition characteristicsOf (l : list CustomerData.t) : Characteristics.t :=
  {| Characteristics.avgBalance := mean CustomerData.accountBalance l;
     Characteristics.avgIncome := mean CustomerData.annualIncome l;
     Characteristics.avgRiskScore := mean CustomerData.riskScore l;
     Characteristics.avgCLV := mean CustomerData.customerLifetimeValue l;
     Characteristics.size := JS.length l |}.

(** The three computed groups of [fallbackSegmentation]. *)
Definition sortedByBalance (customers : list CustomerData.t) : list CustomerData.t :=
  sort (fun a b => CustomerData.accountBalance b - CustomerData.accountBalance a)
    customers.

(** [Math.ceil(customers.length * 0.2)].  The exact ceiling is also the
    binary64 one: for a length [n = 5k] the product [n * 0.2] is within
    [k * 2^-54] of [k] and rounds to [k]; for any other array length it
    stays more than 0.19 away from every integer. *)
Definition highValueCount (customers : list CustomerData.t) : Q :=
  JS.ceil (JS.length customers * 0.2).

Definition highValueCustomers (customers : list CustomerData.t) : list CustomerData.t :=
  JS.slice (sortedByBalance customers) 0
    (Z.to_nat (Qfloor (highValueCount customers))).

Definition youngProfessionals (customers : list CustomerData.t) : list CustomerData.t :=
  filter (fun c =>
            JS.ltb (CustomerData.accountAge c) 36
            && JS.gtb (CustomerData.annualIncome c) 40000
            && JS.ltb (CustomerData.annualIncome c) 100000)
    customers.

Definition highRiskCustomers (customers : list CustomerData.t) : list CustomerData.t :=
  filter (fun c => JS.gtb (CustomerData.riskScore c) 0.7) customers.

(** [fallbackSegmentation(customers)]: the clock is read once for each
    segment that is pushed. *)
Definition fallbackSegmentation (customers : list CustomerData.t)
    : Prog (list SegmentationResult.t) :=
  let segments := [] in
  (* High Value Customers (top 20% by balance) *)
  let highValueCustomers := highValueCustomers customers in
  now <- trigger DateNow ;;
  let segments := segments ++ [
    {| SegmentationResult.segmentId := ("seg_high_value_" ++ show now)%string;
       SegmentationResult.segmentName := "High Value Customers";
       SegmentationResult.customers := map CustomerData.id highValueCustomers;
       SegmentationResult.characteristics := characteristicsOf highValueCustomers;
       SegmentationResult.insights := [
         "Premium banking services and investment products";
         "Dedicated relationship managers";
         "Exclusive rewards and benefits programs" ] |} ] in
  (* Young Professionals *)
  let youngProfessionals := youngProfessionals customers in
  segments <-
    (if (0 <? List.length youngProfessionals)%nat then
       now <- trigger DateNow ;;
       Ret (segments ++ [
         {| SegmentationResult.segmentId := ("seg_young_prof_" ++ show now)%string;
            SegmentationResult.segmentName := "Young Professionals";
            SegmentationResult.customers := map CustomerData.id youngProfessionals;
            SegmentationResult.characteristics := characteristicsOf youngProfessionals;
            SegmentationResult.insights := [
              "Mobile-first banking solutions";
              "Student loan and mortgage products";
              "Financial planning and investment education" ] |} ])
     else Ret segments) ;;
  (* High Risk Customers *)
  let highRiskCustomers := highRiskCustomers customers in
  segments <-
    (if (0 <? List.length highRiskCustomers)%nat then
       now <- trigger DateNow ;;
       Ret (segments ++ [
         {| SegmentationResult.segmentId := ("seg_high_risk_" ++ show now)%string;
            SegmentationResult.segmentName := "High Risk Customers";
            SegmentationResult.customers := map CustomerData.id highRiskCustomers;
            SegmentationResult.characteristics := characteristicsOf highRiskCustomers;
            SegmentationResult.insights := [
              "Enhanced monitoring and fraud detection";
              "Risk mitigation strategies";
              "Potential account restrictions or closures" ] |} ])
     else Ret segments) ;;
  Ret segments.

Definition summaryOf (c : CustomerData.t) : CustomerSummary.t :=
  {| CustomerSummary.id := CustomerData.id c;
     CustomerSummary.balance := CustomerData.accountBalance c;
     CustomerSummary.income := CustomerData.annualIncome c;
     CustomerSummary.creditScore := CustomerData.creditScore c;
     CustomerSummary.transactionCount := CustomerData.transactionCount c;
     CustomerSummary.riskScore := CustomerData.riskScore c;
     CustomerSummary.clv := CustomerData.customerLifetimeValue c;
     CustomerSummary.accountAge := CustomerData.accountAge c;
     CustomerSummary.lastActivity := CustomerData.lastTransactionDays c |}.

(** The loop that turns the AI's segments into results. *)
Fixpoint pushSegments (segments : list AISegment.t)
    (results : list SegmentationResult.t) : Prog (list SegmentationResult.t) :=
  match segments with
  | [] => Ret results
  | segment :: rest =>
      now <- trigger DateNow ;;
      suffix <- trigger RandomSuffix ;;
      pushSegments rest (results ++ [
        {| SegmentationResult.segmentId := ("seg_" ++ show now ++ "_" ++ suffix)%string;
           SegmentationResult.segmentName := AISegment.segmentName segment;
           SegmentationResult.customers := AISegment.customerIds segment;
           SegmentationResult.characteristics := AISegment.characteristics segment;
           SegmentationResult.insights := AISegment.insights segment |} ])
  end.

(** [performCustomerSegmentation(customers)]. *)
Definition performCustomerSegmentation (customers : list CustomerData.t)
    : Prog (list SegmentationResult.t) :=
  if (List.length customers =? 0)%nat then Ret []
  else
    try_catch
      (let customerSummary := map summaryOf customers in
       segments <- await (GenerateObject SegmentsSchema
                    (SegmentationPrompt (JS.length customers)
                       (JS.slice customerSummary 0 50))) ;;
       match segments with
       | Some segments => pushSegments segments []
       | None => Ret []
       end)
      (fun error =>
         console_error "Error in AI segmentation:" error ;;
         (* Fallback to rule-based segmentation *)
         fallbackSegmentation customers).

(** [generateCustomerInsights(customerId, customerData)]. *)
Definition generateCustomerInsights (customerId : string)
    (customerData : CustomerData.t) : Prog (list Insight.t) :=
  try_catch
    (insights <- await (GenerateObject InsightsSchema (InsightsPrompt customerData)) ;;
     Ret (match insights with Some l => l | None => [] end))
    (fun error =>
       console_error "Error generating customer insights:" error ;;
       Ret []).

(** [x || y] on a number and on a string that may be missing. *)
Definition orNumber (x : option Q) (y : Q) : Q :=
  match x with
  | Some q => if Qeq_bool q 0 then y else q
  | None => y
  end.

Definition orString (x : option string) (y : string) : string :=
  match x with
  | Some EmptyString | None => y
  | Some s => s
  end.

Definition orArray {T} (x : option (list T)) : list T :=
  match x with Some l => l | None => [] end.

(** The [catch] branch of [assessCustomerRisk]. *)
Definition thresholdAssessment (customerData : CustomerData.t) : RiskAnalysis.t :=
  {| RiskAnalysis.riskScore := CustomerData.riskScore customerData;
     RiskAnalysis.riskLevel :=
       if JS.gtb (CustomerData.riskScore customerData) (JS.num 0.7) then "high"
       else if JS.gtb (CustomerData.riskScore customerData) (JS.num 0.4) then "medium"
       else "low";
     RiskAnalysis.factors := ["Unable to assess risk factors"];
     RiskAnalysis.recommendations := ["Manual review recommended"] |}.

(** [assessCustomerRisk(customerData, transactionHistory)]. *)
Definition assessCustomerRisk (customerData : CustomerData.t)
    (transactionHistory : list Transaction.t) : Prog RiskAnalysis.t :=
  try_catch
    (object <- await (GenerateObject RiskSchema
                 (RiskPrompt customerData (JS.slice transactionHistory 0 10))) ;;
     Ret {| RiskAnalysis.riskScore :=
              JS.max 0 (JS.min 1 (orNumber (RiskObject.riskScore object)
                                     (CustomerData.riskScore customerData)));
            RiskAnalysis.riskLevel := orString (RiskObject.riskLevel object) "medium";
            RiskAnalysis.factors := orArray (RiskObject.factors object);
            RiskAnalysis.recommendations :=
              orArray (RiskObject.recommendations object) |})
    (fun error =>
       console_error "Error assessing customer risk:" error ;;
       Ret (thresholdAssessment customerData)).

(** [generateProductRecommendations(customerData)]. *)
Definition generateProductRecommendations (customerData : CustomerData.t)
    : Prog (list ProductRecommendation.t) :=
  try_catch
    (recommendations <- await (GenerateObject RecommendationsSchema
                          (RecommendationsPrompt customerData)) ;;
     Ret (orArray recommendations))
    (fun error =>
       console_error "Error generating product recommendations:" error ;;
       Ret []).

End MLEngine.

(** ** The risk-assessment page *)

Module RiskAssessmentPage.

Import Effects.
Open Scope string_scope.
Open Scope list_scope.
Open Scope Q_scope.
Open Scope js_scope.
Open Scope prog_scope.

(** The filter of [runRiskAnalysis]. *)
Definition isHighRisk (c : Customer.t) : bool :=
  JS.gtb (Customer.riskScore c) 0.6 || JS.ltb (Customer.accountBalance c) 1000.

(** The body of the loop, inside its own [try]. *)
Definition analyzeCustomer (user : User.t) (customer : Customer.t) : Prog unit :=
  (* Load customer transactions for context *)
  transactions <- await (TransactionsList (Customer.id customer) 20) ;;
  now1 <- trigger DateNow ;;
  now2 <- trigger DateNow ;;
  lastTransactionDays <-
    match Customer.lastTransactionDate customer with
    | Some date =>
        now <- trigger DateNow ;;
        Ret (JS.floor (inject_Z (now - date) [/] (1000 [*] 60 [*] 60 [*] 24)))
    | None => Ret 30
    end ;;
  let customerData :=
    {| CustomerData.id := Customer.id customer;
       CustomerData.accountBalance := Customer.accountBalance customer;
       CustomerData.creditScore := Customer.creditScore customer;
       CustomerData.annualIncome := Customer.annualIncome customer;
       CustomerData.transactionCount := Customer.transactionCount customer;
       CustomerData.avgMonthlyBalance := Customer.accountBalance customer [*] JS.num 0.9;
       CustomerData.riskScore := Customer.riskScore customer;
       CustomerData.customerLifetimeValue := 0;
       CustomerData.accountAge :=
         JS.floor (inject_Z (now1 - now2) [/] (1000 [*] 60 [*] 60 [*] 24 [*] 30));
       CustomerData.lastTransactionDays := lastTransactionDays |} in
  (* Use ML engine for risk assessment *)
  riskAnalysis <- MLEngine.assessCustomerRisk customerData transactions ;;
  (* Create risk assessment record *)
  now <- trigger DateNow ;;
  suffix <- trigger RandomSuffix ;;
  let assessmentId := ("risk_" ++ MLEngine.show now ++ "_" ++ suffix)%string in
  assessed <- trigger DateNow ;;
  now' <- trigger DateNow ;;
  await (RiskAssessmentsCreate
    {| RiskAssessmentRow.id := assessmentId;
       RiskAssessmentRow.userId := User.id user;
       RiskAssessmentRow.customerId := Customer.id customer;
       RiskAssessmentRow.assessmentType := "comprehensive";
       RiskAssessmentRow.riskScore := RiskAnalysis.riskScore riskAnalysis;
       RiskAssessmentRow.riskLevel := RiskAnalysis.riskLevel riskAnalysis;
       RiskAssessmentRow.factors := RiskAnalysis.factors riskAnalysis;
       RiskAssessmentRow.recommendations := RiskAnalysis.recommendations riskAnalysis;
       RiskAssessmentRow.status := "active";
       RiskAssessmentRow.assessedDate := assessed;
       RiskAssessmentRow.expiresDate := (now' + 30 * 24 * 60 * 60 * 1000)%Z |}) ;;
  (* Update customer risk score *)
  await (CustomersUpdate (Customer.id customer) (RiskAnalysis.riskScore riskAnalysis)).

(** [runRiskAnalysis()], on the page's current [customers]. *)
Definition runRiskAnalysis (customers : list Customer.t) : Prog unit :=
  try_finally
    (try_catch
       (trigger (SetAnalyzing true) ;;
        user <- await AuthMe ;;
        (* Analyze high-risk customers *)
        let highRiskCustomers := filter isHighRisk customers in
        forEach (JS.slice highRiskCustomers 0 20) (* Limit to prevent API overload *)
          (fun customer =>
             try_catch (analyzeCustomer user customer)
               (fun customerError =>
                  MLEngine.console_error
                    ("Error analyzing customer " ++ Customer.id customer ++ ":")%string
                    customerError)) ;;
        trigger LoadData)
       (fun error => MLEngine.console_error "Error running risk analysis:" error))
    (trigger (SetAnalyzing false)).

(** The customers a run starts an assessment for (it first loads their
    transactions), and those the ML engine's assessment was called for. *)
Definition started (tr : list Obs) : list string :=
  flat_map (fun o => match o with
                     | OTransactionsList customerId _ => [customerId]
                     | _ => []
                     end) tr.

Definition assessed (tr : list Obs) : list string :=
  flat_map (fun o => match o with
                     | OGenerateObject (RiskPrompt customerData _) _ =>
                         [CustomerData.id customerData]
                     | _ => []
                     end) tr.

(** The customers whose transactions were loaded, and whether
    [blink.auth.me()] resolved. *)
Definition loaded (tr : list Obs) : list string :=
  flat_map (fun o => match o with
                     | OTransactionsList customerId None => [customerId]
                     | _ => []
                     end) tr.

Definition signedIn (tr : list Obs) : bool :=
  existsb (fun o => match o with OAuthMe None => true | _ => false end) tr.

(** A stretch of a trace that starts assessments for exactly [ids], calls
    the ML engine for those whose transactions were loaded, and does not
    sign in. *)
Definition batchOf (tr : list Obs) (ids : list string) : Prop :=
  started tr = ids /\ assessed tr = loaded tr /\ signedIn tr = false.

End RiskAssessmentPage.

(** ** Orders by a numeric key *)

Section ByKey.

Variable A : Type.
Variable key : A -> Q.

(** The comparator [(a, b) => key(b) - key(a)]: largest key first. *)
Definition byKey (a b : A) : Q := key b - key a.

(** [a] may stand before [b]. *)
Definition before (a b : A) : Prop := (key b <= key a)%Q.

(** The elements whose key is [k]. *)
Definition keyed (k : Q) (a : A) : bool := Qeq_bool (key a) k.

End ByKey.

(** ** Reading a segmentation result *)

Module Segments.

Definition named (name : string) (s : SegmentationResult.t) : bool :=
  String.eqb (SegmentationResult.segmentName s) name.

(** The segments of a result that carry a given name, and their members. *)
Definition segmentsNamed (name : string) (segs : list SegmentationResult.t)
    : list SegmentationResult.t :=
  filter (named name) segs.

Definition members (name : string) (segs : list SegmentationResult.t)
    : list string :=
  flat_map SegmentationResult.customers (segmentsNamed name segs).

(** [s] is the segment of the given name over the given customers. *)
Definition isSegment (name : string) (group : list CustomerData.t)
    (s : SegmentationResult.t) : Prop :=
  SegmentationResult.segmentName s = name /\
  SegmentationResult.customers s = map CustomerData.id group /\
  SegmentationResult.characteristics s = MLEngine.characteristicsOf group.

End Segments.

(** ** A sample environment

    The clock stands still, every hosted call succeeds with an empty
    answer, except the AI, which throws. *)

Module Sample.

Import Effects.
Open Scope string_scope.

Definition aiDown : handler unit :=
  fun X ev w =>
    match ev in Eff X return X * unit with
    | DateNow => (1700000000000%Z, w)
    | RandomSuffix => ("k3j9x0q2a", w)
    | ConsoleError _ _ => (tt, w)
    | GenerateObject _ _ => (inl (Error "network error"), w)
    | SetAnalyzing _ => (tt, w)
    | AuthMe => (inr (User.mk "user_1"), w)
    | TransactionsList _ _ => (inr [], w)
    | RiskAssessmentsCreate _ => (inr tt, w)
    | CustomersUpdate _ _ => (inr tt, w)
    | LoadData => (tt, w)
    end.

Definition customer (id : string) (accountBalance annualIncome riskScore accountAge : Q)
    : CustomerData.t :=
  {| CustomerData.id := id;
     CustomerData.accountBalance := accountBalance;
     CustomerData.creditScore := 700;
     CustomerData.annualIncome := annualIncome;
     CustomerData.transactionCount := 40;
     CustomerData.avgMonthlyBalance := accountBalance;
     CustomerData.riskScore := riskScore;
     CustomerData.customerLifetimeValue := 1000;
     CustomerData.accountAge := accountAge;
     CustomerData.lastTransactionDays := 3 |}.

(** Account age 12 months, income exactly 40,000. *)
Definition atThreshold : CustomerData.t := customer "c1" 5000 40000 0.2 12.

(** Twenty-five customers of the page, all with a balance under 1000. *)
Definition crowd : list Customer.t :=
  map (fun n =>
         {| Customer.id := "c" ++ MLEngine.show (Z.of_nat n);
            Customer.firstName := "Ada";
            Customer.lastName := "Smith";
            Customer.email := "ada@example.com";
            Customer.accountBalance := 500;
            Customer.creditScore := 600;
            Customer.annualIncome := 30000;
            Customer.riskScore := 0.5;
            Customer.transactionCount := 12;
            Customer.lastTransactionDate := None |})
    (seq 0 25).

Definition six : list CustomerData.t :=
  [ customer "a" 100 50000 0.1 12;
    customer "b" 900 120000 0.8 60;
    customer "c" 900 45000 0.9 24;
    customer "d" 300 30000 0.3 80;
    customer "e" 900 99999 0.2 35;
    customer "f" 50 20000 0.5 100 ].

End Sample.

(** ** Reading a trace *)

Module Traces.

Import Effects.

(** The prompts sent to the hosted AI, in order. *)
Definition aiPrompts (tr : list Obs) : list Prompt :=
  flat_map (fun o => match o with OGenerateObject p _ => [p] | _ => [] end) tr.

(** The readings of the clock, in order. *)
Definition clockReadings (tr : list Obs) : list Z :=
  flat_map (fun o => match o with ONow t => [t] | _ => [] end) tr.

(** The customers a [riskAssessments.create] was requested for, those for
    which it succeeded, and those a [customers.update] was requested for. *)
Definition created (tr : list Obs) : list string :=
  flat_map (fun o => match o with OCreate customerId _ => [customerId] | _ => [] end) tr.

Definition createdOk (tr : list Obs) : list string :=
  flat_map (fun o => match o with OCreate customerId None => [customerId] | _ => [] end) tr.

Definition updated (tr : list Obs) : list string :=
  flat_map (fun o => match o with OUpdate customerId _ => [customerId] | _ => [] end) tr.

(** The account ages written into the risk prompts. *)
Definition promptAccountAges (tr : list Obs) : list Q :=
  flat_map (fun o => match o with
                     | OGenerateObject (RiskPrompt customerData _) _ =>
                         [CustomerData.accountAge customerData]
                     | _ => []
                     end) tr.

(** An environment whose clock never runs backwards: [time] is the
    current instant of a world, no request moves it back, and a reading
    lies between the instants before and after it. *)
Definition monotoneClock {World : Type} (h : handler World) (time : World -> Z) : Prop :=
  (forall X (ev : Eff X) (w : World), (time w <= time (snd (h X ev w)))%Z) /\
  (forall w : World,
      (time w <= fst (h _ DateNow w) <= time (snd (h _ DateNow w)))%Z).

(** The requests of the page itself: the flag, the sign-in, the reload. *)
Definition pageEvents (tr : list Obs) : list Obs :=
  filter (fun o => match o with
                   | OSetAnalyzing _ | OAuthMe _ | OLoadData => true
                   | _ => false
                   end) tr.

(** The body of the loop of [runRiskAnalysis] with its [catch], as it is
    written there. *)
Definition guarded (user : User.t) (customer : Customer.t) : Prog unit :=
  try_catch (RiskAssessmentPage.analyzeCustomer user customer)
    (fun customerError =>
       MLEngine.console_error
         ("Error analyzing customer " ++ Customer.id customer ++ ":")%string
         customerError).

(** What every pass through that body keeps: no request of the page, a
    [create] for each assessment, an [update] for each [create] that
    succeeded. *)
Definition quietWrites (tr : list Obs) : Prop :=
  pageEvents tr = [] /\
  created tr = RiskAssessmentPage.assessed tr /\
  updated tr = createdOk tr.

(** A result mirrors a segment of the AI's answer. *)
Definition mirrors (segment : AISegment.t) (r : SegmentationResult.t) : Prop :=
  SegmentationResult.segmentName r = AISegment.segmentName segment /\
  SegmentationResult.customers r = AISegment.customerIds segment /\
  SegmentationResult.characteristics r = AISegment.characteristics segment /\
  SegmentationResult.insights r = AISegment.insights segment /\
  exists (now : Z) (suffix : string),
    SegmentationResult.segmentId r
    = ("seg_" ++ MLEngine.show now ++ "_" ++ suffix)%string.

End Traces.

(** ** Checks on a segment of a result *)

Module SegmentChecks.

(** The members are input customers and [size] counts them. *)
Definition wellFormed (customers : list CustomerData.t) (s : SegmentationResult.t)
    : Prop :=
  incl (SegmentationResult.customers s) (map CustomerData.id customers) /\
  Characteristics.size (SegmentationResult.characteristics s)
  = JS.length (SegmentationResult.customers s).

(** The segment has a member and none of its averages is [NaN]. *)
Definition populated (s : SegmentationResult.t) : Prop :=
  SegmentationResult.customers s <> [] /\
  Characteristics.avgBalance (SegmentationResult.characteristics s) <> None /\
  Characteristics.avgIncome (SegmentationResult.characteristics s) <> None /\
  Characteristics.avgRiskScore (SegmentationResult.characteristics s) <> None /\
  Characteristics.avgCLV (SegmentationResult.characteristics s) <> None.

End SegmentChecks.

(** ** A second sample environment: the AI answers *)

Module SampleAnswers.

Import Effects.
Open Scope string_scope.

Definition segmentA : AISegment.t :=
  {| AISegment.segmentName := "Digital Natives";
     AISegment.customerIds := ["a"; "c"];
     AISegment.characteristics :=
       Characteristics.mk (Some 500) (Some 47500) (Some 0.5) (Some 1000) 2;
     AISegment.insights := ["Mobile-first onboarding"] |}.

Definition segmentB : AISegment.t :=
  {| AISegment.segmentName := "Premium Savers";
     AISegment.customerIds := ["b"];
     AISegment.characteristics :=
       Characteristics.mk (Some 900) (Some 120000) (Some 0.8) (Some 1000) 1;
     AISegment.insights := [] |}.

(** The AI's risk object: a score above the scale and no level. *)
Definition riskAnswer : RiskObject.t :=
  {| RiskObject.riskScore := Some 1.4;
     RiskObject.riskLevel := None;
     RiskObject.factors := Some ["Irregular deposits"];
     RiskObject.recommendations := None |}.

Definition aiUp : handler unit :=
  fun X ev w =>
    match ev in Eff X return X * unit with
    | DateNow => (1700000000000%Z, w)
    | RandomSuffix => ("k3j9x0q2a", w)
    | ConsoleError _ _ => (tt, w)
    | GenerateObject s _ =>
        (inr (match s return AIObject s with
              | SegmentsSchema => Some [segmentA; segmentB]
              | InsightsSchema => None
              | RiskSchema => riskAnswer
              | RecommendationsSchema => Some []
              end), w)
    | SetAnalyzing _ => (tt, w)
    | AuthMe => (inr (User.mk "user_1"), w)
    | TransactionsList _ _ => (inr [], w)
    | RiskAssessmentsCreate _ => (inr tt, w)
    | CustomersUpdate _ _ => (inr tt, w)
    | LoadData => (tt, w)
    end.

End SampleAnswers.

(** ** The seeder's other generators

    Every [Math.random()] of a function is an argument of its model, in
    the order of the calls. *)

Module DataSeederGenerators.

Open Scope string_scope.
Open Scope list_scope.
Open Scope Q_scope.
Open Scope js_scope.

(** [generateAnnualIncome()]: [rand] picks the bracket, [random] the income
    inside it (only the [Math.random()] of the bracket taken is called). *)
Definition generateAnnualIncome (rand random : Q) : Q :=
  if JS.ltb rand (JS.num 0.2)
  then JS.floor (random [*] 30000) [+] 20000                          (* 20k-50k *)
  else if JS.ltb rand (JS.num 0.5)
  then JS.floor (random [*] 40000) [+] 50000                          (* 50k-90k *)
  else if JS.ltb rand (JS.num 0.8)
  then JS.floor (random [*] 60000) [+] 90000                          (* 90k-150k *)
  else if JS.ltb rand (JS.num 0.95)
  then JS.floor (random [*] 100000) [+] 150000                        (* 150k-250k *)
  else JS.floor (random [*] 250000) [+] 250000.                       (* 250k-500k *)

(** [generateAccountBalance(income, creditScore)]. *)
Definition generateAccountBalance (income creditScore random : Q) : Q :=
  let incomeMultiplier := income [/] 100000 in
  let creditMultiplier := creditScore [/] 850 in
  let baseBalance := income [*] JS.num 0.1 [*] incomeMultiplier [*] creditMultiplier in
  let variation := (random [-] JS.num 0.5) [*] baseBalance [*] JS.num 0.5 in
  JS.max 100 (JS.floor (baseBalance [+] variation)).

(** The loop shared by the three weighted choices:
    [cumulative += weights[i]; if (rand < cumulative) return values[i]].
    [None] when the loop ends without returning. *)
Fixpoint weightedLoop (values : list string) (weights : list Q)
    (rand cumulative : Q) : option string :=
  match weights, values with
  | weight :: weights', value :: values' =>
      let cumulative := cumulative [+] weight in
      if JS.ltb rand cumulative then Some value
      else weightedLoop values' weights' rand cumulative
  | _, _ => None
  end.

Definition getRandomEmploymentStatus (rand : Q) : string :=
  let statuses := ["employed"; "self-employed"; "unemployed"; "retired"; "student"] in
  let weights := [JS.num 0.7; JS.num 0.15; JS.num 0.05; JS.num 0.08; JS.num 0.02] in
  match weightedLoop statuses weights rand 0 with
  | Some status => status
  | None => "employed"
  end.

Definition getRandomAccountType (rand : Q) : string :=
  let types := ["checking"; "savings"; "premium"; "business"] in
  let weights := [JS.num 0.6; JS.num 0.25; JS.num 0.1; JS.num 0.05] in
  match weightedLoop types weights rand 0 with
  | Some type => type
  | None => "checking"
  end.

Definition getRandomChannel (rand : Q) : string :=
  let channels := ["online"; "mobile"; "branch"; "atm"; "phone"] in
  let weights := [JS.num 0.35; JS.num 0.4; JS.num 0.15; JS.num 0.08; JS.num 0.02] in
  match weightedLoop channels weights rand 0 with
  | Some channel => channel
  | None => "online"
  end.

(** The financial profile of one seeded customer, lines 27-34 of
    [seedCustomerData]; [draw n] is the [n]-th [Math.random()] of the
    block. *)
Record FinancialProfile : Type := mkProfile {
  annualIncome : Q;
  creditScore : Q;
  accountBalance : Q;
  accountAge : Q;
  transactionCount : Q;
  avgMonthlyBalance : Q;
  riskScore : Q;
  customerLifetimeValue : Q
}.

Definition financialProfile (draw : nat -> Q) : FinancialProfile :=
  let annualIncome := generateAnnualIncome (draw 0%nat) (draw 1%nat) in
  let creditScore := DataSeeder.generateCreditScore annualIncome (draw 2%nat) in
  let accountBalance := generateAccountBalance annualIncome creditScore (draw 3%nat) in
  let accountAge := JS.floor (draw 4%nat [*] 120) [+] 1 in        (* 1-120 months *)
  let transactionCount := JS.floor (draw 5%nat [*] 200) [+] 10 in
  let avgMonthlyBalance :=
    accountBalance [*] (JS.num 0.8 [+] draw 6%nat [*] JS.num 0.4) in
  let riskScore :=
    DataSeeder.calculateRiskScore creditScore accountBalance transactionCount
      (draw 7%nat) in
  let customerLifetimeValue :=
    DataSeeder.calculateCLV accountBalance annualIncome accountAge (draw 8%nat) in
  {| annualIncome := annualIncome;
     creditScore := creditScore;
     accountBalance := accountBalance;
     accountAge := accountAge;
     transactionCount := transactionCount;
     avgMonthlyBalance := avgMonthlyBalance;
     riskScore := riskScore;
     customerLifetimeValue := customerLifetimeValue |}.

(** Draws of [Math.random()]: binary64 numbers in [0, 1). *)
Definition draws (draw : nat -> Q) : Prop := forall n, JS.isRandom (draw n).

End DataSeederGenerators.

(** ** The risk page's data preparation and statistics *)

(** The [customer] that [loadData] attaches to an assessment. *)
Module AssessmentCustomer.
Record t : Type := mk {
  firstName : string;
  lastName : string;
  email : string;
  accountBalance : Q;
  creditScore : Q
}.
End AssessmentCustomer.

(** The page's [RiskAssessment]; dates are instants. *)
Module Assessment.
Record t : Type := mk {
  id : string;
  customerId : string;
  assessmentType : string;
  riskScore : Q;
  riskLevel : string;
  factors : string;
  recommendations : string;
  status : string;
  assessedDate : Z;
  expiresDate : Z;
  customer : option AssessmentCustomer.t
}.
End Assessment.

(** An entry of a pie chart. *)
Module Slice.
Record t : Type := mk {
  name : string;
  value : Q;
  color : string
}.
End Slice.

Module RiskAssessmentStats.

Open Scope string_scope.
Open Scope list_scope.
Open Scope Q_scope.
Open Scope js_scope.

(** [Math.round]: the nearest integer, halves upwards; it is computed
    exactly, [floor (x + 1/2)] of the number [x]. *)
Definition round (x : Q) : Q := JS.floor (x + 0.5).

(** The enrichment of [loadData]:
    [assessmentData.map(assessment => ({...assessment, customer: ...}))]
    with [customerData.find(c => c.id === assessment.customerId)]. *)
Definition enrich (assessmentData : list Assessment.t)
    (customerData : list Customer.t) : list Assessment.t :=
  map (fun assessment =>
         let customer :=
           find (fun c => String.eqb (Customer.id c) (Assessment.customerId assessment))
             customerData in
         {| Assessment.id := Assessment.id assessment;
            Assessment.customerId := Assessment.customerId assessment;
            Assessment.assessmentType := Assessment.assessmentType assessment;
            Assessment.riskScore := Assessment.riskScore assessment;
            Assessment.riskLevel := Assessment.riskLevel assessment;
            Assessment.factors := Assessment.factors assessment;
            Assessment.recommendations := Assessment.recommendations assessment;
            Assessment.status := Assessment.status assessment;
            Assessment.assessedDate := Assessment.assessedDate assessment;
            Assessment.expiresDate := Assessment.expiresDate assessment;
            Assessment.customer :=
              match customer with
              | Some customer =>
                  Some {| AssessmentCustomer.firstName := Customer.firstName customer;
                          AssessmentCustomer.lastName := Customer.lastName customer;
                          AssessmentCustomer.email := Customer.email customer;
                          AssessmentCustomer.accountBalance :=
                            Customer.accountBalance customer;
                          AssessmentCustomer.creditScore := Customer.creditScore customer |}
              | None => None
              end |})
    assessmentData.

(** [a.riskLevel === level]. *)
Definition hasLevel (level : string) (a : Assessment.t) : bool :=
  String.eqb (Assessment.riskLevel a) level.

Definition riskDistribution (assessments : list Assessment.t) : list Slice.t :=
  [ {| Slice.name := "Low Risk";
       Slice.value := JS.length (filter (hasLevel "low") assessments);
       Slice.color := "#10B981" |};
    {| Slice.name := "Medium Risk";
       Slice.value := JS.length (filter (hasLevel "medium") assessments);
       Slice.color := "#F59E0B" |};
    {| Slice.name := "High Risk";
       Slice.value := JS.length (filter (hasLevel "high") assessments);
       Slice.color := "#EF4444" |};
    {| Slice.name := "Critical";
       Slice.value := JS.length (filter (hasLevel "critical") assessments);
       Slice.color := "#DC2626" |} ].

Definition highRiskAssessments (assessments : list Assessment.t) : list Assessment.t :=
  filter (fun a => hasLevel "high" a || hasLevel "critical" a) assessments.

(** The "% of total" of the High Risk card. *)
Definition highRiskPercent (assessments : list Assessment.t) : Q :=
  if JS.gtb (JS.length assessments) 0
  then round ((JS.length (highRiskAssessments assessments) [/] JS.length assessments)
              [*] 100)
  else 0.

(** The levels the chart has a slice for. *)
Definition knownLevel (a : Assessment.t) : Prop :=
  In (Assessment.riskLevel a) ["low"; "medium"; "high"; "critical"].

(** [e] is the assessment [a], all its own fields kept, with the first
    customer of its id attached, if there is one. *)
Definition enriches (customerData : list Customer.t) (a e : Assessment.t) : Prop :=
  Assessment.id e = Assessment.id a /\
  Assessment.customerId e = Assessment.customerId a /\
  Assessment.assessmentType e = Assessment.assessmentType a /\
  Assessment.riskScore e = Assessment.riskScore a /\
  Assessment.riskLevel e = Assessment.riskLevel a /\
  Assessment.factors e = Assessment.factors a /\
  Assessment.recommendations e = Assessment.recommendations a /\
  Assessment.status e = Assessment.status a /\
  Assessment.assessedDate e = Assessment.assessedDate a /\
  Assessment.expiresDate e = Assessment.expiresDate a /\
  (Assessment.customer e = None <->
   forall c, In c customerData -> Customer.id c <> Assessment.customerId a) /\
  (forall info, Assessment.customer e = Some info ->
     exists before c after,
       customerData = before ++ c :: after /\
       Customer.id c = Assessment.customerId a /\
       (forall c', In c' before -> Customer.id c' <> Assessment.customerId a) /\
       info = {| AssessmentCustomer.firstName := Customer.firstName c;
                 AssessmentCustomer.lastName := Customer.lastName c;
                 AssessmentCustomer.email := Customer.email c;
                 AssessmentCustomer.accountBalance := Customer.accountBalance c;
                 AssessmentCustomer.creditScore := Customer.creditScore c |}).

(** The sum of the values of a chart. *)
Definition total (slices : list Slice.t) : Q :=
  fold_right (fun s sum => Slice.value s + sum) 0 slices.

End RiskAssessmentStats.

(** ** The segmentation page's balance chart *)

Module SegmentationPage.

Open Scope string_scope.
Open Scope list_scope.
Open Scope Q_scope.

(** The page's [Customer]; dates are instants, [None] for an absent or
    empty string. *)
Record Customer : Type := mkCustomer {
  id : string;
  firstName : string;
  lastName : string;
  accountBalance : Q;
  creditScore : Q;
  annualIncome : Q;
  riskScore : Q;
  customerLifetimeValue : Q;
  transactionCount : Q;
  createdAt : Z;
  lastTransactionDate : option Z
}.

(** [x >= y] and [x <= y]. *)
Definition geb (x y : Q) : bool := Qle_bool y x.
Definition leb (x y : Q) : bool := Qle_bool x y.

Definition customerDistributionData (customers : list Customer) : list Slice.t :=
  if JS.gtb (JS.length customers) 0 then
    [ {| Slice.name := "High Value (>$100k)";
         Slice.value :=
           JS.length (filter (fun c => JS.gtb (accountBalance c) 100000) customers);
         Slice.color := "#10B981" |};
      {| Slice.name := "Medium Value ($10k-$100k)";
         Slice.value :=
           JS.length (filter (fun c => geb (accountBalance c) 10000
                                       && leb (accountBalance c) 100000) customers);
         Slice.color := "#3B82F6" |};
      {| Slice.name := "Low Value (<$10k)";
         Slice.value :=
           JS.length (filter (fun c => JS.ltb (accountBalance c) 10000) customers);
         Slice.color := "#F59E0B" |} ]
  else [].

End SegmentationPage.

(** ** The seeder's transactions *)

(** A generated transaction row; [transactionDate] is the instant of the
    ISO string, and an array entry that does not exist ([undefined]) is
    [None]. *)
Module TransactionRow.
Record t : Type := mk {
  id : string;
  userId : string;
  customerId : string;
  transactionType : option string;
  amount : Q;
  description : string;
  merchantCategory : option string;
  channel : string;
  location : string;
  isRecurring : Q;
  riskFlag : Q;
  transactionDate : Q
}.
End TransactionRow.

Module DataSeederTransactions.

Open Scope string_scope.
Open Scope list_scope.
Open Scope Q_scope.
Open Scope js_scope.

(** [array[Math.floor(random * array.length)]]. *)
Definition pick (array : list string) (random : Q) : option string :=
  match Qfloor (random [*] JS.length array) with
  | Zneg _ => None
  | index => nth_error array (Z.to_nat index)
  end.

(** [`${x}`] for an array entry. *)
Definition text (x : option string) : string :=
  match x with Some s => s | None => "undefined" end.

Definition getRandomCity (random : Q) : option string :=
  pick [ "New York"; "Los Angeles"; "Chicago"; "Houston"; "Phoenix"; "Philadelphia";
         "San Antonio"; "San Diego"; "Dallas"; "San Jose"; "Austin"; "Jacksonville";
         "Fort Worth"; "Columbus"; "Charlotte"; "San Francisco"; "Indianapolis";
         "Seattle" ] random.

Definition getRandomState (random : Q) : option string :=
  pick [ "CA"; "TX"; "FL"; "NY"; "PA"; "IL"; "OH"; "GA"; "NC"; "MI";
         "NJ"; "VA"; "WA"; "AZ"; "MA"; "TN"; "IN"; "MO"; "MD"; "WI" ] random.

Definition transactionTypes : list string := ["debit"; "credit"; "transfer"; "payment"].

Definition merchantCategories : list string :=
  [ "grocery"; "gas"; "restaurant"; "retail"; "utilities"; "healthcare";
    "entertainment"; "travel"; "insurance"; "education"; "other" ].

Section Generate.

(** [Math.random().toString(36).substr(2, 9)] of a draw; the draws of one
    call, ten per pass of the loop in the order of the source; the clock
    readings, one per pass. *)
Variable base36 : Q -> string.
Variable draw : nat -> Q.
Variable now : nat -> Z.

Variables customerId userId : string.
Variable count : Q.

(** The row pushed in pass [i]. *)
Definition transactionAt (i : nat) : TransactionRow.t :=
  let random k := draw (10 * i + k)%nat in
  let daysAgo := JS.floor (random 0%nat [*] 90) in
  let transactionDate :=
    inject_Z (now i) [-] (daysAgo [*] 24 [*] 60 [*] 60 [*] 1000) in
  {| TransactionRow.id :=
       "txn_" ++ customerId ++ "_" ++ MLEngine.show (Z.of_nat i) ++ "_"
       ++ base36 (random 1%nat);
     TransactionRow.userId := userId;
     TransactionRow.customerId := customerId;
     TransactionRow.transactionType := pick transactionTypes (random 2%nat);
     TransactionRow.amount := JS.floor (random 3%nat [*] 1000) [+] 10;
     TransactionRow.description :=
       "Transaction " ++ MLEngine.show (Z.of_nat i + 1);
     TransactionRow.merchantCategory := pick merchantCategories (random 4%nat);
     TransactionRow.channel := DataSeederGenerators.getRandomChannel (random 5%nat);
     TransactionRow.location :=
       text (getRandomCity (random 6%nat)) ++ ", " ++ text (getRandomState (random 7%nat));
     TransactionRow.isRecurring := if JS.gtb (random 8%nat) (JS.num 0.8) then 1 else 0;
     TransactionRow.riskFlag := if JS.gtb (random 9%nat) (JS.num 0.95) then 1 else 0;
     TransactionRow.transactionDate := transactionDate |}.

(** The loop [for (let i = 0; i < Math.min(count, 50); i++)], on fuel. *)
Fixpoint transactionsLoop (fuel i : nat) (transactions : list TransactionRow.t)
    : option (list TransactionRow.t) :=
  if JS.ltb (inject_Z (Z.of_nat i)) (JS.min count 50) then
    match fuel with
    | O => None
    | S fuel' => transactionsLoop fuel' (S i) (transactions ++ [transactionAt i])
    end
  else Some transactions.

(** [generateTransactions(customerId, userId, count)]. *)
Definition generateTransactions : option (list TransactionRow.t) :=
  transactionsLoop 50 0 [].

End Generate.

(** What holds of every generated row. *)
Definition wellFormedRow (customerId userId : string) (t : TransactionRow.t) : Prop :=
  TransactionRow.customerId t = customerId /\
  TransactionRow.userId t = userId /\
  (exists z, TransactionRow.amount t == inject_Z z /\ (10 <= z <= 1009)%Z) /\
  (exists type, TransactionRow.transactionType t = Some type /\ In type transactionTypes) /\
  (exists category, TransactionRow.merchantCategory t = Some category /\
                    In category merchantCategories) /\
  In (TransactionRow.channel t) ["online"; "mobile"; "branch"; "atm"; "phone"] /\
  In (TransactionRow.isRecurring t) [0; 1] /\
  In (TransactionRow.riskFlag t) [0; 1].

End DataSeederTransactions.

(* ================================================================== *)
(** * Proofs *)

Unset Implicit Arguments.

(** ** Binary64 rounding: monotone, idempotent, exact on whole numbers *)

Section Binary64Facts.

Import Binary64.
Open Scope Q_scope.

Lemma pow2_pos e : 0 < pow2 e.
Proof. apply Qpower_0_lt. reflexivity. Qed.

Lemma pow2_plus a b : pow2 (a + b) == pow2 a * pow2 b.
Proof. apply Qpower_plus. discriminate. Qed.

Lemma pow2_minus a b : pow2 (a - b) == pow2 a / pow2 b.
Proof.
  unfold Z.sub. rewrite pow2_plus. unfold pow2. rewrite Qpower_opp. reflexivity.
Qed.

Lemma pow2_le a b : (a <= b)%Z -> pow2 a <= pow2 b.
Proof. intros H. apply Qpower_le_compat_l; [exact H | discriminate]. Qed.

Lemma pow2_lt a b : (a < b)%Z -> pow2 a < pow2 b.
Proof. intros H. apply Qpower_lt_compat_l; [exact H | reflexivity]. Qed.

Lemma pow2_lt_inv a b : pow2 a < pow2 b -> (a < b)%Z.
Proof. intros H. apply (Qpower_lt_compat_l_inv 2); [exact H | reflexivity]. Qed.

Lemma pow2_le_inv a b : pow2 a <= pow2 b -> (a <= b)%Z.
Proof. intros H. apply (Qpower_le_compat_l_inv 2); [exact H | reflexivity]. Qed.

Lemma pow2_Z n : (0 <= n)%Z -> pow2 n == inject_Z (2 ^ n).
Proof. intros H. unfold pow2. rewrite Zpower_Qpower by exact H. reflexivity. Qed.

Lemma div_pow2 q e : q / pow2 e * pow2 e == q.
Proof. field. pose proof (pow2_pos e). lra. Qed.

(** *** Rounding to the nearest integer, ties to even *)

Lemma rne_comp x y : x == y -> rne x = rne y.
Proof.
  intros H. unfold rne.
  rewrite (Qfloor_comp x y H).
  assert (E : Qcompare (x - inject_Z (Qfloor y)) (1 # 2)
              = Qcompare (y - inject_Z (Qfloor y)) (1 # 2)).
  { apply Qcompare_comp; [rewrite H|]; reflexivity. }
  now rewrite E.
Qed.

Lemma rne_bounds x : x - (1 # 2) <= inject_Z (rne x) <= x + (1 # 2).
Proof.
  unfold rne. pose proof (Qfloor_le x) as Hl. pose proof (Qlt_floor x) as Hu.
  rewrite inject_Z_plus in Hu. change (inject_Z 1) with 1 in Hu.
  destruct (Qcompare_spec (x - inject_Z (Qfloor x)) (1 # 2)) as [E|E|E].
  - destruct (Z.even (Qfloor x)); [|rewrite inject_Z_plus; change (inject_Z 1) with 1];
      split; lra.
  - split; lra.
  - rewrite inject_Z_plus. change (inject_Z 1) with 1. split; lra.
Qed.

Lemma rne_Z z : rne (inject_Z z) = z.
Proof.
  unfold rne. rewrite Qfloor_Z.
  assert (E : Qcompare (inject_Z z - inject_Z z) (1 # 2) = Lt).
  { apply Qlt_alt. setoid_replace (inject_Z z - inject_Z z) with 0 by ring.
    reflexivity. }
  now rewrite E.
Qed.

Lemma rne_mono x y : x <= y -> (rne x <= rne y)%Z.
Proof.
  intros H. destruct (Z.le_gt_cases (rne x) (rne y)) as [Hle|Hgt]; [exact Hle|].
  exfalso.
  assert (H1 : (rne y + 1 <= rne x)%Z) by lia.
  rewrite Zle_Qle in H1. rewrite inject_Z_plus in H1. change (inject_Z 1) with 1 in H1.
  pose proof (rne_bounds x) as Bx. pose proof (rne_bounds y) as By.
  assert (E : x == y) by lra.
  apply rne_comp in E. lia.
Qed.

Lemma rne_nearest x : nearest x (rne x).
Proof.
  unfold nearest, rne.
  pose proof (Qfloor_le x) as Hl. pose proof (Qlt_floor x) as Hu.
  rewrite inject_Z_plus in Hu. change (inject_Z 1) with 1 in Hu.
  destruct (Qcompare_spec (x - inject_Z (Qfloor x)) (1 # 2)) as [E|E|E].
  - right. destruct (Z.even (Qfloor x)) eqn:Ev.
    + split; [left; lra | exact Ev].
    + split; [right; rewrite inject_Z_plus; change (inject_Z 1) with 1; lra|].
      rewrite Z.even_add, Ev. reflexivity.
  - left. lra.
  - left. rewrite inject_Z_plus. change (inject_Z 1) with 1. lra.
Qed.

Lemma nearest_unique x z z' : nearest x z -> nearest x z' -> z = z'.
Proof.
  unfold nearest.
  intros H H'.
  assert (D : (z = z' \/ z + 1 <= z' \/ z' + 1 <= z)%Z) by lia.
  destruct D as [D|[D|D]]; [exact D| |]; exfalso;
    rewrite Zle_Qle in D; rewrite inject_Z_plus in D; change (inject_Z 1) with 1 in D.
  - destruct H as [H|[[H|H] Ev]]; destruct H' as [H'|[[H'|H'] Ev']]; try lra.
    assert (E : (z' = z + 1)%Z).
    { apply Z.le_antisymm.
      - rewrite Zle_Qle, inject_Z_plus. change (inject_Z 1) with 1. lra.
      - rewrite Zle_Qle, inject_Z_plus. change (inject_Z 1) with 1. lra. }
    subst z'. rewrite Z.even_add, Ev in Ev'. discriminate.
  - destruct H as [H|[[H|H] Ev]]; destruct H' as [H'|[[H'|H'] Ev']]; try lra.
    assert (E : (z = z' + 1)%Z).
    { apply Z.le_antisymm.
      - rewrite Zle_Qle, inject_Z_plus. change (inject_Z 1) with 1. lra.
      - rewrite Zle_Qle, inject_Z_plus. change (inject_Z 1) with 1. lra. }
    subst z. rewrite Z.even_add, Ev' in Ev. discriminate.
Qed.

Lemma rne_opp x : rne (- x) = (- rne x)%Z.
Proof.
  apply (nearest_unique (- x)); [apply rne_nearest|].
  destruct (rne_nearest x) as [H|[[H|H] Ev]]; unfold nearest; rewrite inject_Z_opp.
  - left. lra.
  - right. split; [right; lra|]. now rewrite Z.even_opp.
  - right. split; [left; lra|]. now rewrite Z.even_opp.
Qed.


(** *** The binade of a number *)

Lemma div_le_compat x X y Y :
  0 <= x -> x <= X -> 0 < Y -> Y <= y -> x / y <= X / Y.
Proof.
  intros Hx HX HY Hy.
  assert (Hy0 : 0 < y) by lra.
  apply Qle_shift_div_r; [exact Hy0|].
  assert (E : X / Y * Y == X) by (field; lra).
  assert (T : 0 <= X / Y) by (apply Qle_shift_div_l; lra).
  nra.
Qed.

Lemma div_lt_compat x X y Y :
  0 <= x -> x < X -> 0 < Y -> Y <= y -> x / y < X / Y.
Proof.
  intros Hx HX HY Hy.
  assert (Hy0 : 0 < y) by lra.
  apply Qlt_shift_div_r; [exact Hy0|].
  assert (E : X / Y * Y == X) by (field; lra).
  assert (T : 0 < X / Y) by (apply Qlt_shift_div_l; lra).
  nra.
Qed.

Lemma ilog2_spec q : ~ q == 0 -> pow2 (ilog2 q) <= Qabs q < pow2 (ilog2 q + 1).
Proof.
  intros Hq. destruct q as [n d]. unfold ilog2. cbn [Qnum Qden].
  assert (HN : (0 < Z.abs n)%Z).
  { unfold Qeq in Hq. simpl in Hq. lia. }
  assert (HD : (0 < Zpos d)%Z) by lia.
  destruct (Z.log2_spec _ HN) as [Na Nb]. destruct (Z.log2_spec _ HD) as [Da Db].
  pose proof (Z.log2_nonneg (Z.abs n)) as Ha.
  pose proof (Z.log2_nonneg (Zpos d)) as Hb.
  set (a := Z.log2 (Z.abs n)) in *. set (b := Z.log2 (Zpos d)) in *.
  assert (HA : Qabs (n # d) == inject_Z (Z.abs n) / inject_Z (Zpos d)).
  { simpl. apply Qmake_Qdiv. }
  rewrite Zle_Qle in Na, Da. rewrite Zlt_Qlt in Nb, Db.
  rewrite <- pow2_Z in Na, Nb, Da, Db by lia.
  replace (Z.succ a) with (a + 1)%Z in Nb by lia.
  replace (Z.succ b) with (b + 1)%Z in Db by lia.
  pose proof (pow2_pos a) as Pa. pose proof (pow2_pos b) as Pb.
  assert (U : Qabs (n # d) < pow2 (a - b + 1)).
  { replace (a - b + 1)%Z with (a + 1 - b)%Z by lia.
    rewrite pow2_minus, HA. apply div_lt_compat; lra. }
  assert (L : pow2 (a - b - 1) <= Qabs (n # d)).
  { replace (a - b - 1)%Z with (a - (b + 1))%Z by lia.
    rewrite pow2_minus, HA. apply div_le_compat; lra. }
  destruct (Qle_bool (pow2 (a - b)) (Qabs (n # d))) eqn:T.
  - apply Qle_bool_iff in T. split; [exact T | exact U].
  - assert (T' : Qabs (n # d) < pow2 (a - b)).
    { apply Qnot_le_lt. intros C. apply Qle_bool_iff in C. congruence. }
    replace (a - b - 1 + 1)%Z with (a - b)%Z by lia.
    split; [exact L | exact T'].
Qed.

Lemma ilog2_unique q k : pow2 k <= Qabs q < pow2 (k + 1) -> ilog2 q = k.
Proof.
  intros [L U].
  assert (Hq : ~ q == 0).
  { intros E. rewrite E in L. pose proof (pow2_pos k).
    change (Qabs 0) with 0 in L. lra. }
  destruct (ilog2_spec q Hq) as [L' U'].
  assert (H1 : pow2 (ilog2 q) < pow2 (k + 1)) by lra.
  assert (H2 : pow2 k < pow2 (ilog2 q + 1)) by lra.
  apply pow2_lt_inv in H1, H2. lia.
Qed.

Lemma ilog2_opp q : ~ q == 0 -> ilog2 (- q) = ilog2 q.
Proof.
  intros Hq. apply ilog2_unique. rewrite Qabs_opp. now apply ilog2_spec.
Qed.

Lemma ilog2_comp x y : ~ x == 0 -> x == y -> ilog2 x = ilog2 y.
Proof.
  intros Hx E. symmetry. apply ilog2_unique. rewrite <- E. now apply ilog2_spec.
Qed.

Lemma ilog2_mono x y : ~ x == 0 -> Qabs x <= Qabs y -> (ilog2 x <= ilog2 y)%Z.
Proof.
  intros Hx H.
  assert (Hy : ~ y == 0).
  { intros E. rewrite E in H. simpl in H.
    apply Hx. pose proof (Qabs_nonneg x).
    assert (Z0 : Qabs x == 0) by lra.
    revert Z0. apply Qabs_case; intros; lra. }
  destruct (ilog2_spec x Hx) as [Lx Ux]. destruct (ilog2_spec y Hy) as [Ly Uy].
  assert (H1 : pow2 (ilog2 x) < pow2 (ilog2 y + 1)) by lra.
  apply pow2_lt_inv in H1. lia.
Qed.

(** *** Rounding *)

Lemma round_eq q :
  round q == inject_Z (rne (q / pow2 (exponent q))) * pow2 (exponent q).
Proof. unfold round. cbn zeta. apply Qred_correct. Qed.

Lemma round_at q k :
  pow2 k <= Qabs q < pow2 (k + 1) ->
  round q == inject_Z (rne (q / pow2 (Z.max (k - 52) (-1074))))
             * pow2 (Z.max (k - 52) (-1074)).
Proof.
  intros H. rewrite round_eq. unfold exponent. now rewrite (ilog2_unique q k H).
Qed.

Lemma round_zero q : q == 0 -> round q == 0.
Proof.
  intros E. rewrite round_eq.
  assert (Z0 : q / pow2 (exponent q) == inject_Z 0).
  { transitivity (0 / pow2 (exponent q)).
    - apply Qdiv_comp; [exact E | reflexivity].
    - unfold Qdiv. change (inject_Z 0) with 0. ring. }
  rewrite (rne_comp _ _ Z0), rne_Z. change (inject_Z 0) with 0. ring.
Qed.

Lemma round_nonneg q : 0 <= q -> 0 <= round q.
Proof.
  intros H. rewrite round_eq. pose proof (pow2_pos (exponent q)) as P.
  apply Qmult_le_0_compat; [|lra].
  change 0 with (inject_Z 0). rewrite <- Zle_Qle.
  rewrite <- (rne_Z 0). apply rne_mono. change (inject_Z 0) with 0.
  apply Qle_shift_div_l; lra.
Qed.

Lemma round_opp q : round (- q) == - round q.
Proof.
  destruct (Qeq_dec q 0) as [E|N].
  - rewrite (round_zero q E), (round_zero (- q)); [reflexivity | rewrite E; reflexivity].
  - rewrite !round_eq. unfold exponent. rewrite (ilog2_opp q N).
    set (e := Z.max (ilog2 q - 52) (-1074)).
    assert (D : - q / pow2 e == - (q / pow2 e)).
    { field. pose proof (pow2_pos e). lra. }
    rewrite (rne_comp _ _ D), rne_opp, inject_Z_opp. ring.
Qed.

Lemma round_nonpos q : q <= 0 -> round q <= 0.
Proof.
  intros H. assert (H' : 0 <= - q) by lra.
  apply round_nonneg in H'. rewrite round_opp in H'. lra.
Qed.


Lemma exponent_ge q : (-1074 <= exponent q)%Z.
Proof. unfold exponent. lia. Qed.

Lemma exponent_mono x y :
  ~ x == 0 -> Qabs x <= Qabs y -> (exponent x <= exponent y)%Z.
Proof.
  intros Hx H. pose proof (ilog2_mono x y Hx H). unfold exponent. lia.
Qed.

Lemma scaled_lt q : 0 < q -> q / pow2 (exponent q) < inject_Z (2 ^ 53).
Proof.
  intros Hq. assert (N : ~ q == 0) by lra.
  destruct (ilog2_spec q N) as [_ U]. rewrite (Qabs_pos q) in U by lra.
  assert (P : pow2 (ilog2 q + 1) <= pow2 (exponent q + 53)).
  { apply pow2_le. unfold exponent. lia. }
  rewrite <- pow2_Z by lia.
  apply Qlt_shift_div_r; [apply pow2_pos|].
  rewrite (Qmult_comm (pow2 53)), <- pow2_plus. lra.
Qed.

Lemma scaled_ge q :
  0 < q -> (-1074 < exponent q)%Z -> inject_Z (2 ^ 52) <= q / pow2 (exponent q).
Proof.
  intros Hq He. assert (N : ~ q == 0) by lra.
  destruct (ilog2_spec q N) as [L _]. rewrite (Qabs_pos q) in L by lra.
  assert (E : ilog2 q = (exponent q + 52)%Z) by (unfold exponent in *; lia).
  rewrite E in L. rewrite <- pow2_Z by lia.
  apply Qle_shift_div_l; [apply pow2_pos|].
  rewrite (Qmult_comm (pow2 52)), <- pow2_plus. lra.
Qed.

Lemma round_le_pow q : 0 < q -> round q <= pow2 (exponent q + 53).
Proof.
  intros Hq. rewrite round_eq, pow2_plus, (Qmult_comm (pow2 _) (pow2 53)).
  apply Qmult_le_compat_r; [|apply Qlt_le_weak, pow2_pos].
  assert (M : (rne (q / pow2 (exponent q)) <= 2 ^ 53)%Z).
  { rewrite <- (rne_Z (2 ^ 53)). apply rne_mono. apply Qlt_le_weak, scaled_lt, Hq. }
  rewrite Zle_Qle in M. rewrite <- (pow2_Z 53) in M by lia. exact M.
Qed.

Lemma round_ge_pow q :
  0 < q -> (-1074 < exponent q)%Z -> pow2 (exponent q + 52) <= round q.
Proof.
  intros Hq He. rewrite round_eq, pow2_plus, (Qmult_comm (pow2 _) (pow2 52)).
  apply Qmult_le_compat_r; [|apply Qlt_le_weak, pow2_pos].
  assert (M : (2 ^ 52 <= rne (q / pow2 (exponent q)))%Z).
  { rewrite <- (rne_Z (2 ^ 52)) at 1. apply rne_mono. now apply scaled_ge. }
  rewrite Zle_Qle in M. rewrite <- (pow2_Z 52) in M by lia. exact M.
Qed.

Lemma round_mono_pos x y : 0 < x -> x <= y -> round x <= round y.
Proof.
  intros Hx H. assert (Hy : 0 < y) by lra.
  assert (N : ~ x == 0) by lra.
  assert (A : Qabs x <= Qabs y) by (rewrite !Qabs_pos; lra).
  pose proof (exponent_mono x y N A) as E.
  pose proof (exponent_ge x) as Gx.
  destruct (Z.eq_dec (exponent x) (exponent y)) as [Eq|Ne].
  - rewrite !round_eq, Eq.
    apply Qmult_le_compat_r; [|apply Qlt_le_weak, pow2_pos].
    rewrite <- Zle_Qle. apply rne_mono.
    apply Qmult_le_compat_r; [exact H|]. apply Qlt_le_weak, Qinv_lt_0_compat, pow2_pos.
  - apply Qle_trans with (pow2 (exponent x + 53)); [now apply round_le_pow|].
    apply Qle_trans with (pow2 (exponent y + 52)); [apply pow2_le; lia|].
    apply round_ge_pow; [exact Hy | lia].
Qed.

(** Rounding is monotone. *)
Theorem round_mono x y : x <= y -> round x <= round y.
Proof.
  intros H. destruct (Qlt_le_dec 0 x) as [Hx|Hx].
  - now apply round_mono_pos.
  - destruct (Qlt_le_dec y 0) as [Hy|Hy].
    + assert (H' : round (- y) <= round (- x)) by (apply round_mono_pos; lra).
      rewrite !round_opp in H'. lra.
    + pose proof (round_nonpos x Hx). pose proof (round_nonneg y Hy). lra.
Qed.

Lemma round_comp x y : x == y -> round x == round y.
Proof.
  intros E. apply Qle_antisym; apply round_mono; rewrite E; apply Qle_refl.
Qed.

(** A multiple of [2^e] that needs no more than the 53 bits of its binade
    is a binary64 number. *)
Lemma round_fixed q m e :
  q == inject_Z m * pow2 e -> (exponent q <= e)%Z -> round q == q.
Proof.
  intros E He. rewrite round_eq.
  assert (S : q / pow2 (exponent q) == inject_Z (m * 2 ^ (e - exponent q))).
  { rewrite inject_Z_mult, <- pow2_Z by lia. rewrite pow2_minus.
    transitivity (inject_Z m * pow2 e / pow2 (exponent q)).
    - apply Qdiv_comp; [exact E | reflexivity].
    - field. pose proof (pow2_pos (exponent q)). lra. }
  rewrite (rne_comp _ _ S), rne_Z, <- S. apply div_pow2.
Qed.

Lemma exponent_small q : Qabs q < inject_Z (2 ^ 53) -> ~ q == 0 -> (exponent q <= 0)%Z.
Proof.
  intros H N. destruct (ilog2_spec q N) as [L _].
  rewrite <- pow2_Z in H by lia.
  assert (P : pow2 (ilog2 q) < pow2 53) by lra.
  apply pow2_lt_inv in P. unfold exponent. lia.
Qed.

(** Whole numbers up to [2^53] are binary64 numbers. *)
Lemma round_Z z : (Z.abs z <= 2 ^ 53)%Z -> round (inject_Z z) == inject_Z z.
Proof.
  intros H.
  destruct (Z.eq_dec z 0) as [->|N]; [reflexivity|].
  destruct (Z.eq_dec (Z.abs z) (2 ^ 53)) as [E|NE].
  - assert (D : z = (2 ^ 53)%Z \/ z = (- 2 ^ 53)%Z) by lia.
    destruct D as [-> | ->]; vm_compute; reflexivity.
  - apply (round_fixed _ z 0); [unfold pow2; simpl; ring|].
    apply exponent_small.
    + change (Qabs (inject_Z z)) with (inject_Z (Z.abs z)).
      rewrite <- Zlt_Qlt. lia.
    + intros C. apply N. unfold Qeq in C. simpl in C. lia.
Qed.


Lemma exponent_le q e :
  ~ q == 0 -> (-1074 <= e)%Z -> Qabs q < pow2 (e + 53) -> (exponent q <= e)%Z.
Proof.
  intros N He H. destruct (ilog2_spec q N) as [L _].
  assert (P : pow2 (ilog2 q) < pow2 (e + 53)) by lra.
  apply pow2_lt_inv in P. unfold exponent. lia.
Qed.

Lemma round_idem_pos q : 0 < q -> round (round q) == round q.
Proof.
  intros Hq. pose proof (round_eq q) as E. pose proof (exponent_ge q) as Ge.
  set (e := exponent q) in *. set (m := rne (q / pow2 e)) in *.
  assert (M : (0 <= m <= 2 ^ 53)%Z).
  { split.
    - unfold m. rewrite <- (rne_Z 0). apply rne_mono. change (inject_Z 0) with 0.
      apply Qle_shift_div_l; [apply pow2_pos | lra].
    - unfold m, e. rewrite <- (rne_Z (2 ^ 53)). apply rne_mono.
      apply Qlt_le_weak, scaled_lt, Hq. }
  pose proof (pow2_pos e) as Pe.
  destruct (Z.eq_dec m 0) as [Z0|NZ].
  - assert (R0 : round q == 0).
    { rewrite E, Z0. change (inject_Z 0) with 0. ring. }
    rewrite (round_zero _ R0), R0. reflexivity.
  - assert (Rpos : 0 < round q).
    { rewrite E. apply Qmult_lt_0_compat; [|exact Pe].
      change 0 with (inject_Z 0). rewrite <- Zlt_Qlt. lia. }
    assert (RN : ~ round q == 0) by lra.
    destruct (Z.eq_dec m (2 ^ 53)) as [Top|NT].
    + apply (round_fixed _ (2 ^ 52) (e + 1)).
      * rewrite E, Top. rewrite <- !pow2_Z by lia. rewrite <- !pow2_plus.
        replace (53 + e)%Z with (52 + (e + 1))%Z by lia. reflexivity.
      * unfold exponent. rewrite (ilog2_unique (round q) (e + 53)); [lia|].
        rewrite (Qabs_pos (round q)) by lra.
        rewrite E, Top, <- pow2_Z, <- pow2_plus by lia.
        split; [apply pow2_le; lia | apply pow2_lt; lia].
    + apply (round_fixed _ m e); [exact E|].
      apply exponent_le; [exact RN | exact Ge |].
      rewrite (Qabs_pos (round q)) by lra.
      rewrite E, pow2_plus, (Qmult_comm (pow2 e)).
      apply Qmult_lt_compat_r; [exact Pe|].
      rewrite pow2_Z by lia. rewrite <- Zlt_Qlt. lia.
Qed.

(** The result of a rounding is a binary64 number. *)
Theorem round_idem q : round (round q) == round q.
Proof.
  destruct (Q_dec q 0) as [[Neg|Pos]|Z0].
  - assert (P : 0 < - q) by lra. apply round_idem_pos in P.
    rewrite (round_comp _ _ (round_opp q)), !round_opp in P. lra.
  - now apply round_idem_pos.
  - rewrite (round_comp _ _ (round_zero q Z0)). apply round_zero in Z0.
    rewrite Z0. reflexivity.
Qed.

(** Scaling by a power of two is exact as long as nothing underflows. *)
Lemma round_scale q j :
  pow2 (-1022) <= Qabs q -> pow2 (-1022) <= Qabs q * pow2 j ->
  round (q * pow2 j) == round q * pow2 j.
Proof.
  intros Hq Hs. pose proof (pow2_pos (-1022)) as P0. pose proof (pow2_pos j) as Pj.
  assert (N : ~ q == 0).
  { intros E. rewrite E in Hq. change (Qabs 0) with 0 in Hq. lra. }
  destruct (ilog2_spec q N) as [L U]. set (k := ilog2 q) in *.
  assert (K : (-1022 <= k)%Z).
  { assert (P : pow2 (-1022) < pow2 (k + 1)) by lra. apply pow2_lt_inv in P. lia. }
  assert (A : Qabs (q * pow2 j) == Qabs q * pow2 j).
  { rewrite Qabs_Qmult, (Qabs_pos (pow2 j)) by lra. reflexivity. }
  assert (B : pow2 (k + j) <= Qabs (q * pow2 j) < pow2 (k + j + 1)).
  { rewrite A. replace (k + j + 1)%Z with (k + 1 + j)%Z by lia.
    rewrite (pow2_plus k j), (pow2_plus (k + 1) j). split.
    - apply Qmult_le_compat_r; lra.
    - apply Qmult_lt_compat_r; lra. }
  assert (KJ : (-1022 <= k + j)%Z).
  { assert (P : pow2 (-1022) < pow2 (k + j + 1)) by (rewrite <- A in Hs; lra).
    apply pow2_lt_inv in P. lia. }
  rewrite (round_at _ _ B), (round_at q k (conj L U)).
  replace (Z.max (k + j - 52) (-1074)) with (k - 52 + j)%Z by lia.
  replace (Z.max (k - 52) (-1074)) with (k - 52)%Z by lia.
  assert (D : q * pow2 j / pow2 (k - 52 + j) == q / pow2 (k - 52)).
  { rewrite pow2_plus. field. pose proof (pow2_pos (k - 52)). split; lra. }
  rewrite (rne_comp _ _ D), pow2_plus. ring.
Qed.

Lemma round_half q :
  pow2 (-1021) <= Qabs q -> round (q * (1 # 2)) == round q * (1 # 2).
Proof.
  intros H. change (1 # 2) with (pow2 (-1)).
  assert (P : pow2 (-1021) == pow2 (-1022) * 2).
  { change 2 with (pow2 1). rewrite <- pow2_plus. reflexivity. }
  pose proof (pow2_pos (-1022)).
  apply round_scale; [lra|].
  change (pow2 (-1)) with (1 # 2). lra.
Qed.

End Binary64Facts.

(** ** Numbers, literals and draws *)

Section Numbers.

Import Binary64.
Open Scope Q_scope.

Lemma round_ext x y : x == y -> round x = round y.
Proof.
  intros E. unfold round. cbn zeta. apply Qred_complete.
  rewrite <- (round_eq x), <- (round_eq y). apply round_comp, E.
Qed.


Lemma isNumber_round x : JS.isNumber (round x).
Proof. unfold JS.isNumber. exact (round_idem x). Qed.

Lemma isNumber_Z z : (Z.abs z <= 2 ^ 53)%Z -> JS.isNumber (inject_Z z).
Proof. unfold JS.isNumber. exact (round_Z z). Qed.

Lemma round_le_number x c : JS.isNumber c -> x <= c -> round x <= c.
Proof.
  intros N H. apply Qle_trans with (round c); [now apply round_mono|].
  unfold JS.isNumber in N. rewrite N. apply Qle_refl.
Qed.

Lemma round_ge_number x c : JS.isNumber c -> c <= x -> c <= round x.
Proof.
  intros N H. apply Qle_trans with (round c); [|now apply round_mono].
  unfold JS.isNumber in N. rewrite N. apply Qle_refl.
Qed.

(** The largest value of [Math.random()] is [1 - 2^-53]. *)
Lemma random_max r : JS.isRandom r -> r <= 1 - pow2 (-53).
Proof.
  intros (N & H0 & H1). apply Qnot_lt_le. intros C.
  change (pow2 (-53)) with (1 # 9007199254740992) in C.
  assert (B : pow2 (-1) <= Qabs r < pow2 (-1 + 1)).
  { rewrite (Qabs_pos r) by exact H0.
    change (pow2 (-1)) with (1 # 2). change (pow2 (-1 + 1)) with 1. lra. }
  pose proof (round_at r (-1) B) as E.
  change (Z.max (-1 - 52) (-1074)) with (-53)%Z in E.
  change (pow2 (-53)) with (1 # 9007199254740992) in E.
  unfold JS.isNumber in N. rewrite N in E.
  set (m := rne (r / (1 # 9007199254740992))) in E.
  assert (L : inject_Z 9007199254740991 < inject_Z m).
  { change (inject_Z 9007199254740991) with 9007199254740991. lra. }
  assert (U : inject_Z m < inject_Z 9007199254740992).
  { change (inject_Z 9007199254740992) with 9007199254740992. lra. }
  rewrite <- Zlt_Qlt in L, U. lia.
Qed.

(** [Math.floor(Math.random() * n)] is one of [0 .. n-1]: the largest draw
    times [n] rounds to a number below [n]. *)
Lemma floor_mul_random (r : Q) (n : Z) :
  JS.isRandom r -> (0 < n)%Z ->
  round ((1 - pow2 (-53)) * inject_Z n) < inject_Z n ->
  exists z : Z,
    JS.floor (JS.mul r (inject_Z n)) = inject_Z z /\ (0 <= z <= n - 1)%Z.
Proof.
  intros R Hn Htop. pose proof (random_max r R) as Hmax. destruct R as (_ & H0 & _).
  exists (Qfloor (JS.mul r (inject_Z n))). split; [reflexivity|].
  assert (Pn : 0 < inject_Z n) by (change 0 with (inject_Z 0); now rewrite <- Zlt_Qlt).
  split.
  - rewrite <- (Qfloor_Z 0). apply Qfloor_resp_le. change (inject_Z 0) with 0.
    apply round_nonneg. apply Qmult_le_0_compat; lra.
  - assert (Hlt : inject_Z (Qfloor (JS.mul r (inject_Z n))) < inject_Z n).
    { apply Qle_lt_trans with (JS.mul r (inject_Z n)); [apply Qfloor_le|].
      apply Qle_lt_trans with (2 := Htop). apply round_mono.
      apply Qmult_le_compat_r; lra. }
    rewrite <- Zlt_Qlt in Hlt. lia.
Qed.

(** Sums of whole numbers are exact. *)
Lemma add_Z (a b : Z) :
  (Z.abs (a + b) <= 2 ^ 53)%Z -> JS.add (inject_Z a) (inject_Z b) == inject_Z (a + b).
Proof.
  intros H. unfold JS.add. rewrite <- inject_Z_plus. now apply round_Z.
Qed.

Lemma add_nonneg x y : 0 <= x -> 0 <= y -> 0 <= JS.add x y.
Proof. intros. apply round_nonneg. lra. Qed.

Lemma mul_nonneg x y : 0 <= x -> 0 <= y -> 0 <= JS.mul x y.
Proof. intros. apply round_nonneg. now apply Qmult_le_0_compat. Qed.

Lemma div_nonneg_pos x y : 0 <= x -> 0 < y -> 0 <= JS.div x y.
Proof. intros. apply round_nonneg. apply Qle_shift_div_l; lra. Qed.

End Numbers.

(** Replaces every literal by its value. *)
Ltac literals :=
  repeat match goal with
         | |- context [JS.num ?c] =>
             let v := eval vm_compute in (JS.num c) in
             change (JS.num c) with v in *
         | H : context [JS.num ?c] |- _ =>
             let v := eval vm_compute in (JS.num c) in
             change (JS.num c) with v in *
         end.

(** Closes [isNumber c] and comparisons of closed numbers. *)
Ltac closed := vm_compute; first [reflexivity | discriminate].

(** A rounded value stays on its side of a number. *)
Ltac rounded :=
  first [apply round_ge_number | apply round_le_number]; [closed | lra].

(** ** The seeder's formulas *)

Section Seeder.

Open Scope Q_scope.

Lemma clamp_bounds (lo hi x : Q) :
  lo <= hi -> lo <= Qmax lo (Qmin hi x) <= hi.
Proof.
  intros Hlh. split.
  - apply Q.le_max_l.
  - apply Q.max_lub; [exact Hlh | apply Q.le_min_l].
Qed.

Lemma ltb_lt (x y : Q) : JS.ltb x y = true <-> x < y.
Proof.
  unfold JS.ltb. rewrite negb_true_iff. split.
  - intros H. apply Qnot_le_lt. intros Hle.
    apply Qle_bool_iff in Hle. congruence.
  - intros H. destruct (Qle_bool y x) eqn:E; [|reflexivity].
    apply Qle_bool_iff in E. exfalso. exact (Qlt_not_le _ _ H E).
Qed.

Lemma div_nonneg (x : Q) (d : positive) : 0 <= x -> 0 <= x / inject_Z (Zpos d).
Proof.
  intros Hx. unfold Qdiv. apply Qmult_le_0_compat; [exact Hx|].
  apply Qinv_le_0_compat. unfold Qle; simpl; lia.
Qed.

Lemma floor_nonneg (x : Q) : 0 <= x -> 0 <= JS.floor x.
Proof.
  intros Hx. unfold JS.floor.
  change 0 with (inject_Z 0). rewrite <- Zle_Qle.
  change 0%Z with (Qfloor (inject_Z 0)). apply Qfloor_resp_le. exact Hx.
Qed.

End Seeder.

Section SeederNoise.

Import Binary64.
Open Scope Q_scope.
Open Scope js_scope.

(** [Math.random() - 0.5] lies in [-0.5, 0.5]. *)
Lemma centred (random : Q) :
  0 <= random <= 1 -> - (1 # 2) <= random [-] JS.num 0.5 <= 1 # 2.
Proof.
  intros [H0 H1]. unfold JS.sub. literals.
  split; rounded.
Qed.


End SeederNoise.

(** C3 (as stated, refuted).  With credit score 300, balance -20, no
    transaction and the draw 0.25 the exact blend is 0.66; the code
    returns the number 0.6599999999999999. *)
Lemma calculateRiskScore_is_not_exact :
  (0 <= 0.25 <= 1)%Q /\
  (SeederSpec.riskScore 300 (-20) 0 ((0.25 - 0.5) * 0.2) == 0.66)%Q /\
  DataSeeder.calculateRiskScore 300 (-20) 0 0.25 = JS.num 0.6599999999999999 /\
  (DataSeeder.calculateRiskScore 300 (-20) 0 0.25 < 0.66)%Q /\
  ~ (DataSeeder.calculateRiskScore 300 (-20) 0 0.25
     == SeederSpec.riskScore 300 (-20) 0 ((0.25 - 0.5) * 0.2))%Q.
Proof.
  split; [split; lra|].
  split; [closed|]. split; [closed|]. split; [closed|].
  vm_compute. discriminate.
Qed.






Section SeederValue.

Import Binary64.
Open Scope Q_scope.
Open Scope js_scope.

(** [2 + Math.random() * 3] lies in [2, 5]. *)
Lemma factor_range (random : Q) :
  0 <= random <= 1 -> 2 <= 2 [+] random [*] 3 <= 5.
Proof.
  intros [H0 H1].
  assert (M : 0 <= random [*] 3 <= 3).
  { unfold JS.mul.
    split; rounded. }
  unfold JS.add.
  split; rounded.
Qed.

Lemma calculateCLV_nonneg (balance income accountAge random : Q) :
  0 <= balance -> 0 <= income -> 0 <= accountAge -> 0 <= random <= 1 ->
  0 <= DataSeeder.calculateCLV balance income accountAge random.
Proof.
  intros Hb Hi Ha Hr. unfold DataSeeder.calculateCLV. apply floor_nonneg.
  pose proof (factor_range random Hr) as [F _].
  assert (N1 : 0 <= JS.num 0.001) by closed.
  assert (N2 : 0 <= JS.num 0.0001) by closed.
  apply mul_nonneg; [|lra].
  apply mul_nonneg.
  - apply mul_nonneg; [|lra].
    apply add_nonneg; apply mul_nonneg; assumption.
  - unfold JS.min. apply Q.min_glb; [lra|].
    apply div_nonneg_pos; lra.
Qed.

End SeederValue.

(** C5 (as stated, refuted).  With balance 100, income 60000, account age
    30 and the draw 0 the factor is 2 and the exact product is 366; in the
    arithmetic of the language the product is 365.99999999999994, and the
    code returns 365. *)
Lemma calculateCLV_is_not_exact :
  (0 <= 0 <= 1)%Q /\
  (2 + 0 * 3 == 2)%Q /\
  (SeederSpec.clv 100 60000 30 2 == 366)%Q /\
  DataSeeder.calculateCLV 100 60000 30 0 = 365%Q /\
  ~ (DataSeeder.calculateCLV 100 60000 30 0
     == inject_Z (Qfloor (SeederSpec.clv 100 60000 30 2)))%Q.
Proof.
  split; [split; lra|]. split; [reflexivity|].
  split; [closed|]. split; [closed|].
  vm_compute. discriminate.
Qed.



Example calculateCLV_sample : DataSeeder.calculateCLV 2500 60000 30 0.5 = 892%Q.
Proof. closed. Qed.

(** ** The batch splitter *)

Section ChunkArray.

Variable T : Type.

Lemma firstn_add_skipn (l : list T) (i c : nat) :
  firstn (i + c) l = firstn i l ++ firstn c (skipn i l).
Proof.
  revert l. induction i as [|i IH]; intros l; simpl.
  - reflexivity.
  - destruct l as [|x l]; simpl.
    + now rewrite firstn_nil.
    + now rewrite IH.
Qed.

Lemma slice_from (l : list T) (i c : nat) :
  JS.slice l i (i + c) = firstn c (skipn i l).
Proof. unfold JS.slice. f_equal. lia. Qed.

(** The loop invariant: the chunks pushed so far are the first [i]
    elements, cut in pieces of at most [chunkSize]. *)
Lemma chunkLoop_spec (array : list T) (chunkSize : nat) :
  (0 < chunkSize)%nat ->
  forall fuel i chunks,
    (List.length array - i <= fuel)%nat ->
    concat chunks = firstn i array ->
    Forall (fun c => (List.length c <= chunkSize)%nat) chunks ->
    exists chunks',
      DataSeeder.chunkLoop fuel array chunkSize i chunks = Some chunks' /\
      concat chunks' = array /\
      Forall (fun c => (List.length c <= chunkSize)%nat) chunks'.
Proof.
  intros Hpos. induction fuel as [|fuel IH]; intros i chunks Hfuel Hcat Hlen;
    simpl; destruct (Nat.ltb_spec i (List.length array)) as [Hi|Hi];
    try lia.
  - exists chunks. repeat split; trivial.
    rewrite Hcat. apply firstn_all2. exact Hi.
  - apply IH.
    + lia.
    + rewrite concat_app, Hcat, slice_from. simpl. rewrite app_nil_r.
      symmetry. apply firstn_add_skipn.
    + apply Forall_app. split; [exact Hlen|].
      constructor; [|constructor].
      rewrite slice_from. apply firstn_le_length.
  - exists chunks. repeat split; trivial.
    rewrite Hcat. apply firstn_all2. exact Hi.
Qed.

End ChunkArray.

(** C10.  For every array and every chunk size greater than zero,
    [chunkArray] returns; the chunks it returns, concatenated in order, are
    the original array, and each of them has at most [chunkSize]
    elements. *)
Theorem chunkArray_concat (T : Type) (array : list T) (chunkSize : nat) :
  (0 < chunkSize)%nat ->
  exists chunks,
    DataSeeder.chunkArray array chunkSize = Some chunks /\
    concat chunks = array /\
    Forall (fun c => (List.length c <= chunkSize)%nat) chunks.
Proof.
  intros Hpos. unfold DataSeeder.chunkArray.
  apply chunkLoop_spec; [exact Hpos | lia | reflexivity | constructor].
Qed.

Lemma chunkArray_concat_witness :
  exists chunks,
    DataSeeder.chunkArray [1; 2; 3; 4; 5; 6; 7]%nat 3 = Some chunks /\
    concat chunks = [1; 2; 3; 4; 5; 6; 7]%nat /\
    Forall (fun c => (List.length c <= 3)%nat) chunks.
Proof.
  apply (@chunkArray_concat nat [1; 2; 3; 4; 5; 6; 7]%nat 3). lia.
Defined.

Example chunkArray_sample :
  DataSeeder.chunkArray [1; 2; 3; 4; 5; 6; 7]%nat 3
  = Some [[1; 2; 3]; [4; 5; 6]; [7]]%nat.
Proof. reflexivity. Qed.

(** With a chunk size of zero the counter never advances: the loop is
    still running when the fuel is spent. *)
Example chunkArray_zero_diverges :
  DataSeeder.chunkArray [1; 2]%nat 0 = None.
Proof. reflexivity. Qed.

(** ** Running programs *)

Section Run.

Import Effects.

Variable World : Type.
Variable h : handler World.

(** A run, read through its three projections. *)
Lemma run_Vis A X (ev : Eff X) (k : X -> Prog A) (w : World) :
  run h (Vis ev k) w =
  let o := run h (k (fst (h _ ev w))) (snd (h _ ev w)) in
  mkOutcome (result o) (world o) (observe ev (fst (h _ ev w)) :: trace o).
Proof.
  simpl. destruct (h _ ev w) as [x w']. simpl.
  now destruct (run h (k x) w').
Qed.

Lemma run_bind A B (p : Prog A) (f : A -> Prog B) (w : World) :
  run h (bind p f) w =
  let o := run h p w in
  match result o with
  | inl e => mkOutcome (inl e) (world o) (trace o)
  | inr a =>
      let o' := run h (f a) (world o) in
      mkOutcome (result o') (world o') (trace o ++ trace o')
  end.
Proof.
  revert w. induction p as [a|e|X ev k IH]; intros w.
  - simpl. now destruct (run h (f a) w).
  - reflexivity.
  - cbn [bind]. rewrite !run_Vis. cbn zeta. rewrite IH. cbn zeta.
    now destruct (result (run h (k (fst (h _ ev w))) (snd (h _ ev w)))).
Qed.

Lemma run_try_catch A (p : Prog A) (handle : exn -> Prog A) (w : World) :
  run h (try_catch p handle) w =
  let o := run h p w in
  match result o with
  | inr a => mkOutcome (inr a) (world o) (trace o)
  | inl e =>
      let o' := run h (handle e) (world o) in
      mkOutcome (result o') (world o') (trace o ++ trace o')
  end.
Proof.
  revert w. induction p as [a|e|X ev k IH]; intros w.
  - reflexivity.
  - simpl. now destruct (run h (handle e) w).
  - cbn [try_catch]. rewrite !run_Vis. cbn zeta. rewrite IH. cbn zeta.
    now destruct (result (run h (k (fst (h _ ev w))) (snd (h _ ev w)))).
Qed.

Lemma run_try_finally A (p : Prog A) (final : Prog unit) (w : World) :
  run h (try_finally p final) w =
  let o := run h p w in
  let o' := run h final (world o) in
  mkOutcome
    (match result o' with inl e => inl e | inr _ => result o end)
    (world o') (trace o ++ trace o').
Proof.
  revert w. induction p as [a|e|X ev k IH]; intros w.
  - cbn [try_finally]. rewrite run_bind. simpl.
    destruct (result (run h final w)); simpl; now rewrite ?app_nil_r.
  - cbn [try_finally]. rewrite run_bind. simpl.
    destruct (result (run h final w)); simpl; now rewrite ?app_nil_r.
  - cbn [try_finally]. rewrite !run_Vis. cbn zeta. rewrite IH. reflexivity.
Qed.

End Run.

(** ** Sorting by a key, largest first *)

Section SortByKey.

Open Scope Q_scope.

Variable A : Type.
Variable key : A -> Q.


Lemma cmp_follows (x y : A) : JS.gtb (byKey key x y) 0 = true <-> key x < key y.
Proof.
  unfold JS.gtb, byKey. rewrite ltb_lt. split; intros H; lra.
Qed.

Lemma insert_perm (x : A) (l : list A) :
  Permutation (MLEngine.insert (byKey key) x l) (x :: l).
Proof.
  induction l as [|y l IH]; simpl.
  - apply Permutation_refl.
  - destruct (JS.gtb (byKey key x y) 0).
    + rewrite IH. apply perm_swap.
    + apply Permutation_refl.
Qed.

Lemma sort_perm (l : list A) : Permutation (MLEngine.sort (byKey key) l) l.
Proof.
  induction l as [|x l IH]; simpl.
  - constructor.
  - rewrite insert_perm. now constructor.
Qed.

Lemma insert_sorted (x : A) (l : list A) :
  StronglySorted (before key) l -> StronglySorted (before key) (MLEngine.insert (byKey key) x l).
Proof.
  induction 1 as [|y l Hs IH Hy]; simpl.
  - repeat constructor.
  - destruct (JS.gtb (byKey key x y) 0) eqn:E.
    + apply cmp_follows in E. constructor; [exact IH|].
      apply (Permutation_Forall (Permutation_sym (insert_perm x l))).
      constructor; [|exact Hy]. unfold before. lra.
    + assert (Hxy : (before key) x y).
      { unfold before. apply Qnot_lt_le. intros Hlt.
        apply cmp_follows in Hlt. congruence. }
      constructor; [now constructor|].
      constructor; [exact Hxy|].
      eapply Forall_impl; [|exact Hy].
      unfold before in *. intros a Ha. lra.
Qed.

Lemma sort_sorted (l : list A) : StronglySorted (before key) (MLEngine.sort (byKey key) l).
Proof.
  induction l as [|x l IH]; simpl.
  - constructor.
  - now apply insert_sorted.
Qed.

(** Stability: an element is inserted in front of those of its own key. *)
Lemma insert_stable (k : Q) (x : A) (l : list A) :
  filter (keyed key k) (MLEngine.insert (byKey key) x l) = filter (keyed key k) (x :: l).
Proof.
  induction l as [|y l IH]; [reflexivity|].
  cbn [MLEngine.insert]. destruct (JS.gtb (byKey key x y) 0) eqn:E; [|reflexivity].
  apply cmp_follows in E.
  cbn [filter] in *. rewrite IH.
  destruct (keyed key k x) eqn:Ex; [|reflexivity].
  destruct (keyed key k y) eqn:Ey; [|reflexivity].
  unfold keyed in Ex, Ey. apply Qeq_bool_iff in Ex, Ey. lra.
Qed.

Lemma sort_stable (k : Q) (l : list A) :
  filter (keyed key k) (MLEngine.sort (byKey key) l) = filter (keyed key k) l.
Proof.
  induction l as [|x l IH]; [reflexivity|].
  cbn [MLEngine.sort]. rewrite insert_stable. cbn [filter]. now rewrite IH.
Qed.

(** In a sorted list every element of a prefix may stand (before key) every
    element of the rest. *)
Lemma sorted_app (l1 l2 : list A) :
  StronglySorted (before key) (l1 ++ l2) ->
  forall a b, In a l1 -> In b l2 -> (before key) a b.
Proof.
  induction l1 as [|x l1 IH]; simpl; intros Hs a b Ha Hb; [contradiction|].
  inversion Hs as [|? ? Hs' Hx]; subst.
  destruct Ha as [<-|Ha].
  - rewrite Forall_forall in Hx. apply Hx, in_or_app. now right.
  - now apply IH.
Qed.

End SortByKey.

(** ** The fallback segmentation *)

Lemma highValueCount_nat (customers : list CustomerData.t) :
  Z.to_nat (Qfloor (MLEngine.highValueCount customers))
  = ((List.length customers + 4) / 5)%nat.
Proof.
  unfold MLEngine.highValueCount, JS.ceil, JS.length.
  rewrite Qfloor_Z. unfold Qceiling, Qfloor. cbn -[Nat.div Z.div].
  apply Nat2Z.inj. rewrite Nat2Z.inj_div, Nat2Z.inj_add.
  assert (H0 : (0 <= Z.of_nat (List.length customers))%Z) by lia.
  generalize dependent (Z.of_nat (List.length customers)). intros n Hn.
  assert (H : (- (- (n * 2) / 10) = (n + 4) / 5)%Z).
  { Z.to_euclidean_division_equations. lia. }
  rewrite Z2Nat.id; [exact H|].
  rewrite H. apply Z.div_pos; lia.
Qed.

Lemma highValueCustomers_firstn (customers : list CustomerData.t) :
  MLEngine.highValueCustomers customers
  = firstn ((List.length customers + 4) / 5)
      (MLEngine.sort (byKey CustomerData.accountBalance) customers).
Proof.
  unfold MLEngine.highValueCustomers, JS.slice, MLEngine.sortedByBalance.
  rewrite highValueCount_nat, Nat.sub_0_r. reflexivity.
Qed.

Section Fallback.

Import Effects.

Variable World : Type.
Variable h : handler World.

(** The shape of every result: the high-value segment, then the other two,
    each present exactly when its group is not empty. *)
Lemma fallbackSegmentation_run (w : World) (customers : list CustomerData.t) :
  exists hv yp hr,
    result (run h (MLEngine.fallbackSegmentation customers) w)
      = inr (hv :: yp ++ hr) /\
    Segments.isSegment "High Value Customers"
      (MLEngine.highValueCustomers customers) hv /\
    Forall (Segments.isSegment "Young Professionals"
              (MLEngine.youngProfessionals customers)) yp /\
    List.length yp
      = (if (0 <? List.length (MLEngine.youngProfessionals customers))%nat
         then 1 else 0)%nat /\
    Forall (Segments.isSegment "High Risk Customers"
              (MLEngine.highRiskCustomers customers)) hr /\
    List.length hr
      = (if (0 <? List.length (MLEngine.highRiskCustomers customers))%nat
         then 1 else 0)%nat.
Proof.
  unfold MLEngine.fallbackSegmentation.
  cbn [bind trigger run app].
  destruct (h _ DateNow w) as [t1 w1].
  destruct (0 <? List.length (MLEngine.youngProfessionals customers))%nat;
    destruct (0 <? List.length (MLEngine.highRiskCustomers customers))%nat;
    cbn [bind trigger run app result];
    repeat match goal with
           | |- context [h _ DateNow ?w] => destruct (h _ DateNow w) as [? ?]
           end;
    cbn [bind trigger run app result].
  - refine (ex_intro _ _ (ex_intro _ [_] (ex_intro _ [_] (conj eq_refl _)))).
    repeat split; repeat constructor.
  - refine (ex_intro _ _ (ex_intro _ [_] (ex_intro _ [] (conj eq_refl _)))).
    repeat split; repeat constructor.
  - refine (ex_intro _ _ (ex_intro _ [] (ex_intro _ [_] (conj eq_refl _)))).
    repeat split; repeat constructor.
  - refine (ex_intro _ _ (ex_intro _ [] (ex_intro _ [] (conj eq_refl _)))).
    repeat split; repeat constructor.
Qed.

End Fallback.

Section ReadingSegments.

Lemma named_isSegment (name name' : string) group s :
  Segments.isSegment name group s -> Segments.named name' s = String.eqb name name'.
Proof. intros (Hn & _). unfold Segments.named. now rewrite Hn. Qed.

Lemma segmentsNamed_all (name name' : string) group l :
  Forall (Segments.isSegment name group) l ->
  Segments.segmentsNamed name' l = if String.eqb name name' then l else [].
Proof.
  unfold Segments.segmentsNamed.
  induction 1 as [|s l Hs _ IH]; simpl.
  - now destruct (String.eqb name name').
  - rewrite (named_isSegment _ name' _ _ Hs), IH.
    now destruct (String.eqb name name').
Qed.

(** The members of a group's segments, when there is one segment for a
    non-empty group and none otherwise. *)
Lemma flat_map_group (name : string) group l :
  Forall (Segments.isSegment name group) l ->
  List.length l = (if (0 <? List.length group)%nat then 1 else 0)%nat ->
  flat_map SegmentationResult.customers l = map CustomerData.id group.
Proof.
  intros Hall Hlen. destruct group as [|c group]; simpl in Hlen.
  - now destruct l.
  - destruct l as [|s [|s' l]]; try discriminate.
    inversion Hall as [|? ? (_ & Hc & _) _]; subst.
    simpl. now rewrite app_nil_r.
Qed.

End ReadingSegments.

Section FallbackSegments.

Import Effects.

Variable World : Type.
Variable h : handler World.

Lemma fallbackSegmentation_segments (w : World) (customers : list CustomerData.t) :
  exists segs hv yp hr,
    result (run h (MLEngine.fallbackSegmentation customers) w) = inr segs /\
    Segments.isSegment "High Value Customers"
      (MLEngine.highValueCustomers customers) hv /\
    Segments.segmentsNamed "High Value Customers" segs = [hv] /\
    Segments.segmentsNamed "Young Professionals" segs = yp /\
    Segments.segmentsNamed "High Risk Customers" segs = hr /\
    Forall (Segments.isSegment "Young Professionals"
              (MLEngine.youngProfessionals customers)) yp /\
    List.length yp
      = (if (0 <? List.length (MLEngine.youngProfessionals customers))%nat
         then 1 else 0)%nat /\
    Forall (Segments.isSegment "High Risk Customers"
              (MLEngine.highRiskCustomers customers)) hr /\
    List.length hr
      = (if (0 <? List.length (MLEngine.highRiskCustomers customers))%nat
         then 1 else 0)%nat.
Proof.
  destruct (fallbackSegmentation_run World h w customers)
    as (hv & yp & hr & Hrun & Hhv & Hyp & Hlyp & Hhr & Hlhr).
  exists (hv :: yp ++ hr), hv, yp, hr.
  assert (Hsplit : forall name,
             Segments.segmentsNamed name (hv :: yp ++ hr)
             = Segments.segmentsNamed name [hv]
               ++ Segments.segmentsNamed name yp
               ++ Segments.segmentsNamed name hr).
  { intros name. unfold Segments.segmentsNamed.
    change (hv :: yp ++ hr) with ([hv] ++ yp ++ hr).
    now rewrite !filter_app. }
  assert (Hone : Forall (Segments.isSegment "High Value Customers"
                           (MLEngine.highValueCustomers customers)) [hv])
    by now constructor.
  assert (Hnamed : forall name,
             Segments.segmentsNamed name (hv :: yp ++ hr)
             = (if String.eqb "High Value Customers" name then [hv] else [])
               ++ (if String.eqb "Young Professionals" name then yp else [])
               ++ (if String.eqb "High Risk Customers" name then hr else [])).
  { intros name.
    now rewrite Hsplit,
      (segmentsNamed_all _ _ _ _ Hone),
      (segmentsNamed_all _ _ _ _ Hyp),
      (segmentsNamed_all _ _ _ _ Hhr). }
  split; [exact Hrun|].
  split; [exact Hhv|].
  split; [rewrite Hnamed; cbn; now rewrite ?app_nil_r|].
  split; [rewrite Hnamed; cbn; now rewrite ?app_nil_r|].
  split; [rewrite Hnamed; now cbn|].
  repeat split; trivial.
Qed.

End FallbackSegments.

(** C1.  In every run of the fallback segmentation over [n] customers the
    high-value segment has exactly ceil(0.2 x n) members, and they are the
    leading ceil(0.2 x n) entries of the customers arranged by descending
    balance with equal balances kept in their original order: together
    with the other customers they form a permutation of the input that is
    sorted by descending balance and in which the customers of any one
    balance appear as in the input; no member has a smaller balance than a
    customer left out. *)
Theorem highValue_top_fifth (World : Type) (h : Effects.handler World) (w : World)
    (customers : list CustomerData.t) :
  exists segs hv rest,
    Effects.result (Effects.run h (MLEngine.fallbackSegmentation customers) w)
      = inr segs /\
    Segments.members "High Value Customers" segs = map CustomerData.id hv /\
    JS.length hv = JS.ceil (JS.length customers * 0.2) /\
    Permutation (hv ++ rest) customers /\
    StronglySorted (before CustomerData.accountBalance) (hv ++ rest) /\
    (forall balance,
        filter (keyed CustomerData.accountBalance balance) (hv ++ rest)
        = filter (keyed CustomerData.accountBalance balance) customers) /\
    (forall a b, In a hv -> In b rest ->
                 (CustomerData.accountBalance b <= CustomerData.accountBalance a)%Q).
Proof.
  destruct (fallbackSegmentation_segments World h w customers)
    as (segs & hv & yp & hr & Hrun & (_ & Hhv & _) & Hnhv & _).
  set (k := ((List.length customers + 4) / 5)%nat).
  set (sorted := MLEngine.sort (byKey CustomerData.accountBalance) customers).
  assert (Htop : MLEngine.highValueCustomers customers = firstn k sorted)
    by apply highValueCustomers_firstn.
  exists segs, (firstn k sorted), (skipn k sorted).
  rewrite firstn_skipn.
  split; [exact Hrun|].
  split; [unfold Segments.members; rewrite Hnhv; simpl;
          now rewrite app_nil_r, Hhv, Htop|].
  split.
  { unfold JS.length at 1. rewrite length_firstn.
    replace (List.length sorted) with (List.length customers)
      by (symmetry; apply Permutation_length, sort_perm).
    assert (Hk : (k <= List.length customers)%nat).
    { unfold k. destruct (List.length customers) as [|n]; [reflexivity|].
      apply Nat.Div0.div_le_upper_bound. lia. }
    rewrite Nat.min_l by exact Hk.
    unfold k. rewrite <- highValueCount_nat.
    unfold MLEngine.highValueCount, JS.ceil. rewrite Qfloor_Z.
    rewrite Z2Nat.id; [reflexivity|].
    change 0%Z with (Qceiling 0). apply Qceiling_resp_le.
    unfold JS.length. apply Qmult_le_0_compat; [|lra].
    change 0%Q with (inject_Z 0). rewrite <- Zle_Qle. lia. }
  split; [apply sort_perm|].
  split; [apply sort_sorted|].
  split; [intros balance; apply sort_stable|].
  intros a b Ha Hb.
  apply (sorted_app _ CustomerData.accountBalance (firstn k sorted) (skipn k sorted));
    trivial.
  rewrite firstn_skipn. apply sort_sorted.
Qed.

(** Six customers, three of them with the top balance 900: the segment
    takes ceil(1.2) = 2 of them, the two that come first in the input. *)
Example highValue_six :
  exists segs,
    Effects.result (Effects.run Sample.aiDown
                      (MLEngine.fallbackSegmentation Sample.six) tt) = inr segs /\
    Segments.members "High Value Customers" segs = ["b"; "c"]%string /\
    Segments.members "Young Professionals" segs = ["a"; "c"; "e"]%string /\
    Segments.members "High Risk Customers" segs = ["b"; "c"]%string.
Proof. eexists. split; [vm_compute; reflexivity|]. now vm_compute. Qed.

(** C2 (as stated, refuted).  A customer with an account age of 12 months
    and an income of exactly 40,000 meets the bounds of the specification,
    and the fallback segmentation puts it in no young-professionals
    segment. *)
Lemma youngProfessionals_excludes_40000 :
  (CustomerData.accountAge Sample.atThreshold < 36)%Q /\
  (40000 <= CustomerData.annualIncome Sample.atThreshold)%Q /\
  (CustomerData.annualIncome Sample.atThreshold < 100000)%Q /\
  exists segs,
    Effects.result (Effects.run Sample.aiDown
                      (MLEngine.fallbackSegmentation [Sample.atThreshold]) tt)
      = inr segs /\
    Segments.members "Young Professionals" segs = [].
Proof.
  split; [|split; [|split]]; try (vm_compute; congruence).
  eexists. split; [vm_compute; reflexivity|]. now vm_compute.
Qed.

(** C2 (amended).  In every run of the fallback segmentation the members
    of the young-professionals segment are, in input order, exactly the
    input customers whose account age is less than 36 months and whose
    income satisfies 40,000 < income < 100,000. *)
Theorem youngProfessionals_members (World : Type) (h : Effects.handler World)
    (w : World) (customers : list CustomerData.t) :
  exists segs,
    Effects.result (Effects.run h (MLEngine.fallbackSegmentation customers) w)
      = inr segs /\
    Segments.members "Young Professionals" segs
      = map CustomerData.id (MLEngine.youngProfessionals customers) /\
    forall c,
      In c (MLEngine.youngProfessionals customers) <->
      In c customers /\
      (CustomerData.accountAge c < 36)%Q /\
      (40000 < CustomerData.annualIncome c)%Q /\
      (CustomerData.annualIncome c < 100000)%Q.
Proof.
  destruct (fallbackSegmentation_segments World h w customers)
    as (segs & hv & yp & hr & Hrun & _ & _ & Hnyp & _ & Hyp & Hlyp & _).
  exists segs. split; [exact Hrun|]. split.
  - unfold Segments.members. rewrite Hnyp.
    now apply (flat_map_group "Young Professionals").
  - intros c. unfold MLEngine.youngProfessionals.
    rewrite filter_In, !andb_true_iff. unfold JS.gtb. rewrite !ltb_lt. tauto.
Qed.

(** C6.  [performCustomerSegmentation] of the empty list is the program
    that returns the empty list at once: run in any environment it makes
    no request (so no AI call) and leaves the world as it was. *)
Theorem performCustomerSegmentation_empty :
  MLEngine.performCustomerSegmentation [] = Effects.Ret [] /\
  forall (World : Type) (h : Effects.handler World) (w : World),
    Effects.run h (MLEngine.performCustomerSegmentation []) w
    = Effects.mkOutcome (inr []) w [].
Proof. split; reflexivity. Qed.

(** C7.  In every run of the fallback segmentation the result has no
    young-professionals segment when no customer qualifies for it, no
    high-risk segment when no customer qualifies for it (and one of each
    otherwise), and, whenever the input is not empty, exactly one
    high-value segment, which has a member. *)
Theorem fallback_omits_empty_segments (World : Type) (h : Effects.handler World)
    (w : World) (customers : list CustomerData.t) :
  exists segs,
    Effects.result (Effects.run h (MLEngine.fallbackSegmentation customers) w)
      = inr segs /\
    (MLEngine.youngProfessionals customers = [] ->
     Segments.segmentsNamed "Young Professionals" segs = []) /\
    (MLEngine.highRiskCustomers customers = [] ->
     Segments.segmentsNamed "High Risk Customers" segs = []) /\
    (MLEngine.youngProfessionals customers <> [] ->
     List.length (Segments.segmentsNamed "Young Professionals" segs) = 1%nat) /\
    (MLEngine.highRiskCustomers customers <> [] ->
     List.length (Segments.segmentsNamed "High Risk Customers" segs) = 1%nat) /\
    (customers <> [] ->
     exists hv, Segments.segmentsNamed "High Value Customers" segs = [hv] /\
                SegmentationResult.customers hv <> []).
Proof.
  destruct (fallbackSegmentation_segments World h w customers)
    as (segs & hv & yp & hr & Hrun & (_ & Hhv & _) & Hnhv & Hnyp & Hnhr
        & _ & Hlyp & _ & Hlhr).
  exists segs. split; [exact Hrun|].
  rewrite Hnyp, Hnhr, Hnhv, Hlyp, Hlhr.
  repeat split.
  - intros E. rewrite E in Hlyp. now destruct yp.
  - intros E. rewrite E in Hlhr. now destruct hr.
  - intros E. now destruct (MLEngine.youngProfessionals customers).
  - intros E. now destruct (MLEngine.highRiskCustomers customers).
  - intros E. exists hv. split; [reflexivity|].
    rewrite Hhv, highValueCustomers_firstn.
    pose proof (Permutation_length
                  (sort_perm _ CustomerData.accountBalance customers)) as Hlen.
    destruct customers as [|c customers]; [congruence|].
    destruct (MLEngine.sort (byKey CustomerData.accountBalance) (c :: customers))
      as [|x sorted]; [discriminate|].
    replace ((List.length (c :: customers) + 4) / 5)%nat
      with (S ((List.length customers) / 5)).
    + discriminate.
    + simpl List.length.
      replace (S (List.length customers) + 4)%nat
        with (List.length customers + 1 * 5)%nat by lia.
      rewrite Nat.div_add by lia. lia.
Qed.

Lemma fallback_omits_empty_segments_witness :
  exists segs,
    Effects.result (Effects.run Sample.aiDown
                      (MLEngine.fallbackSegmentation [Sample.atThreshold]) tt)
      = inr segs /\
    Segments.segmentsNamed "Young Professionals" segs = [] /\
    Segments.segmentsNamed "High Risk Customers" segs = [] /\
    exists hv, Segments.segmentsNamed "High Value Customers" segs = [hv] /\
               SegmentationResult.customers hv <> [].
Proof.
  destruct (fallback_omits_empty_segments unit Sample.aiDown tt [Sample.atThreshold])
    as (segs & Hrun & Hyp & Hhr & _ & _ & Hhv).
  exists segs. split; [exact Hrun|].
  split; [apply Hyp; reflexivity|].
  split; [apply Hhr; reflexivity|].
  apply Hhv. discriminate.
Defined.

(** ** When the hosted AI throws *)

Section AIFailure.

Import Effects.

Variable World : Type.
Variable h : handler World.

Lemma try_catch_returns A (p : Prog A) (handle : exn -> Prog A) (w : World) a :
  result (run h p w) = inr a ->
  trace (run h (try_catch p handle) w) = trace (run h p w).
Proof. intros H. rewrite run_try_catch. cbn zeta. now rewrite H. Qed.

Lemma pushSegments_run (segments : list AISegment.t) :
  forall results (w : World),
    let o := run h (MLEngine.pushSegments segments results) w in
    existsb aiThrew (trace o) = false /\ exists r, result o = inr r.
Proof.
  induction segments as [|segment rest IH]; intros results w; cbn [MLEngine.pushSegments].
  - cbn. eauto.
  - cbn [bind trigger run].
    destruct (h _ DateNow w) as [t w1].
    destruct (h _ RandomSuffix w1) as [s w2].
    specialize (IH (results ++ [
      {| SegmentationResult.segmentId := ("seg_" ++ MLEngine.show t ++ "_" ++ s)%string;
         SegmentationResult.segmentName := AISegment.segmentName segment;
         SegmentationResult.customers := AISegment.customerIds segment;
         SegmentationResult.characteristics := AISegment.characteristics segment;
         SegmentationResult.insights := AISegment.insights segment |} ]) w2).
    destruct (run h (MLEngine.pushSegments rest _) w2) as [r w' tr].
    exact IH.
Qed.

Lemma segmentation_falls_back (w : World) customers :
  let o := run h (MLEngine.performCustomerSegmentation customers) w in
  existsb aiThrew (trace o) = true ->
  exists w' segs,
    let f := run h (MLEngine.fallbackSegmentation customers) w' in
    result o = inr segs /\ result f = inr segs /\ world o = world f.
Proof.
  unfold MLEngine.performCustomerSegmentation.
  destruct customers as [|c cs]; [discriminate|].
  cbn [List.length Nat.eqb].
  set (customers := c :: cs).
  cbn [bind await try_catch run MLEngine.console_error trigger].
  destruct (h _ (GenerateObject SegmentsSchema _) w) as [[e|segments] w1].
  - cbn [bind await try_catch run MLEngine.console_error trigger].
    destruct (h _ (ConsoleError _ e) w1) as [[] w2].
    destruct (fallbackSegmentation_run World h w2 customers) as (hv & yp & hr & Hrun & _).
    intros _. exists w2, (hv :: yp ++ hr). cbn zeta.
    destruct (run h (MLEngine.fallbackSegmentation customers) w2) as [r w' tr].
    cbn in *. auto.
  - cbn [bind await try_catch run trace existsb observe aiThrew thrown orb].
    intros H. exfalso.
    destruct segments as [segments|].
    + destruct (pushSegments_run segments [] w1) as (Hquiet & r & Hr).
      pose proof (try_catch_returns _ (MLEngine.pushSegments segments [])
                    (fun error => bind (MLEngine.console_error "Error in AI segmentation:" error)
                                    (fun _ => MLEngine.fallbackSegmentation customers))
                    w1 r Hr) as Htr.
      cbn [bind MLEngine.console_error trigger] in Htr.
      destruct (run h (try_catch _ _) w1) as [r' w' tr].
      cbn in H, Htr. rewrite Htr in H. cbn zeta in Hquiet. congruence.
    + discriminate H.
Qed.

Lemma insights_fall_back (w : World) customerId customerData :
  let o := run h (MLEngine.generateCustomerInsights customerId customerData) w in
  existsb aiThrew (trace o) = true -> result o = inr [].
Proof.
  unfold MLEngine.generateCustomerInsights.
  cbn [bind await try_catch run MLEngine.console_error trigger].
  destruct (h _ (GenerateObject InsightsSchema _) w) as [[e|insights] w1].
  - cbn [bind await try_catch run MLEngine.console_error trigger].
    now destruct (h _ (ConsoleError _ e) w1) as [[] w2].
  - cbn. discriminate.
Qed.

Lemma recommendations_fall_back (w : World) customerData :
  let o := run h (MLEngine.generateProductRecommendations customerData) w in
  existsb aiThrew (trace o) = true -> result o = inr [].
Proof.
  unfold MLEngine.generateProductRecommendations.
  cbn [bind await try_catch run MLEngine.console_error trigger].
  destruct (h _ (GenerateObject RecommendationsSchema _) w) as [[e|recs] w1].
  - cbn [bind await try_catch run MLEngine.console_error trigger].
    now destruct (h _ (ConsoleError _ e) w1) as [[] w2].
  - cbn. discriminate.
Qed.

Lemma risk_falls_back (w : World) customerData transactionHistory :
  let o := run h (MLEngine.assessCustomerRisk customerData transactionHistory) w in
  existsb aiThrew (trace o) = true ->
  result o = inr (MLEngine.thresholdAssessment customerData).
Proof.
  unfold MLEngine.assessCustomerRisk.
  cbn [bind await try_catch run MLEngine.console_error trigger].
  destruct (h _ (GenerateObject RiskSchema _) w) as [[e|object] w1].
  - cbn [bind await try_catch run MLEngine.console_error trigger].
    now destruct (h _ (ConsoleError _ e) w1) as [[] w2].
  - cbn. discriminate.
Qed.

Lemma thresholdAssessment_level (c : CustomerData.t) :
  let a := MLEngine.thresholdAssessment c in
  let score := CustomerData.riskScore c in
  RiskAnalysis.riskScore a = score /\
  ((JS.num 0.7 < score)%Q /\ RiskAnalysis.riskLevel a = "high"%string \/
   (JS.num 0.4 < score <= JS.num 0.7)%Q /\
   RiskAnalysis.riskLevel a = "medium"%string \/
   (score <= JS.num 0.4)%Q /\ RiskAnalysis.riskLevel a = "low"%string).
Proof.
  cbn zeta. split; [reflexivity|].
  unfold MLEngine.thresholdAssessment, JS.gtb. cbn [RiskAnalysis.riskLevel].
  destruct (JS.ltb (JS.num 0.7) _) eqn:E7;
    [left; split; [now apply ltb_lt|reflexivity]|].
  assert (H7 : (CustomerData.riskScore c <= JS.num 0.7)%Q).
  { apply Qnot_lt_le. intros H. apply ltb_lt in H. congruence. }
  destruct (JS.ltb (JS.num 0.4) _) eqn:E4.
  - right; left. apply ltb_lt in E4. auto.
  - right; right. split; [|reflexivity].
    apply Qnot_lt_le. intros H. apply ltb_lt in H. congruence.
Qed.

End AIFailure.

(** ** The batch risk analysis *)

Section Batch.

Import Effects.

Variable World : Type.
Variable h : handler World.

Ltac answer :=
  match goal with
  | |- context [h ?X ?ev ?w] =>
      let r := fresh "r" in
      let w' := fresh "w" in
      destruct (h X ev w) as [r w'];
      match type of r with
      | sum _ _ => destruct r
      | unit => destruct r
      | _ => idtac
      end
  end.

Lemma batchOf_app tr1 tr2 ids1 ids2 :
  RiskAssessmentPage.batchOf tr1 ids1 -> RiskAssessmentPage.batchOf tr2 ids2 -> RiskAssessmentPage.batchOf (tr1 ++ tr2) (ids1 ++ ids2).
Proof.
  unfold RiskAssessmentPage.batchOf, RiskAssessmentPage.started, RiskAssessmentPage.assessed, RiskAssessmentPage.loaded,
    RiskAssessmentPage.signedIn.
  intros (S1 & A1 & I1) (S2 & A2 & I2).
  rewrite !flat_map_app, existsb_app. rewrite S1, S2, A1, A2, I1, I2. auto.
Qed.

Lemma guarded_run (user : User.t) (customer : Customer.t) (w : World) :
  let o := run h (try_catch (RiskAssessmentPage.analyzeCustomer user customer)
                    (fun customerError =>
                       MLEngine.console_error
                         ("Error analyzing customer " ++ Customer.id customer ++ ":")%string
                         customerError)) w in
  result o = inr tt /\ RiskAssessmentPage.batchOf (trace o) [Customer.id customer].
Proof.
  unfold RiskAssessmentPage.analyzeCustomer, MLEngine.assessCustomerRisk,
    MLEngine.console_error, RiskAssessmentPage.batchOf.
  destruct (Customer.lastTransactionDate customer);
    cbn [bind await try_catch run trigger];
    repeat (answer; cbn [bind await try_catch run trigger]);
    repeat match goal with u : unit |- _ => destruct u end;
    cbn; repeat split.
Qed.

Lemma forEach_run (user : User.t) (l : list Customer.t) :
  forall w : World,
    let o := run h (forEach l
                      (fun customer =>
                         try_catch (RiskAssessmentPage.analyzeCustomer user customer)
                           (fun customerError =>
                              MLEngine.console_error
                                ("Error analyzing customer " ++ Customer.id customer ++ ":")%string
                                customerError))) w in
    result o = inr tt /\ RiskAssessmentPage.batchOf (trace o) (map Customer.id l).
Proof.
  induction l as [|c l IH]; intros w; cbn [forEach].
  - cbn. unfold RiskAssessmentPage.batchOf. auto.
  - rewrite run_bind. cbn zeta.
    destruct (guarded_run user c w) as (Hr & Hb). cbn zeta in Hr, Hb.
    rewrite Hr. cbn [result trace].
    match goal with
    | |- context [run h (forEach l _) ?w'] => destruct (IH w') as (Hr' & Hb')
    end.
    cbn zeta in Hr', Hb'. split; [exact Hr'|].
    exact (batchOf_app _ _ [Customer.id c] _ Hb Hb').
Qed.

Lemma runRiskAnalysis_trace (customers : list Customer.t) (w : World) :
  let tr := trace (run h (RiskAssessmentPage.runRiskAnalysis customers) w) in
  RiskAssessmentPage.started tr
    = match fst (h _ AuthMe (snd (h _ (SetAnalyzing true) w))) with
      | inr _ =>
          map Customer.id (firstn 20 (filter RiskAssessmentPage.isHighRisk customers))
      | inl _ => []
      end /\
  RiskAssessmentPage.assessed tr = RiskAssessmentPage.loaded tr.
Proof.
  unfold RiskAssessmentPage.runRiskAnalysis.
  cbn [bind try_catch try_finally trigger await run MLEngine.console_error].
  destruct (h _ (SetAnalyzing true) w) as [[] w1]. cbn [snd].
  destruct (h _ AuthMe w1) as [[e|user] w2]; cbn [fst].
  - cbn [bind try_catch try_finally trigger await run MLEngine.console_error].
    repeat (answer; cbn [bind try_catch try_finally trigger await run]).
    cbn. auto.
  - cbn [bind try_catch try_finally trigger await run MLEngine.console_error].
    match goal with
    | |- context [run h ?P w2] =>
        assert (Hin : result (run h P w2) = result (run h P w2) /\
                      RiskAssessmentPage.batchOf (trace (run h P w2))
                        (map Customer.id
                           (firstn 20 (filter RiskAssessmentPage.isHighRisk customers))));
        [|destruct (run h P w2) as [r w' tr]]
    end.
    + split; [reflexivity|].
      rewrite run_try_finally. cbn zeta. rewrite run_try_catch. cbn zeta.
      rewrite run_bind. cbn zeta.
      destruct (forEach_run user
                  (JS.slice (filter RiskAssessmentPage.isHighRisk customers) 0 20) w2)
        as (Hr & Hb).
      cbn zeta in Hr, Hb. rewrite Hr.
      cbn [result world trace run trigger].
      repeat (answer; cbn [result world trace run trigger]).
      rewrite <- (app_nil_r (map Customer.id _)).
      apply batchOf_app; [|cbn; unfold RiskAssessmentPage.batchOf; auto].
      rewrite <- (app_nil_r (map Customer.id _)).
      apply batchOf_app; [exact Hb|cbn; unfold RiskAssessmentPage.batchOf; auto].
    + destruct Hin as (_ & S & A & I). cbn [trace] in *.
      unfold RiskAssessmentPage.started, RiskAssessmentPage.assessed, RiskAssessmentPage.loaded,
        RiskAssessmentPage.signedIn in *.
      cbn [flat_map existsb observe thrown app orb].
      rewrite S, A. auto.
Qed.

(** Where every [transactions.list] resolves, every customer whose
    assessment is started has its transactions loaded, whatever the
    program. *)
Lemma run_loaded A (p : Prog A) :
  (forall customerId limit (w : World),
      exists l, fst (h _ (TransactionsList customerId limit) w) = inr l) ->
  forall w : World,
    RiskAssessmentPage.loaded (trace (run h p w))
    = RiskAssessmentPage.started (trace (run h p w)).
Proof.
  intros Hlist. induction p as [a|e|X ev k IH]; intros w; [reflexivity|reflexivity|].
  rewrite run_Vis. cbn zeta. cbn [trace].
  unfold RiskAssessmentPage.loaded, RiskAssessmentPage.started in *.
  cbn [flat_map]. rewrite IH.
  destruct ev; try reflexivity.
  cbn [observe]. destruct (Hlist customerId limit w) as (l & ->). reflexivity.
Qed.

End Batch.

Lemma loaded_le_started (tr : list Effects.Obs) :
  (List.length (RiskAssessmentPage.loaded tr)
   <= List.length (RiskAssessmentPage.started tr))%nat.
Proof.
  induction tr as [|o tr IH]; [reflexivity|].
  unfold RiskAssessmentPage.loaded, RiskAssessmentPage.started in *.
  cbn [flat_map]. rewrite !length_app.
  destruct o as [| | | | | |customerId [e|]| | |]; simpl; lia.
Qed.

(** C8.  In every environment, an AI-backed operation whose call to the
    hosted AI threw returns normally with its fallback:
    [performCustomerSegmentation] with the result of the fallback
    segmentation of the same customers, [generateCustomerInsights] and
    [generateProductRecommendations] with the empty list, and
    [assessCustomerRisk] with the customer's own risk score, the level
    "high" above 0.7, "medium" above 0.4 and "low" otherwise (0.7 and 0.4
    being the numbers of the language: a score that is the number 0.4 is
    "low"), and the fixed factor and recommendation. *)
Theorem ai_failure_falls_back (World : Type) (h : Effects.handler World) (w : World) :
  (forall customers,
      let o := Effects.run h (MLEngine.performCustomerSegmentation customers) w in
      existsb Effects.aiThrew (Effects.trace o) = true ->
      exists w' segs,
        let f := Effects.run h (MLEngine.fallbackSegmentation customers) w' in
        Effects.result o = inr segs /\
        Effects.result f = inr segs /\
        Effects.world o = Effects.world f) /\
  (forall customerId customerData,
      let o := Effects.run h
                 (MLEngine.generateCustomerInsights customerId customerData) w in
      existsb Effects.aiThrew (Effects.trace o) = true ->
      Effects.result o = inr []) /\
  (forall customerData,
      let o := Effects.run h
                 (MLEngine.generateProductRecommendations customerData) w in
      existsb Effects.aiThrew (Effects.trace o) = true ->
      Effects.result o = inr []) /\
  (forall customerData transactionHistory,
      let o := Effects.run h
                 (MLEngine.assessCustomerRisk customerData transactionHistory) w in
      let score := CustomerData.riskScore customerData in
      existsb Effects.aiThrew (Effects.trace o) = true ->
      exists a,
        Effects.result o = inr a /\
        RiskAnalysis.riskScore a = score /\
        ((JS.num 0.7 < score)%Q /\ RiskAnalysis.riskLevel a = "high"%string \/
         (JS.num 0.4 < score <= JS.num 0.7)%Q /\
         RiskAnalysis.riskLevel a = "medium"%string \/
         (score <= JS.num 0.4)%Q /\ RiskAnalysis.riskLevel a = "low"%string) /\
        RiskAnalysis.factors a = ["Unable to assess risk factors"%string] /\
        RiskAnalysis.recommendations a = ["Manual review recommended"%string]).
Proof.
  split; [|split; [|split]].
  - intros customers. apply segmentation_falls_back.
  - intros customerId customerData. apply insights_fall_back.
  - intros customerData. apply recommendations_fall_back.
  - intros customerData transactionHistory o score Hthrew.
    exists (MLEngine.thresholdAssessment customerData).
    split; [now apply risk_falls_back|].
    destruct (thresholdAssessment_level customerData) as (Hs & Hl).
    repeat split; trivial.
Qed.

Lemma ai_failure_falls_back_witness :
  (exists w' segs,
      Effects.result (Effects.run Sample.aiDown
                        (MLEngine.performCustomerSegmentation Sample.six) tt)
        = inr segs /\
      Effects.result (Effects.run Sample.aiDown
                        (MLEngine.fallbackSegmentation Sample.six) w') = inr segs /\
      Segments.members "High Value Customers" segs = ["b"; "c"]%string) /\
  Effects.result (Effects.run Sample.aiDown
                    (MLEngine.generateCustomerInsights "c1" Sample.atThreshold) tt)
    = inr [] /\
  Effects.result (Effects.run Sample.aiDown
                    (MLEngine.generateProductRecommendations Sample.atThreshold) tt)
    = inr [] /\
  (exists a,
      Effects.result (Effects.run Sample.aiDown
                        (MLEngine.assessCustomerRisk Sample.atThreshold []) tt)
        = inr a /\
      RiskAnalysis.riskScore a = 0.2%Q /\ RiskAnalysis.riskLevel a = "low"%string).
Proof.
  destruct (ai_failure_falls_back unit Sample.aiDown tt) as (Hseg & Hins & Hrec & Hrisk).
  split; [|split; [|split]].
  - destruct (Hseg Sample.six eq_refl) as (w' & segs & Ho & Hf & _).
    exists w', segs. split; [exact Ho|]. split; [exact Hf|].
    vm_compute in Ho. injection Ho as <-. reflexivity.
  - apply Hins. reflexivity.
  - apply Hrec. reflexivity.
  - destruct (Hrisk Sample.atThreshold [] eq_refl) as (a & Ha & Hs & _).
    exists a. split; [exact Ha|]. split; [exact Hs|].
    vm_compute in Ha. injection Ha as <-. reflexivity.
Defined.

(** C9.  In every environment one run of [runRiskAnalysis] starts the
    per-customer assessment for exactly the first 20 customers that pass
    the high-risk filter, in their order, when [blink.auth.me()] resolves
    (for none when it rejects), and calls the ML engine's assessment for
    those of them whose transactions were loaded: for all of them when
    every [transactions.list] resolves, and never for more than 20, however
    many customers pass the filter. *)
Theorem runRiskAnalysis_batch_cap (World : Type) (h : Effects.handler World)
    (w : World) (customers : list Customer.t) :
  let tr := Effects.trace (Effects.run h (RiskAssessmentPage.runRiskAnalysis customers) w) in
  let highRiskCustomers := filter RiskAssessmentPage.isHighRisk customers in
  let signIn :=
    fst (h _ Effects.AuthMe (snd (h _ (Effects.SetAnalyzing true) w))) in
  RiskAssessmentPage.started tr
    = match signIn with
      | inr _ => map Customer.id (firstn 20 highRiskCustomers)
      | inl _ => []
      end /\
  RiskAssessmentPage.assessed tr = RiskAssessmentPage.loaded tr /\
  ((forall customerId limit (w' : World),
       exists l, fst (h _ (Effects.TransactionsList customerId limit) w') = inr l) ->
   RiskAssessmentPage.assessed tr = RiskAssessmentPage.started tr) /\
  List.length (firstn 20 highRiskCustomers)
    = Nat.min 20 (List.length highRiskCustomers) /\
  (List.length (RiskAssessmentPage.assessed tr)
   <= List.length (RiskAssessmentPage.started tr) <= 20)%nat.
Proof.
  intros tr highRiskCustomers signIn.
  destruct (runRiskAnalysis_trace World h customers w) as (Hs & Ha).
  fold tr in Hs, Ha. fold highRiskCustomers in Hs. fold signIn in Hs.
  split; [exact Hs|]. split; [exact Ha|]. split; [|split; [apply length_firstn|]].
  - intros Hlist. rewrite Ha. apply (run_loaded World h _ _ Hlist).
  - split.
    + rewrite Ha. apply loaded_le_started.
    + rewrite Hs. destruct signIn; [simpl; lia|].
      rewrite length_map, length_firstn. apply Nat.le_min_l.
Qed.

(** Twenty-five customers pass the filter; twenty are assessed. *)
Example runRiskAnalysis_crowd :
  let tr := Effects.trace
              (Effects.run Sample.aiDown
                 (RiskAssessmentPage.runRiskAnalysis Sample.crowd) tt) in
  List.length (filter RiskAssessmentPage.isHighRisk Sample.crowd) = 25%nat /\
  RiskAssessmentPage.assessed tr
    = map Customer.id (firstn 20 Sample.crowd) /\
  List.length (RiskAssessmentPage.assessed tr) = 20%nat.
Proof. vm_compute. repeat split. Qed.

(* ================================================================== *)
(** * Further properties of the code *)

(** ** The ML engine in any environment *)

Section EngineRuns.

Import Effects.

Variable World : Type.
Variable h : handler World.

(** The loop over the AI's segments returns one mirror per segment and
    asks only for the clock and for random suffixes. *)
Lemma pushSegments_mirrors (segments : list AISegment.t) :
  forall results (w : World),
    let o := run h (MLEngine.pushSegments segments results) w in
    exists new,
      result o = inr (results ++ new) /\
      Forall2 Traces.mirrors segments new /\
      Traces.aiPrompts (trace o) = [].
Proof.
  induction segments as [|segment rest IH]; intros results w;
    cbn [MLEngine.pushSegments].
  - exists []. cbn. rewrite app_nil_r. auto.
  - cbn [bind trigger run].
    destruct (h _ DateNow w) as [t w1].
    destruct (h _ RandomSuffix w1) as [s w2].
    match goal with
    | |- context [run h (MLEngine.pushSegments rest (results ++ [?r])) w2] =>
        destruct (IH (results ++ [r]) w2) as (new & Hres & Hmir & Hai);
        destruct (run h (MLEngine.pushSegments rest (results ++ [r])) w2)
          as [res w' tr];
        exists (r :: new)
    end.
    cbn in *. rewrite <- app_assoc in Hres. split; [exact Hres|].
    split; [|exact Hai].
    constructor; [|exact Hmir].
    unfold Traces.mirrors. cbn. repeat split. now exists t, s.
Qed.

Lemma fallbackSegmentation_quiet (w : World) (customers : list CustomerData.t) :
  let o := run h (MLEngine.fallbackSegmentation customers) w in
  exists segs, result o = inr segs /\ Traces.aiPrompts (trace o) = [].
Proof.
  unfold MLEngine.fallbackSegmentation.
  cbn [bind trigger run app].
  destruct (h _ DateNow w) as [t1 w1].
  destruct (0 <? List.length (MLEngine.youngProfessionals customers))%nat;
    destruct (0 <? List.length (MLEngine.highRiskCustomers customers))%nat;
    cbn [bind trigger run app result];
    repeat match goal with
           | |- context [h _ DateNow ?w] => destruct (h _ DateNow w) as [? ?]
           end;
    cbn; eauto.
Qed.

Lemma performCustomerSegmentation_outcome (w : World) (customers : list CustomerData.t) :
  customers <> [] ->
  let prompt := SegmentationPrompt (JS.length customers)
                  (JS.slice (map MLEngine.summaryOf customers) 0 50) in
  let o := run h (MLEngine.performCustomerSegmentation customers) w in
  Traces.aiPrompts (trace o) = [prompt] /\
  exists segs,
    result o = inr segs /\
    forall segments,
      fst (h _ (GenerateObject SegmentsSchema prompt) w) = inr segments ->
      Forall2 Traces.mirrors (MLEngine.orArray segments) segs.
Proof.
  intros Hne prompt.
  unfold MLEngine.performCustomerSegmentation.
  destruct customers as [|c cs]; [congruence|].
  cbn [List.length Nat.eqb].
  set (customers := c :: cs) in *.
  cbn [bind await try_catch run MLEngine.console_error trigger].
  fold prompt.
  destruct (h _ (GenerateObject SegmentsSchema prompt) w) as [[e|segments] w1].
  - cbn [bind await try_catch run MLEngine.console_error trigger].
    destruct (h _ (ConsoleError _ e) w1) as [[] w2].
    destruct (fallbackSegmentation_quiet w2 customers) as (segs & Hres & Hai).
    destruct (run h (MLEngine.fallbackSegmentation customers) w2) as [r w' tr].
    cbn in *. rewrite Hai. split; [reflexivity|].
    exists segs. split; [exact Hres|]. discriminate.
  - cbn [bind await try_catch run].
    destruct segments as [segments|].
    + rewrite run_try_catch. cbn zeta.
      destruct (pushSegments_mirrors segments [] w1) as (new & Hres & Hmir & Hai).
      destruct (run h (MLEngine.pushSegments segments []) w1) as [r w' tr].
      cbn in *. subst r. cbn. rewrite Hai. split; [reflexivity|].
      exists new. split; [reflexivity|].
      intros segments' E. injection E as <-. exact Hmir.
    + cbn. split; [reflexivity|]. exists []. split; [reflexivity|].
      intros segments' E. injection E as <-. constructor.
Qed.

Lemma assessCustomerRisk_outcome (w : World) (customerData : CustomerData.t)
    (transactionHistory : list Transaction.t) :
  let prompt := RiskPrompt customerData (JS.slice transactionHistory 0 10) in
  let o := run h (MLEngine.assessCustomerRisk customerData transactionHistory) w in
  Traces.aiPrompts (trace o) = [prompt] /\
  exists a,
    result o = inr a /\
    forall object,
      fst (h _ (GenerateObject RiskSchema prompt) w) = inr object ->
      a = {| RiskAnalysis.riskScore :=
               JS.max 0 (JS.min 1 (MLEngine.orNumber (RiskObject.riskScore object)
                                     (CustomerData.riskScore customerData)));
             RiskAnalysis.riskLevel :=
               MLEngine.orString (RiskObject.riskLevel object) "medium";
             RiskAnalysis.factors := MLEngine.orArray (RiskObject.factors object);
             RiskAnalysis.recommendations :=
               MLEngine.orArray (RiskObject.recommendations object) |}.
Proof.
  intros prompt. unfold MLEngine.assessCustomerRisk.
  cbn [bind await try_catch run MLEngine.console_error trigger].
  fold prompt.
  destruct (h _ (GenerateObject RiskSchema prompt) w) as [[e|object] w1].
  - cbn [bind await try_catch run MLEngine.console_error trigger].
    destruct (h _ (ConsoleError _ e) w1) as [[] w2].
    cbn. split; [reflexivity|]. eexists. split; [reflexivity|]. discriminate.
  - cbn. split; [reflexivity|]. eexists. split; [reflexivity|].
    intros object' E. now injection E as <-.
Qed.

Lemma insights_outcome (w : World) (customerId : string) (customerData : CustomerData.t) :
  let o := run h (MLEngine.generateCustomerInsights customerId customerData) w in
  Traces.aiPrompts (trace o) = [InsightsPrompt customerData] /\
  result o
  = inr (match fst (h _ (GenerateObject InsightsSchema (InsightsPrompt customerData)) w) with
         | inr (Some insights) => insights
         | _ => []
         end).
Proof.
  unfold MLEngine.generateCustomerInsights.
  cbn [bind await try_catch run MLEngine.console_error trigger].
  destruct (h _ (GenerateObject InsightsSchema _) w) as [[e|[insights|]] w1].
  - cbn [bind await try_catch run MLEngine.console_error trigger].
    now destruct (h _ (ConsoleError _ e) w1) as [[] w2].
  - cbn. auto.
  - cbn. auto.
Qed.

Lemma recommendations_outcome (w : World) (customerData : CustomerData.t) :
  let o := run h (MLEngine.generateProductRecommendations customerData) w in
  Traces.aiPrompts (trace o) = [RecommendationsPrompt customerData] /\
  result o
  = inr (match fst (h _ (GenerateObject RecommendationsSchema
                           (RecommendationsPrompt customerData)) w) with
         | inr (Some recommendations) => recommendations
         | _ => []
         end).
Proof.
  unfold MLEngine.generateProductRecommendations.
  cbn [bind await try_catch run MLEngine.console_error trigger].
  destruct (h _ (GenerateObject RecommendationsSchema _) w) as [[e|[recs|]] w1].
  - cbn [bind await try_catch run MLEngine.console_error trigger].
    now destruct (h _ (ConsoleError _ e) w1) as [[] w2].
  - cbn. auto.
  - cbn. auto.
Qed.

End EngineRuns.

Section FallbackShape.

Import Effects.

Variable World : Type.
Variable h : handler World.

Ltac distinct_ids :=
  repeat constructor; cbn [In]; intros Hin;
  repeat match goal with
         | H : _ \/ _ |- _ => destruct H as [H|H]
         | H : False |- _ => destruct H
         | H : (_ ++ _)%string = (_ ++ _)%string |- _ => cbn in H; discriminate H
         end.

Lemma fallbackSegmentation_shape (w : World) (customers : list CustomerData.t) :
  let o := run h (MLEngine.fallbackSegmentation customers) w in
  exists segs,
    result o = inr segs /\
    map SegmentationResult.segmentName segs
    = ("High Value Customers"
       :: (if (0 <? List.length (MLEngine.youngProfessionals customers))%nat
           then ["Young Professionals"] else [])
       ++ (if (0 <? List.length (MLEngine.highRiskCustomers customers))%nat
           then ["High Risk Customers"] else []))%string /\
    trace o = map ONow (Traces.clockReadings (trace o)) /\
    List.length (Traces.clockReadings (trace o)) = List.length segs /\
    NoDup (map SegmentationResult.segmentId segs).
Proof.
  unfold MLEngine.fallbackSegmentation.
  cbn [bind trigger run app].
  destruct (h _ DateNow w) as [t1 w1].
  destruct (0 <? List.length (MLEngine.youngProfessionals customers))%nat;
    destruct (0 <? List.length (MLEngine.highRiskCustomers customers))%nat;
    cbn [bind trigger run app result];
    repeat match goal with
           | |- context [h _ DateNow ?w] => destruct (h _ DateNow w) as [? ?]
           end;
    cbn [bind trigger run app result trace observe];
    (eexists; split; [reflexivity|]);
    cbn [map SegmentationResult.segmentName SegmentationResult.segmentId
           Traces.clockReadings flat_map app List.length];
    (split; [reflexivity|]); (split; [reflexivity|]); (split; [reflexivity|]);
    distinct_ids.
Qed.

End FallbackShape.

Lemma highValueCustomers_incl (customers : list CustomerData.t) :
  incl (MLEngine.highValueCustomers customers) customers.
Proof.
  rewrite highValueCustomers_firstn. intros c Hc.
  apply (Permutation_in c (sort_perm _ CustomerData.accountBalance customers)).
  rewrite <- (firstn_skipn ((List.length customers + 4) / 5)
                (MLEngine.sort (byKey CustomerData.accountBalance) customers)).
  apply in_or_app. now left.
Qed.

Lemma highValueCustomers_nonempty (customers : list CustomerData.t) :
  customers <> [] -> MLEngine.highValueCustomers customers <> [].
Proof.
  intros Hne. rewrite highValueCustomers_firstn.
  pose proof (Permutation_length
                (sort_perm _ CustomerData.accountBalance customers)) as Hlen.
  destruct customers as [|c customers]; [congruence|].
  destruct (MLEngine.sort (byKey CustomerData.accountBalance) (c :: customers))
    as [|x sorted]; [discriminate|].
  replace ((List.length (c :: customers) + 4) / 5)%nat
    with (S ((List.length customers) / 5)); [discriminate|].
  simpl List.length.
  replace (S (List.length customers) + 4)%nat
    with (List.length customers + 1 * 5)%nat by lia.
  rewrite Nat.div_add by lia. lia.
Qed.

Lemma mean_defined (f : CustomerData.t -> Q) (group : list CustomerData.t) :
  MLEngine.mean f group = None <-> group = [].
Proof. destruct group; simpl; split; congruence. Qed.

Lemma isSegment_wellFormed name group customers s :
  Segments.isSegment name group s ->
  incl group customers ->
  SegmentChecks.wellFormed customers s /\ (group <> [] -> SegmentChecks.populated s).
Proof.
  intros (_ & Hc & Hch) Hincl. unfold SegmentChecks.wellFormed, SegmentChecks.populated.
  rewrite Hc, Hch. cbn. split; [split|].
  - intros id Hid. apply in_map_iff in Hid as (c & <- & Hin).
    apply in_map. now apply Hincl.
  - unfold JS.length. now rewrite length_map.
  - intros Hg. rewrite !mean_defined.
    repeat split; trivial. destruct group; [congruence|discriminate].
Qed.

Section FallbackChecks.

Import Effects.

Variable World : Type.
Variable h : handler World.

Lemma fallback_wellFormed (w : World) (customers : list CustomerData.t) :
  exists segs,
    result (run h (MLEngine.fallbackSegmentation customers) w) = inr segs /\
    Forall (SegmentChecks.wellFormed customers) segs /\
    (customers <> [] -> Forall SegmentChecks.populated segs) /\
    (customers = [] ->
     exists s, segs = [s] /\ SegmentationResult.customers s = [] /\
               Characteristics.avgBalance (SegmentationResult.characteristics s) = None).
Proof.
  destruct (fallbackSegmentation_run World h w customers)
    as (hv & yp & hr & Hrun & Hhv & Hyp & Hlyp & Hhr & Hlhr).
  exists (hv :: yp ++ hr). split; [exact Hrun|].
  assert (Iyp : incl (MLEngine.youngProfessionals customers) customers)
    by apply incl_filter.
  assert (Ihr : incl (MLEngine.highRiskCustomers customers) customers)
    by apply incl_filter.
  assert (Nyp : yp <> [] -> MLEngine.youngProfessionals customers <> []).
  { intros Hn E. rewrite E in Hlyp. now destruct yp. }
  assert (Nhr : hr <> [] -> MLEngine.highRiskCustomers customers <> []).
  { intros Hn E. rewrite E in Hlhr. now destruct hr. }
  split; [|split].
  - constructor.
    + apply (isSegment_wellFormed _ _ _ _ Hhv), highValueCustomers_incl.
    + apply Forall_app. split.
      * eapply Forall_impl; [|exact Hyp]. intros s Hs.
        now apply (isSegment_wellFormed _ _ _ _ Hs).
      * eapply Forall_impl; [|exact Hhr]. intros s Hs.
        now apply (isSegment_wellFormed _ _ _ _ Hs).
  - intros Hne. constructor.
    + apply (isSegment_wellFormed _ _ customers _ Hhv (highValueCustomers_incl _)).
      now apply highValueCustomers_nonempty.
    + apply Forall_app. split.
      * destruct yp as [|s yp]; [constructor|]. 
        eapply Forall_impl; [|exact Hyp]. intros s' Hs.
        apply (isSegment_wellFormed _ _ customers _ Hs Iyp). now apply Nyp.
      * destruct hr as [|s hr]; [constructor|].
        eapply Forall_impl; [|exact Hhr]. intros s' Hs.
        apply (isSegment_wellFormed _ _ customers _ Hs Ihr). now apply Nhr.
  - intros ->. cbn in Hlyp, Hlhr. destruct yp; [|discriminate].
    destruct hr; [|discriminate]. exists hv. split; [reflexivity|].
    destruct Hhv as (_ & Hc & Hch). rewrite Hc, Hch. now cbn.
Qed.
End FallbackChecks.

(** ** The risk page in any environment *)

Lemma floor_div_nonpos (a b : Z) (d : Q) :
  (a <= b)%Z -> (0 < d)%Q -> (JS.floor (JS.div (inject_Z (a - b)) d) <= 0)%Q.
Proof.
  intros Hab Hd. unfold JS.floor.
  change 0%Q with (inject_Z 0). rewrite <- Zle_Qle.
  change 0%Z with (Qfloor (inject_Z 0)). apply Qfloor_resp_le.
  change (inject_Z 0) with 0%Q.
  assert (Hx : (inject_Z (a - b) <= 0)%Q).
  { change 0%Q with (inject_Z 0). rewrite <- Zle_Qle. lia. }
  unfold JS.div. apply round_nonpos.
  unfold Qdiv.
  assert (Hi : (0 < / d)%Q) by now apply Qinv_lt_0_compat.
  nra.
Qed.

Section Page.

Import Effects.

Variable World : Type.
Variable h : handler World.

Ltac answer :=
  match goal with
  | |- context [h ?X ?ev ?w] =>
      let r := fresh "r" in
      let w' := fresh "w" in
      destruct (h X ev w) as [r w'];
      match type of r with
      | sum _ _ => destruct r
      | unit => destruct r
      | _ => idtac
      end
  end.

Lemma forEach_inv (A : Type) (body : A -> Prog unit) (P : list Obs -> Prop) :
  P [] ->
  (forall tr1 tr2, P tr1 -> P tr2 -> P (tr1 ++ tr2)) ->
  (forall x w, result (run h (body x) w) = inr tt /\ P (trace (run h (body x) w))) ->
  forall l w,
    result (run h (forEach l body) w) = inr tt /\
    P (trace (run h (forEach l body) w)).
Proof.
  intros Pnil Papp Hbody. induction l as [|x l IH]; intros w; cbn [forEach].
  - cbn. auto.
  - rewrite run_bind. cbn zeta.
    destruct (Hbody x w) as (Hr & Hp). rewrite Hr. cbn [result trace].
    destruct (IH (world (run h (body x) w))) as (Hr' & Hp'). auto.
Qed.

Lemma runRiskAnalysis_shape (customers : list Customer.t) (w : World) :
  let o := run h (RiskAssessmentPage.runRiskAnalysis customers) w in
  result o = inr tt /\
  exists auth body,
    trace o = OSetAnalyzing true :: OAuthMe auth :: body ++ [OSetAnalyzing false] /\
    match auth with
    | Some e => body = [OLog "Error running risk analysis:" e]
    | None =>
        exists user w2,
          body = trace (run h (forEach
                                 (JS.slice (filter RiskAssessmentPage.isHighRisk customers) 0 20)
                                 (Traces.guarded user)) w2)
                 ++ [OLoadData]
    end.
Proof.
  unfold RiskAssessmentPage.runRiskAnalysis.
  cbn [bind try_catch try_finally trigger await run MLEngine.console_error].
  destruct (h _ (SetAnalyzing true) w) as [[] w1].
  destruct (h _ AuthMe w1) as [[e|user] w2].
  - cbn [bind try_catch try_finally trigger await run MLEngine.console_error].
    repeat (answer; cbn [bind try_catch try_finally trigger await run]).
    cbn. split; [reflexivity|]. exists (Some e), [OLog "Error running risk analysis:" e].
    auto.
  - cbn [bind try_catch try_finally trigger await run MLEngine.console_error].
    match goal with
    | |- context [run h ?P w2] =>
        assert (Hin : result (run h P w2) = inr tt /\
                      trace (run h P w2)
                      = (trace (run h (forEach
                                 (JS.slice (filter RiskAssessmentPage.isHighRisk customers) 0 20)
                                 (Traces.guarded user)) w2)
                         ++ [OLoadData]) ++ [OSetAnalyzing false]);
        [|destruct (run h P w2) as [r w' tr]]
    end.
    + rewrite run_try_finally. cbn zeta. rewrite run_try_catch. cbn zeta.
      rewrite run_bind. cbn zeta.
      destruct (forEach_inv _ (Traces.guarded user) (fun _ => True) I (fun _ _ _ _ => I)) with
        (l := JS.slice (filter RiskAssessmentPage.isHighRisk customers) 0 20) (w := w2)
        as (Hr & _).
      { intros x w0. split; [|exact I].
        unfold Traces.guarded, RiskAssessmentPage.analyzeCustomer, MLEngine.assessCustomerRisk,
          MLEngine.console_error.
        destruct (Customer.lastTransactionDate x);
          cbn [bind await try_catch run trigger];
          repeat (answer; cbn [bind await try_catch run trigger]);
          repeat match goal with u : unit |- _ => destruct u end;
          reflexivity. }
      fold (Traces.guarded user). rewrite Hr.
      cbn [result world trace run trigger].
      repeat (answer; cbn [result world trace run trigger]).
      split; reflexivity.
    + destruct Hin as (Hr & Htr). cbn in Hr, Htr. subst r tr.
      cbn. split; [reflexivity|].
      eexists None, _. split; [reflexivity|]. now exists user, w2.
Qed.

Lemma quietWrites_app tr1 tr2 :
  Traces.quietWrites tr1 -> Traces.quietWrites tr2 -> Traces.quietWrites (tr1 ++ tr2).
Proof.
  unfold Traces.quietWrites, Traces.pageEvents, Traces.created, RiskAssessmentPage.assessed,
    Traces.updated, Traces.createdOk.
  intros (P1 & C1 & U1) (P2 & C2 & U2).
  rewrite filter_app, !flat_map_app, P1, P2, C1, C2, U1, U2. auto.
Qed.

Lemma guarded_quietWrites (user : User.t) (customer : Customer.t) (w : World) :
  result (run h (Traces.guarded user customer) w) = inr tt /\
  Traces.quietWrites (trace (run h (Traces.guarded user customer) w)).
Proof.
  unfold Traces.guarded, RiskAssessmentPage.analyzeCustomer, MLEngine.assessCustomerRisk,
    MLEngine.console_error, Traces.quietWrites.
  destruct (Customer.lastTransactionDate customer);
    cbn [bind await try_catch run trigger];
    repeat (answer; cbn [bind await try_catch run trigger]);
    repeat match goal with u : unit |- _ => destruct u end;
    cbn; repeat split.
Qed.

Ltac read_clock Hclock :=
  match goal with
  | |- context [h _ DateNow ?w] =>
      let t := fresh "t" in
      let w' := fresh "w" in
      let Ht := fresh "Ht" in
      pose proof (Hclock w) as Ht;
      destruct (h _ DateNow w) as [t w']; cbn [fst snd] in Ht
  end.

Lemma guarded_ages (time : World -> Z) (user : User.t) (customer : Customer.t)
    (w : World) :
  Traces.monotoneClock h time ->
  result (run h (Traces.guarded user customer) w) = inr tt /\
  Forall (fun age => (age <= 0)%Q)
    (Traces.promptAccountAges (trace (run h (Traces.guarded user customer) w))).
Proof.
  intros (_ & Hclock).
  unfold Traces.guarded, RiskAssessmentPage.analyzeCustomer, MLEngine.assessCustomerRisk,
    MLEngine.console_error.
  destruct (Customer.lastTransactionDate customer);
    cbn [bind await try_catch run trigger];
    repeat (first [read_clock Hclock | answer];
            cbn [bind await try_catch run trigger]);
    repeat match goal with u : unit |- _ => destruct u end;
    (split; [reflexivity|]);
    cbn [trace observe thrown Traces.promptAccountAges flat_map app
           CustomerData.accountAge];
    first [ apply Forall_nil
          | apply Forall_cons;
            [apply floor_div_nonpos; [lia|closed] | apply Forall_nil] ].
Qed.

End Page.

(** ** Extra properties: the ML engine *)

(** X1.  [performCustomerSegmentation] never throws, and it calls the
    hosted AI once for a non-empty list, with the number of customers and
    the summaries of the first 50 of them, and not at all for an empty
    one. *)
Theorem performCustomerSegmentation_one_call (World : Type)
    (h : Effects.handler World) (w : World) (customers : list CustomerData.t) :
  let o := Effects.run h (MLEngine.performCustomerSegmentation customers) w in
  (exists segs, Effects.result o = inr segs) /\
  Traces.aiPrompts (Effects.trace o)
  = match customers with
    | [] => []
    | _ => [Effects.SegmentationPrompt (JS.length customers)
              (firstn 50 (map MLEngine.summaryOf customers))]
    end.
Proof.
  destruct customers as [|c cs].
  - cbn. split; [now exists []|reflexivity].
  - destruct (performCustomerSegmentation_outcome World h w (c :: cs))
      as (Hai & segs & Hres & _); [discriminate|].
    split; [now exists segs|exact Hai].
Qed.

(** X2.  When the hosted AI answers the segmentation call of a non-empty
    list with segments, the result has one entry per segment, in the same
    order, with the segment's name, customer ids, characteristics and
    insights, under an id [seg_<clock>_<suffix>]; when the answer has no
    [segments] the result is empty. *)
Theorem performCustomerSegmentation_mirrors (World : Type)
    (h : Effects.handler World) (w : World) (customers : list CustomerData.t)
    (segments : option (list AISegment.t)) :
  customers <> [] ->
  fst (h _ (Effects.GenerateObject Effects.SegmentsSchema
              (Effects.SegmentationPrompt (JS.length customers)
                 (firstn 50 (map MLEngine.summaryOf customers)))) w)
  = inr segments ->
  exists segs,
    Effects.result (Effects.run h (MLEngine.performCustomerSegmentation customers) w)
    = inr segs /\
    match segments with
    | Some segments => Forall2 Traces.mirrors segments segs
    | None => segs = []
    end.
Proof.
  intros Hne Hanswer.
  destruct (performCustomerSegmentation_outcome World h w customers Hne)
    as (_ & segs & Hres & Hmir).
  exists segs. split; [exact Hres|].
  specialize (Hmir segments Hanswer).
  destruct segments as [segments|]; [exact Hmir|].
  now inversion Hmir.
Qed.

Lemma performCustomerSegmentation_mirrors_witness :
  exists segs,
    Effects.result (Effects.run SampleAnswers.aiUp
                      (MLEngine.performCustomerSegmentation Sample.six) tt)
    = inr segs /\
    Forall2 Traces.mirrors [SampleAnswers.segmentA; SampleAnswers.segmentB] segs.
Proof.
  apply (performCustomerSegmentation_mirrors unit SampleAnswers.aiUp tt Sample.six
           (Some [SampleAnswers.segmentA; SampleAnswers.segmentB])).
  - discriminate.
  - reflexivity.
Defined.

(** X3.  [assessCustomerRisk] never throws and calls the hosted AI exactly
    once, with the customer and the first 10 transactions of the
    history. *)
Theorem assessCustomerRisk_one_call (World : Type) (h : Effects.handler World)
    (w : World) (customerData : CustomerData.t)
    (transactionHistory : list Transaction.t) :
  let o := Effects.run h
             (MLEngine.assessCustomerRisk customerData transactionHistory) w in
  (exists a, Effects.result o = inr a) /\
  Traces.aiPrompts (Effects.trace o)
  = [Effects.RiskPrompt customerData (firstn 10 transactionHistory)].
Proof.
  destruct (assessCustomerRisk_outcome World h w customerData transactionHistory)
    as (Hai & a & Hres & _).
  split; [now exists a|exact Hai].
Qed.

(** X4.  When the hosted AI answers the risk call, the returned score lies
    in [0, 1]: it is the AI's score clamped, or the customer's own score
    clamped when the AI's score is missing or zero; the level is "medium"
    when the AI's level is missing or empty. *)
Theorem assessCustomerRisk_answer (World : Type) (h : Effects.handler World)
    (w : World) (customerData : CustomerData.t)
    (transactionHistory : list Transaction.t) (object : RiskObject.t) :
  fst (h _ (Effects.GenerateObject Effects.RiskSchema
              (Effects.RiskPrompt customerData (firstn 10 transactionHistory))) w)
  = inr object ->
  exists a,
    Effects.result (Effects.run h
                      (MLEngine.assessCustomerRisk customerData transactionHistory) w)
    = inr a /\
    (0 <= RiskAnalysis.riskScore a <= 1)%Q /\
    (forall q, RiskObject.riskScore object = Some q -> ~ (q == 0)%Q ->
               RiskAnalysis.riskScore a = Qmax 0 (Qmin 1 q)) /\
    (RiskObject.riskScore object = None \/
     (exists q, RiskObject.riskScore object = Some q /\ (q == 0)%Q) ->
     RiskAnalysis.riskScore a
     = Qmax 0 (Qmin 1 (CustomerData.riskScore customerData))) /\
    (RiskObject.riskLevel object = None \/
     RiskObject.riskLevel object = Some EmptyString ->
     RiskAnalysis.riskLevel a = "medium"%string).
Proof.
  intros Hanswer.
  destruct (assessCustomerRisk_outcome World h w customerData transactionHistory)
    as (_ & a & Hres & Ha).
  exists a. split; [exact Hres|].
  rewrite (Ha object Hanswer). cbn [RiskAnalysis.riskScore RiskAnalysis.riskLevel].
  unfold JS.max, JS.min, MLEngine.orNumber, MLEngine.orString.
  split; [apply clamp_bounds; lra|]. split; [|split].
  - intros q -> Hq. destruct (Qeq_bool q 0) eqn:E; [|reflexivity].
    apply Qeq_bool_iff in E. contradiction.
  - intros [->|(q & -> & Hq)]; [reflexivity|].
    apply Qeq_bool_iff in Hq. now rewrite Hq.
  - intros [->| ->]; reflexivity.
Qed.

Lemma assessCustomerRisk_answer_witness :
  exists a,
    Effects.result (Effects.run SampleAnswers.aiUp
                      (MLEngine.assessCustomerRisk Sample.atThreshold []) tt)
    = inr a /\
    (0 <= RiskAnalysis.riskScore a <= 1)%Q /\
    RiskAnalysis.riskScore a = Qmax 0 (Qmin 1 1.4) /\
    RiskAnalysis.riskLevel a = "medium"%string.
Proof.
  destruct (assessCustomerRisk_answer unit SampleAnswers.aiUp tt Sample.atThreshold []
              SampleAnswers.riskAnswer eq_refl)
    as (a & Hres & Hrange & Hscore & _ & Hlevel).
  exists a. split; [exact Hres|]. split; [exact Hrange|]. split.
  - apply Hscore; [reflexivity|]. intros E. vm_compute in E. discriminate.
  - apply Hlevel. now left.
Defined.

(** X5.  [generateCustomerInsights] and [generateProductRecommendations]
    never throw and call the hosted AI exactly once; each returns the list
    of the AI's answer when the call resolves with one, and the empty list
    otherwise (the call threw, or the answer has no such property).  The
    [customerId] argument plays no part. *)
Theorem insights_and_recommendations_total (World : Type)
    (h : Effects.handler World) (w : World) (customerId : string)
    (customerData : CustomerData.t) :
  let insights :=
    Effects.run h (MLEngine.generateCustomerInsights customerId customerData) w in
  let recommendations :=
    Effects.run h (MLEngine.generateProductRecommendations customerData) w in
  Traces.aiPrompts (Effects.trace insights) = [Effects.InsightsPrompt customerData] /\
  Effects.result insights
  = inr (match fst (h _ (Effects.GenerateObject Effects.InsightsSchema
                           (Effects.InsightsPrompt customerData)) w) with
         | inr (Some l) => l
         | _ => []
         end) /\
  Traces.aiPrompts (Effects.trace recommendations)
  = [Effects.RecommendationsPrompt customerData] /\
  Effects.result recommendations
  = inr (match fst (h _ (Effects.GenerateObject Effects.RecommendationsSchema
                           (Effects.RecommendationsPrompt customerData)) w) with
         | inr (Some l) => l
         | _ => []
         end).
Proof.
  destruct (insights_outcome World h w customerId customerData) as (H1 & H2).
  destruct (recommendations_outcome World h w customerData) as (H3 & H4).
  repeat split; assumption.
Qed.

(** X6.  Every run of the fallback segmentation returns between one and
    three segments, named in the fixed order high value, young
    professionals, high risk; it asks its environment for nothing but the
    clock, once per segment, and the segment ids are pairwise distinct
    even when the clock stands still. *)
Theorem fallbackSegmentation_shape_ids (World : Type) (h : Effects.handler World)
    (w : World) (customers : list CustomerData.t) :
  let o := Effects.run h (MLEngine.fallbackSegmentation customers) w in
  exists segs,
    Effects.result o = inr segs /\
    (1 <= List.length segs <= 3)%nat /\
    map SegmentationResult.segmentName segs
    = ("High Value Customers"
       :: (if (0 <? List.length (MLEngine.youngProfessionals customers))%nat
           then ["Young Professionals"] else [])
       ++ (if (0 <? List.length (MLEngine.highRiskCustomers customers))%nat
           then ["High Risk Customers"] else []))%string /\
    Effects.trace o = map Effects.ONow (Traces.clockReadings (Effects.trace o)) /\
    List.length (Traces.clockReadings (Effects.trace o)) = List.length segs /\
    NoDup (map SegmentationResult.segmentId segs).
Proof.
  destruct (fallbackSegmentation_shape World h w customers)
    as (segs & Hres & Hnames & Htr & Hclock & Hids).
  exists segs. split; [exact Hres|]. split; [|auto].
  rewrite <- (length_map SegmentationResult.segmentName), Hnames.
  destruct (0 <? List.length (MLEngine.youngProfessionals customers))%nat;
    destruct (0 <? List.length (MLEngine.highRiskCustomers customers))%nat;
    simpl; lia.
Qed.

(** X7.  In every result of the fallback segmentation each segment's
    members are ids of input customers and its [size] is their number; for
    a non-empty input every segment has a member and none of its four
    averages is [NaN]; for the empty input the result is one high-value
    segment without members whose averages are [NaN]. *)
Theorem fallback_segments_wellFormed (World : Type) (h : Effects.handler World)
    (w : World) (customers : list CustomerData.t) :
  exists segs,
    Effects.result (Effects.run h (MLEngine.fallbackSegmentation customers) w)
    = inr segs /\
    Forall (SegmentChecks.wellFormed customers) segs /\
    (customers <> [] -> Forall SegmentChecks.populated segs) /\
    (customers = [] ->
     exists s, segs = [s] /\ SegmentationResult.customers s = [] /\
               Characteristics.avgBalance (SegmentationResult.characteristics s)
               = None).
Proof. apply fallback_wellFormed. Qed.

Lemma fallback_segments_wellFormed_witness :
  exists segs,
    Effects.result (Effects.run Sample.aiDown
                      (MLEngine.fallbackSegmentation Sample.six) tt) = inr segs /\
    Forall (SegmentChecks.wellFormed Sample.six) segs /\
    Forall SegmentChecks.populated segs.
Proof.
  destruct (fallback_segments_wellFormed unit Sample.aiDown tt Sample.six)
    as (segs & Hres & Hwf & Hpop & _).
  exists segs. split; [exact Hres|]. split; [exact Hwf|].
  apply Hpop. discriminate.
Defined.

(** X8.  In every run of the fallback segmentation the members of the
    high-risk segment are, in input order, exactly the input customers
    whose risk score is greater than 0.7. *)
Theorem highRisk_members (World : Type) (h : Effects.handler World)
    (w : World) (customers : list CustomerData.t) :
  exists segs,
    Effects.result (Effects.run h (MLEngine.fallbackSegmentation customers) w)
      = inr segs /\
    Segments.members "High Risk Customers" segs
      = map CustomerData.id (MLEngine.highRiskCustomers customers) /\
    forall c,
      In c (MLEngine.highRiskCustomers customers) <->
      In c customers /\ (0.7 < CustomerData.riskScore c)%Q.
Proof.
  destruct (fallbackSegmentation_segments World h w customers)
    as (segs & hv & yp & hr & Hrun & _ & _ & _ & Hnhr & _ & _ & Hhr & Hlhr).
  exists segs. split; [exact Hrun|]. split.
  - unfold Segments.members. rewrite Hnhr.
    now apply (flat_map_group "High Risk Customers").
  - intros c. unfold MLEngine.highRiskCustomers.
    rewrite filter_In. unfold JS.gtb. rewrite ltb_lt. tauto.
Qed.

(** ** Extra properties: the batch risk analysis *)

Section PageRuns.

Import Effects.

Variable World : Type.
Variable h : handler World.

(** An invariant of the loop body holds of the whole run when the page's
    own requests keep it. *)
Lemma runRiskAnalysis_inv (P : list Obs -> Prop) :
  P [] ->
  (forall tr1 tr2, P tr1 -> P tr2 -> P (tr1 ++ tr2)) ->
  (forall o, Traces.pageEvents [o] = [o] -> P [o]) ->
  (forall label e, P [OLog label e]) ->
  (forall user customer w,
      P (trace (run h (Traces.guarded user customer) w))) ->
  forall customers w,
    P (trace (run h (RiskAssessmentPage.runRiskAnalysis customers) w)).
Proof.
  intros Pnil Papp Ppage Plog Pbody customers w.
  destruct (runRiskAnalysis_shape World h customers w)
    as (_ & auth & body & -> & Hbody).
  change (P ([OSetAnalyzing true] ++ [OAuthMe auth] ++ body ++ [OSetAnalyzing false])).
  apply Papp; [now apply Ppage|].
  apply Papp; [now apply Ppage|].
  apply Papp; [|now apply Ppage].
  destruct auth as [e|].
  - subst body. apply Plog.
  - destruct Hbody as (user & w2 & ->).
    apply Papp; [|now apply Ppage].
    apply (forEach_inv World h _ (Traces.guarded user) P Pnil Papp).
    intros x w0. split; [|apply Pbody].
    apply guarded_quietWrites.
Qed.

End PageRuns.

(** X9.  [runRiskAnalysis] never throws.  Whatever fails, its first
    request sets the analyzing flag and its last one clears it, and between
    them the page signs in once and reloads its data exactly when signing
    in succeeded. *)
Theorem runRiskAnalysis_resets_flag (World : Type) (h : Effects.handler World)
    (w : World) (customers : list Customer.t) :
  let o := Effects.run h (RiskAssessmentPage.runRiskAnalysis customers) w in
  Effects.result o = inr tt /\
  exists auth middle,
    Effects.trace o
    = Effects.OSetAnalyzing true :: middle ++ [Effects.OSetAnalyzing false] /\
    Traces.pageEvents (Effects.trace o)
    = Effects.OSetAnalyzing true :: Effects.OAuthMe auth
      :: (match auth with None => [Effects.OLoadData] | Some _ => [] end)
      ++ [Effects.OSetAnalyzing false].
Proof.
  destruct (runRiskAnalysis_shape World h customers w)
    as (Hres & auth & body & Htr & Hbody).
  split; [exact Hres|]. exists auth, (Effects.OAuthMe auth :: body).
  split; [exact Htr|]. rewrite Htr.
  unfold Traces.pageEvents. cbn [filter]. rewrite filter_app. cbn [filter].
  do 2 f_equal. f_equal.
  destruct auth as [e|].
  - now subst body.
  - destruct Hbody as (user & w2 & ->). rewrite filter_app. cbn [filter].
    destruct (forEach_inv World h _ (Traces.guarded user) Traces.quietWrites)
      with (l := JS.slice (filter RiskAssessmentPage.isHighRisk customers) 0 20)
           (w := w2) as (_ & Hq & _).
    + now repeat split.
    + apply quietWrites_app.
    + apply guarded_quietWrites.
    + unfold Traces.pageEvents in Hq. now rewrite Hq.
Qed.

(** X10.  In every run of [runRiskAnalysis] an assessment row is
    requested for exactly the customers the ML engine was called for, in
    that order, and a customer's risk score is updated exactly when its
    row was created: no update follows a failed [create]. *)
Theorem runRiskAnalysis_writes (World : Type) (h : Effects.handler World)
    (w : World) (customers : list Customer.t) :
  let tr := Effects.trace
              (Effects.run h (RiskAssessmentPage.runRiskAnalysis customers) w) in
  Traces.created tr = RiskAssessmentPage.assessed tr /\
  Traces.updated tr = Traces.createdOk tr.
Proof.
  apply (runRiskAnalysis_inv World h
           (fun tr => Traces.created tr = RiskAssessmentPage.assessed tr /\
                      Traces.updated tr = Traces.createdOk tr)).
  - now split.
  - unfold Traces.created, RiskAssessmentPage.assessed, Traces.updated,
      Traces.createdOk.
    intros tr1 tr2 (C1 & U1) (C2 & U2).
    now rewrite !flat_map_app, C1, C2, U1, U2.
  - intros o Ho. destruct o; try discriminate Ho; now split.
  - intros label e. now split.
  - intros user customer w0.
    destruct (guarded_quietWrites World h user customer w0) as (_ & _ & Hc & Hu).
    now split.
Qed.

(** X11.  With a clock that never runs backwards, the account age that
    [runRiskAnalysis] writes into a customer's risk prompt is never
    positive: it is the floor of the difference of two successive clock
    readings, the earlier minus the later, in months. *)
Theorem runRiskAnalysis_account_age (World : Type) (h : Effects.handler World)
    (time : World -> Z) (w : World) (customers : list Customer.t) :
  Traces.monotoneClock h time ->
  Forall (fun age => (age <= 0)%Q)
    (Traces.promptAccountAges
       (Effects.trace
          (Effects.run h (RiskAssessmentPage.runRiskAnalysis customers) w))).
Proof.
  intros Hclock.
  apply (runRiskAnalysis_inv World h
           (fun tr => Forall (fun age => (age <= 0)%Q) (Traces.promptAccountAges tr))).
  - constructor.
  - intros tr1 tr2 H1 H2. unfold Traces.promptAccountAges in *.
    rewrite flat_map_app. apply Forall_app. now split.
  - intros o Ho. destruct o; try discriminate Ho; constructor.
  - intros label e. constructor.
  - intros user customer w0.
    now apply (guarded_ages World h time user customer w0).
Qed.

Lemma runRiskAnalysis_account_age_witness :
  Forall (fun age => (age <= 0)%Q)
    (Traces.promptAccountAges
       (Effects.trace
          (Effects.run Sample.aiDown
             (RiskAssessmentPage.runRiskAnalysis Sample.crowd) tt))).
Proof.
  apply (runRiskAnalysis_account_age unit Sample.aiDown
           (fun _ => 1700000000000%Z) tt Sample.crowd).
  split.
  - intros X ev w0. lia.
  - intros w0. cbn. lia.
Defined.

(** The ages behind the witness: twenty prompts, each with account age 0. *)
Example runRiskAnalysis_crowd_ages :
  Traces.promptAccountAges
    (Effects.trace
       (Effects.run Sample.aiDown
          (RiskAssessmentPage.runRiskAnalysis Sample.crowd) tt))
  = repeat (inject_Z 0) 20.
Proof. vm_compute. reflexivity. Qed.

(** ** The seeder's generators *)

Section Intervals.

Import Binary64.
Open Scope Q_scope.
Open Scope js_scope.

(** The operations keep a value between the roundings of its bounds. *)
Lemma add_between x y a b c d :
  a <= x <= b -> c <= y <= d -> round (a + c) <= x [+] y <= round (b + d).
Proof. intros [? ?] [? ?]. unfold JS.add. split; apply round_mono; lra. Qed.

Lemma sub_between x y a b c d :
  a <= x <= b -> c <= y <= d -> round (a - d) <= x [-] y <= round (b - c).
Proof. intros [? ?] [? ?]. unfold JS.sub. split; apply round_mono; lra. Qed.

Lemma mul_between x y a b c d :
  0 <= a -> 0 <= c -> a <= x <= b -> c <= y <= d ->
  round (a * c) <= x [*] y <= round (b * d).
Proof.
  intros ? ? [? ?] [? ?]. unfold JS.mul. split; apply round_mono; nra.
Qed.

Lemma mul_between_r x a b c :
  0 <= c -> a <= x <= b -> round (a * c) <= x [*] c <= round (b * c).
Proof. intros ? [? ?]. unfold JS.mul. split; apply round_mono; nra. Qed.

Lemma div_between_r x a b c :
  0 < c -> a <= x <= b -> round (a / c) <= x [/] c <= round (b / c).
Proof.
  intros Hc [? ?]. unfold JS.div, Qdiv.
  assert (0 < / c) by now apply Qinv_lt_0_compat.
  split; apply round_mono; nra.
Qed.

Lemma floor_between x a b :
  a <= x <= b -> JS.floor a <= JS.floor x <= JS.floor b.
Proof.
  intros [? ?]. unfold JS.floor. rewrite <- !Zle_Qle.
  split; now apply Qfloor_resp_le.
Qed.

(** Below [2^53] a rounding does not cross a whole number. *)
Lemma floor_le_round x :
  0 <= x <= inject_Z (2 ^ 53) -> inject_Z (Qfloor x) <= round x.
Proof.
  intros [H0 H1]. apply round_ge_number; [|apply Qfloor_le].
  apply isNumber_Z.
  assert (L : (0 <= Qfloor x)%Z).
  { rewrite <- (Qfloor_Z 0). now apply Qfloor_resp_le. }
  assert (U : (Qfloor x <= 2 ^ 53)%Z).
  { rewrite <- (Qfloor_Z (2 ^ 53)). now apply Qfloor_resp_le. }
  lia.
Qed.

Lemma round_le_ceiling x :
  0 <= x <= inject_Z (2 ^ 53) -> round x <= inject_Z (Qceiling x).
Proof.
  intros [H0 H1]. apply round_le_number; [|apply Qle_ceiling].
  apply isNumber_Z.
  assert (L : (0 <= Qceiling x)%Z).
  { rewrite <- (Qceiling_Z 0). now apply Qceiling_resp_le. }
  assert (U : (Qceiling x <= 2 ^ 53)%Z).
  { rewrite <- (Qceiling_Z (2 ^ 53)). now apply Qceiling_resp_le. }
  lia.
Qed.

(** Halving a number that is not tiny is exact. *)
Lemma half_number x :
  JS.isNumber x -> (1 # 4) <= x -> round (x * (1 # 2)) == x * (1 # 2).
Proof.
  intros N H. rewrite round_half.
  - unfold JS.isNumber in N. rewrite N. reflexivity.
  - rewrite Qabs_pos by lra.
    apply Qle_trans with (2 := H).
    change (1 # 4) with (pow2 (-2)). apply pow2_le. lia.
Qed.

Lemma floor_ge_Z (z : Z) (x : Q) : inject_Z z <= x -> inject_Z z <= JS.floor x.
Proof.
  intros H. unfold JS.floor. rewrite <- Zle_Qle.
  rewrite <- (Qfloor_Z z). now apply Qfloor_resp_le.
Qed.

Lemma floor_gt_pred (x : Q) : x - 1 < JS.floor x.
Proof.
  unfold JS.floor. pose proof (Qlt_floor x) as H.
  rewrite inject_Z_plus in H. change (inject_Z 1) with 1 in H. lra.
Qed.

Lemma ceiling_lt_succ (x : Q) : inject_Z (Qceiling x) < x + 1.
Proof.
  pose proof (Qceiling_lt x) as H. unfold Z.sub in H.
  rewrite inject_Z_plus in H. change (inject_Z (- (1))) with (- (1)) in H. lra.
Qed.

End Intervals.

(** Evaluates the closed bounds of a hypothesis [l <= x <= u]. *)
Ltac evalr H :=
  match type of H with
  | (?l <= ?m <= ?u)%Q =>
      let l' := eval vm_compute in l in
      let u' := eval vm_compute in u in
      change (l' <= m <= u')%Q in H
  end.

(** The bounds of a product of two values with non-negative bounds. *)
Ltac mul_bounds H1 H2 H :=
  match type of H1 with
  | (?a <= ?x <= ?b)%Q =>
      match type of H2 with
      | (?c <= ?y <= ?d)%Q =>
          let Ha := fresh in
          let Hc := fresh in
          assert (Ha : (0 <= a)%Q) by closed;
          assert (Hc : (0 <= c)%Q) by closed;
          pose proof (mul_between x y a b c d Ha Hc H1 H2) as H;
          clear Ha Hc; evalr H
      end
  end.

(** Turns whole-number bounds into bounds of rationals. *)
Ltac to_Q H :=
  match type of H with
  | (?a <= ?z <= ?b)%Z =>
      let a' := eval vm_compute in a in
      let b' := eval vm_compute in b in
      let H' := fresh H "q" in
      assert (H' : (a' # 1 <= inject_Z z <= b' # 1)%Q)
        by (change (a' # 1) with (inject_Z a'); change (b' # 1) with (inject_Z b');
            rewrite <- !Zle_Qle; lia)
  end.

Section Generators.

Import Binary64.
Open Scope Q_scope.
Open Scope js_scope.

(** [Math.floor(Math.random() * n) + k] is one of [k .. k + n - 1]. *)
Lemma floor_scaled (r : Q) (n k : Z) :
  JS.isRandom r -> (0 < n)%Z -> (0 <= k)%Z -> (k + n <= 2 ^ 53)%Z ->
  round ((1 - pow2 (-53)) * inject_Z n) < inject_Z n ->
  exists z : Z,
    JS.floor (r [*] inject_Z n) [+] inject_Z k == inject_Z z /\
    (k <= z <= k + n - 1)%Z.
Proof.
  intros R Hn Hk Hs Htop.
  destruct (floor_mul_random r n R Hn Htop) as (z & E & B).
  exists (z + k)%Z. split; [|lia].
  rewrite E. apply add_Z. lia.
Qed.

Lemma ltb_ge (x y : Q) : JS.ltb x y = false <-> y <= x.
Proof.
  split; intros H.
  - apply Qnot_lt_le. intros Hlt. apply ltb_lt in Hlt. congruence.
  - destruct (JS.ltb x y) eqn:E; [|reflexivity].
    apply ltb_lt in E. exfalso. exact (Qlt_not_le _ _ E H).
Qed.

Lemma generateAnnualIncome_brackets (rand random : Q) :
  JS.isRandom random ->
  let income := DataSeederGenerators.generateAnnualIncome rand random in
  (exists z, income == inject_Z z) /\
  20000 <= income < 500000 /\
  (rand < JS.num 0.2 -> 20000 <= income < 50000) /\
  (JS.num 0.2 <= rand < JS.num 0.5 -> 50000 <= income < 90000) /\
  (JS.num 0.5 <= rand < JS.num 0.8 -> 90000 <= income < 150000) /\
  (JS.num 0.8 <= rand < JS.num 0.95 -> 150000 <= income < 250000) /\
  (JS.num 0.95 <= rand -> 250000 <= income < 500000).
Proof.
  intros R. unfold DataSeederGenerators.generateAnnualIncome.
  destruct (floor_scaled random 30000 20000 R) as (z1 & E1 & B1);
    [lia | lia | lia | closed |].
  destruct (floor_scaled random 40000 50000 R) as (z2 & E2 & B2);
    [lia | lia | lia | closed |].
  destruct (floor_scaled random 60000 90000 R) as (z3 & E3 & B3);
    [lia | lia | lia | closed |].
  destruct (floor_scaled random 100000 150000 R) as (z4 & E4 & B4);
    [lia | lia | lia | closed |].
  destruct (floor_scaled random 250000 250000 R) as (z5 & E5 & B5);
    [lia | lia | lia | closed |].
  to_Q B1. to_Q B2. to_Q B3. to_Q B4. to_Q B5.
  change (inject_Z 30000) with 30000 in E1. change (inject_Z 20000) with 20000 in E1.
  change (inject_Z 40000) with 40000 in E2. change (inject_Z 50000) with 50000 in E2.
  change (inject_Z 60000) with 60000 in E3. change (inject_Z 90000) with 90000 in E3.
  change (inject_Z 100000) with 100000 in E4. change (inject_Z 150000) with 150000 in E4.
  change (inject_Z 250000) with 250000 in E5.
  assert (T : JS.num 0.2 < JS.num 0.5 /\ JS.num 0.5 < JS.num 0.8
              /\ JS.num 0.8 < JS.num 0.95) by (repeat split; closed).
  destruct T as (T1 & T2 & T3).
  destruct (JS.ltb rand (JS.num 0.2)) eqn:C1;
    [apply ltb_lt in C1|apply ltb_ge in C1;
     destruct (JS.ltb rand (JS.num 0.5)) eqn:C2;
     [apply ltb_lt in C2|apply ltb_ge in C2;
      destruct (JS.ltb rand (JS.num 0.8)) eqn:C3;
      [apply ltb_lt in C3|apply ltb_ge in C3;
       destruct (JS.ltb rand (JS.num 0.95)) eqn:C4;
       [apply ltb_lt in C4|apply ltb_ge in C4]]]];
    (split;
     [first [exists z1; exact E1 | exists z2; exact E2 | exists z3; exact E3
            | exists z4; exact E4 | exists z5; exact E5]
     |first [rewrite E1 | rewrite E2 | rewrite E3 | rewrite E4 | rewrite E5]]);
    repeat split; intros; lra.
Qed.

(** The base balance and the balance of [generateAccountBalance]: the
    result is a whole number, never under 100, and within a dollar of 75%
    to 125% of the base. *)
Lemma generateAccountBalance_bounds (income creditScore random : Q) :
  0 <= creditScore -> 0 <= random <= 1 ->
  let baseBalance :=
    income [*] JS.num 0.1 [*] (income [/] 100000) [*] (creditScore [/] 850) in
  let balance := DataSeederGenerators.generateAccountBalance income creditScore random in
  100 <= balance /\
  (exists z, balance == inject_Z z) /\
  0 <= baseBalance /\
  (baseBalance <= inject_Z (2 ^ 50) ->
   (75 # 100) * baseBalance - 1 < balance < Qmax 100 ((125 # 100) * baseBalance) + 1).
Proof.
  intros Hc Hr baseBalance balance.
  assert (N : JS.isNumber baseBalance) by apply isNumber_round.
  assert (Hbase : 0 <= baseBalance).
  { unfold baseBalance. apply mul_nonneg; [|apply div_nonneg_pos; lra].
    assert (L : 0 <= JS.num 0.1) by closed.
    unfold JS.mul at 1. apply round_nonneg.
    destruct (Qlt_le_dec income 0) as [Neg|Pos].
    - assert (A : income [*] JS.num 0.1 <= 0) by (apply round_nonpos; nra).
      assert (B : income [/] 100000 <= 0).
      { apply round_nonpos. unfold Qdiv.
        assert (0 < / 100000) by reflexivity. nra. }
      nra.
    - assert (A : 0 <= income [*] JS.num 0.1) by (apply mul_nonneg; lra).
      assert (B : 0 <= income [/] 100000) by (apply div_nonneg_pos; lra).
      nra. }
  unfold balance, DataSeederGenerators.generateAccountBalance, JS.max.
  fold baseBalance.
  set (t1 := random [-] JS.num 0.5).
  pose proof (centred random Hr) as C. fold t1 in C.
  set (s := baseBalance [+] t1 [*] baseBalance [*] JS.num 0.5).
  split; [apply Q.le_max_l|]. split; [|split; [exact Hbase|]].
  - destruct (Q.max_dec 100 (JS.floor s)) as [E|E].
    + exists 100%Z. rewrite E. reflexivity.
    + exists (Qfloor s). rewrite E. reflexivity.
  - intros Hbig.
    assert (F1 : JS.floor s <= s) by apply Qfloor_le.
    destruct (Qlt_le_dec baseBalance 1) as [Small|Large].
    + (* a base under one dollar: the balance is 100 *)
      assert (T2 : - (1 # 2) <= t1 [*] baseBalance <= 1 # 2).
      { unfold JS.mul.
        split; [apply round_ge_number | apply round_le_number];
          [closed | nra | closed | nra]. }
      assert (T3 : - (1 # 4) <= t1 [*] baseBalance [*] JS.num 0.5 <= 1 # 4).
      { unfold JS.mul at 1. literals. split; rounded. }
      assert (S : s <= 5 # 4).
      { unfold s, JS.add. apply round_le_number; [closed | lra]. }
      assert (E : Qmax 100 (JS.floor s) == 100).
      { apply Q.max_l. apply Qle_trans with s; [exact F1 | lra]. }
      rewrite E. split; [lra|].
      pose proof (Q.le_max_l 100 ((125 # 100) * baseBalance)). lra.
    + (* halving the base, twice, is exact *)
      assert (H2 : round (baseBalance * (1 # 2)) == baseBalance * (1 # 2))
        by (apply half_number; [exact N | lra]).
      assert (N2 : JS.isNumber (baseBalance * (1 # 2))) by exact H2.
      assert (H4 : round (baseBalance * (1 # 2) * (1 # 2))
                   == baseBalance * (1 # 2) * (1 # 2))
        by (apply half_number; [exact N2 | lra]).
      assert (T2 : - (baseBalance * (1 # 2)) <= t1 [*] baseBalance
                   <= baseBalance * (1 # 2)).
      { unfold JS.mul. split.
        - apply Qle_trans with (round (- (baseBalance * (1 # 2)))).
          + rewrite round_opp, H2. apply Qle_refl.
          + apply round_mono. nra.
        - apply round_le_number; [exact N2 | nra]. }
      assert (T3 : - (baseBalance * (1 # 2) * (1 # 2))
                   <= t1 [*] baseBalance [*] JS.num 0.5
                   <= baseBalance * (1 # 2) * (1 # 2)).
      { unfold JS.mul at 1. literals. split.
        - apply Qle_trans with (round (- (baseBalance * (1 # 2) * (1 # 2)))).
          + rewrite round_opp, H4. apply Qle_refl.
          + apply round_mono. lra.
        - apply round_le_number; [exact H4 | lra]. }
      set (t3 := t1 [*] baseBalance [*] JS.num 0.5) in *.
      assert (Big : inject_Z (2 ^ 50) * (125 # 100) <= inject_Z (2 ^ 53)) by closed.
      assert (Lo : inject_Z (Qfloor ((75 # 100) * baseBalance)) <= s).
      { apply Qle_trans with (round ((75 # 100) * baseBalance)).
        - apply floor_le_round. split; lra.
        - unfold s, JS.add. apply round_mono. lra. }
      assert (Hi : s <= inject_Z (Qceiling ((125 # 100) * baseBalance))).
      { apply Qle_trans with (round ((125 # 100) * baseBalance)).
        - unfold s, JS.add. apply round_mono. lra.
        - apply round_le_ceiling. split; lra. }
      apply floor_ge_Z in Lo.
      pose proof (floor_gt_pred ((75 # 100) * baseBalance)) as P.
      unfold JS.floor in P.
      pose proof (ceiling_lt_succ ((125 # 100) * baseBalance)) as Q1.
      split.
      * apply Qlt_le_trans with (JS.floor s); [lra | apply Q.le_max_r].
      * pose proof (Q.le_max_l 100 ((125 # 100) * baseBalance)).
        pose proof (Q.le_max_r 100 ((125 # 100) * baseBalance)).
        apply Q.max_lub_lt; lra.
Qed.

Lemma random_unit (r : Q) : JS.isRandom r -> 0 <= r <= 1.
Proof. intros (_ & H0 & H1). split; lra. Qed.

(** The thresholds of a weighted choice are the running sums of its
    weights. *)
Ltac thresholds :=
  repeat match goal with
         | |- context [JS.ltb ?r ?c] =>
             lazymatch c with
             | Qmake _ _ => fail
             | _ => let v := eval vm_compute in c in
                    change (JS.ltb r c) with (JS.ltb r v)
             end
         end.

Lemma weighted_choices (rand : Q) :
  0 <= rand < 1 ->
  ((rand < JS.num 0.7 ->
    DataSeederGenerators.getRandomEmploymentStatus rand = "employed"%string) /\
   (JS.num 0.7 <= rand < JS.num 0.85 ->
    DataSeederGenerators.getRandomEmploymentStatus rand = "self-employed"%string) /\
   (JS.num 0.85 <= rand < JS.num 0.9 ->
    DataSeederGenerators.getRandomEmploymentStatus rand = "unemployed"%string) /\
   (JS.num 0.9 <= rand < JS.num 0.98 ->
    DataSeederGenerators.getRandomEmploymentStatus rand = "retired"%string) /\
   (JS.num 0.98 <= rand ->
    DataSeederGenerators.getRandomEmploymentStatus rand = "student"%string)) /\
  ((rand < JS.num 0.6 ->
    DataSeederGenerators.getRandomAccountType rand = "checking"%string) /\
   (JS.num 0.6 <= rand < JS.num 0.85 ->
    DataSeederGenerators.getRandomAccountType rand = "savings"%string) /\
   (JS.num 0.85 <= rand < JS.num 0.95 ->
    DataSeederGenerators.getRandomAccountType rand = "premium"%string) /\
   (JS.num 0.95 <= rand ->
    DataSeederGenerators.getRandomAccountType rand = "business"%string)) /\
  ((rand < JS.num 0.35 ->
    DataSeederGenerators.getRandomChannel rand = "online"%string) /\
   (JS.num 0.35 <= rand < JS.num 0.75 ->
    DataSeederGenerators.getRandomChannel rand = "mobile"%string) /\
   (JS.num 0.75 <= rand < JS.num 0.9 ->
    DataSeederGenerators.getRandomChannel rand = "branch"%string) /\
   (JS.num 0.9 <= rand < JS.num 0.98 ->
    DataSeederGenerators.getRandomChannel rand = "atm"%string) /\
   (JS.num 0.98 <= rand ->
    DataSeederGenerators.getRandomChannel rand = "phone"%string)).
Proof.
  intros [H0 H1].
  unfold DataSeederGenerators.getRandomEmploymentStatus,
    DataSeederGenerators.getRandomAccountType, DataSeederGenerators.getRandomChannel.
  cbn [DataSeederGenerators.weightedLoop].
  thresholds. literals.
  repeat match goal with
         | |- context [JS.ltb rand ?c] =>
             let E := fresh "E" in
             destruct (JS.ltb rand c) eqn:E;
             [apply ltb_lt in E|apply ltb_ge in E]
         end;
    repeat split; intros; first [reflexivity | exfalso; lra].
Qed.

Lemma seeded_creditScore (income random : Q) :
  20000 <= income -> 0 <= random <= 1 ->
  550 <= DataSeeder.generateCreditScore income random <= 850.
Proof.
  intros Hi Hr. unfold DataSeeder.generateCreditScore, JS.max, JS.min.
  split; [|apply clamp_bounds; lra].
  pose proof (centred random Hr) as C.
  set (t := random [-] JS.num 0.5) in *.
  assert (D : 20 <= income [/] 1000).
  { unfold JS.div. apply round_ge_number; [closed|].
    apply Qle_shift_div_l; [reflexivity | lra]. }
  assert (A : 600 <= 580 [+] income [/] 1000).
  { unfold JS.add. apply round_ge_number; [closed | lra]. }
  assert (M : 600 <= Qmin 850 (580 [+] income [/] 1000)).
  { apply Q.min_glb; [lra | exact A]. }
  assert (V : - (50) <= t [*] 100).
  { unfold JS.mul. apply round_ge_number; [closed | lra]. }
  assert (S : 550 <= Qmin 850 (580 [+] income [/] 1000) [+] t [*] 100).
  { unfold JS.add at 1. apply round_ge_number; [closed | lra]. }
  eapply Qle_trans; [|apply Q.le_max_r].
  apply Q.min_glb; [lra|].
  apply (floor_ge_Z 550). exact S.
Qed.

Lemma seeded_balance (income creditScore random : Q) :
  20000 <= income <= 499999 -> 550 <= creditScore <= 850 ->
  0 <= random <= 1 ->
  194 <= DataSeederGenerators.generateAccountBalance income creditScore random
      <= 312500.
Proof.
  intros Hi Hc Hr.
  destruct (generateAccountBalance_bounds income creditScore random)
    as (_ & (z & Ez) & _ & Hb); [lra | exact Hr |].
  cbn zeta in Hb.
  assert (L01 : 0 <= JS.num 0.1) by closed.
  pose proof (mul_between_r income 20000 499999 (JS.num 0.1) L01 Hi) as M1.
  evalr M1.
  assert (P5 : 0 < 100000) by reflexivity.
  pose proof (div_between_r income 20000 499999 100000 P5 Hi) as D1.
  evalr D1.
  mul_bounds M1 D1 M2.
  assert (P8 : 0 < 850) by reflexivity.
  pose proof (div_between_r creditScore 550 850 850 P8 Hc) as D2.
  evalr D2.
  mul_bounds M2 D2 B.
  set (base := income [*] JS.num 0.1 [*] (income [/] 100000) [*] (creditScore [/] 850))
    in *.
  destruct Hb as [Hlo Hhi].
  { apply Qle_trans with (1 := proj2 B). closed. }
  rewrite Ez in *.
  assert (Z1 : inject_Z 193 < inject_Z z).
  { change (inject_Z 193) with 193. lra. }
  assert (Z2 : inject_Z z < inject_Z 312501).
  { change (inject_Z 312501) with 312501.
    eapply Qlt_le_trans; [exact Hhi|].
    assert (Qmax 100 ((125 # 100) * base) <= 312500) by (apply Q.max_lub; lra).
    lra. }
  rewrite <- Zlt_Qlt in Z1, Z2.
  assert (Z3 : (194 <= z <= 312500)%Z) by lia.
  to_Q Z3. exact Z3q.
Qed.

(** The noise of the risk score. *)
Lemma risk_noise (random : Q) :
  0 <= random <= 1 ->
  - JS.num 0.1 <= (random [-] JS.num 0.5) [*] JS.num 0.2 <= JS.num 0.1.
Proof.
  intros Hr. pose proof (centred random Hr) as [C0 C1].
  unfold JS.mul. literals. split; rounded.
Qed.

Lemma seeded_riskScore (creditScore balance transactionCount random : Q) :
  550 <= creditScore <= 850 -> 10 <= transactionCount ->
  0 <= random <= 1 ->
  0 <= DataSeeder.calculateRiskScore creditScore balance transactionCount random
    <= 53 # 100.
Proof.
  intros Hc Ht Hr. unfold DataSeeder.calculateRiskScore, JS.max, JS.min.
  split; [apply Q.le_max_l|].
  assert (Hact : JS.ltb transactionCount 5 = false) by (apply ltb_ge; lra).
  rewrite Hact.
  pose proof (risk_noise random Hr) as Noise.
  set (noise := (random [-] JS.num 0.5) [*] JS.num 0.2) in *.
  assert (K : 850 <= 850 <= 850) by (split; apply Qle_refl).
  pose proof (sub_between 850 creditScore _ _ _ _ K Hc) as C1. evalr C1.
  assert (P : 0 < 550) by reflexivity.
  pose proof (div_between_r _ _ _ 550 P C1) as C2. evalr C2.
  assert (L6 : 0 <= JS.num 0.6) by closed.
  pose proof (mul_between_r _ _ _ (JS.num 0.6) L6 C2) as C3. evalr C3.
  set (c3 := (850 [-] creditScore) [/] 550 [*] JS.num 0.6) in *.
  assert (L3 : 0 <= JS.num 0.3) by closed.
  assert (L1 : 0 <= JS.num 0.1) by closed.
  assert (BR : 0 <= (if JS.ltb balance 1000 then JS.num 0.3
                     else if JS.ltb balance 5000 then JS.num 0.1 else 0)
               <= JS.num 0.3).
  { destruct (JS.ltb balance 1000); [|destruct (JS.ltb balance 5000)];
      split; closed. }
  set (bR := if JS.ltb balance 1000 then JS.num 0.3
             else if JS.ltb balance 5000 then JS.num 0.1 else 0) in *.
  assert (AR : 0 <= (if JS.gtb transactionCount 100 then JS.num 0.1 else 0)
               <= JS.num 0.1).
  { destruct (JS.gtb transactionCount 100); split; closed. }
  set (aR := if JS.gtb transactionCount 100 then JS.num 0.1 else 0) in *.
  literals.
  match type of BR with _ <= _ <= ?u =>
    pose proof (mul_between_r bR 0 u _ L3 BR) as BB end.
  evalr BB.
  match type of AR with _ <= _ <= ?u =>
    pose proof (mul_between_r aR 0 u _ L1 AR) as AA end.
  evalr AA.
  pose proof (add_between _ _ _ _ _ _ C3 BB) as T1. evalr T1.
  pose proof (add_between _ _ _ _ _ _ T1 AA) as T2. evalr T2.
  pose proof (add_between _ _ _ _ _ _ T2 Noise) as T3. evalr T3.
  apply Q.max_lub; [lra|].
  eapply Qle_trans; [apply Q.le_min_r|].
  eapply Qle_trans; [exact (proj2 T3)|]. closed.
Qed.

Lemma financialProfile_ranges (draw : nat -> Q) :
  DataSeederGenerators.draws draw ->
  let p := DataSeederGenerators.financialProfile draw in
  20000 <= DataSeederGenerators.annualIncome p < 500000 /\
  550 <= DataSeederGenerators.creditScore p <= 850 /\
  194 <= DataSeederGenerators.accountBalance p <= 312500 /\
  1 <= DataSeederGenerators.accountAge p <= 120 /\
  10 <= DataSeederGenerators.transactionCount p <= 209 /\
  (DataSeederGenerators.accountBalance p [*] JS.num 0.8
   <= DataSeederGenerators.avgMonthlyBalance p
   <= DataSeederGenerators.accountBalance p [*] JS.num 1.2) /\
  0 <= DataSeederGenerators.riskScore p <= 53 # 100 /\
  0 <= DataSeederGenerators.customerLifetimeValue p.
Proof.
  intros Hd p. unfold p, DataSeederGenerators.financialProfile.
  cbn [DataSeederGenerators.annualIncome DataSeederGenerators.creditScore
         DataSeederGenerators.accountBalance DataSeederGenerators.accountAge
         DataSeederGenerators.transactionCount DataSeederGenerators.avgMonthlyBalance
         DataSeederGenerators.riskScore DataSeederGenerators.customerLifetimeValue].
  destruct (generateAnnualIncome_brackets (draw 0%nat) (draw 1%nat) (Hd 1%nat))
    as ((zi & Ei) & Hincome & _).
  cbn zeta in Ei, Hincome.
  set (income := DataSeederGenerators.generateAnnualIncome (draw 0%nat) (draw 1%nat)) in *.
  assert (Hincome' : 20000 <= income <= 499999).
  { rewrite Ei in *. destruct Hincome as [I0 I1].
    change 500000 with (inject_Z 500000) in I1. rewrite <- Zlt_Qlt in I1.
    assert (Zi : (zi <= 499999)%Z) by lia. rewrite Zle_Qle in Zi.
    change (inject_Z 499999) with 499999 in Zi. split; assumption. }
  pose proof (seeded_creditScore income (draw 2%nat) (proj1 Hincome)
                (random_unit _ (Hd 2%nat))) as Hcredit.
  set (credit := DataSeeder.generateCreditScore income (draw 2%nat)) in *.
  pose proof (seeded_balance income credit (draw 3%nat) Hincome' Hcredit
                (random_unit _ (Hd 3%nat))) as Hbalance.
  set (balance := DataSeederGenerators.generateAccountBalance income credit (draw 3%nat)) in *.
  destruct (floor_scaled (draw 4%nat) 120 1 (Hd 4%nat)) as (a & Ea & Ba);
    [lia | lia | lia | closed |].
  destruct (floor_scaled (draw 5%nat) 200 10 (Hd 5%nat)) as (t & Et & Bt);
    [lia | lia | lia | closed |].
  to_Q Ba. to_Q Bt.
  change (inject_Z 120) with 120 in Ea. change (inject_Z 1) with 1 in Ea.
  change (inject_Z 200) with 200 in Et. change (inject_Z 10) with 10 in Et.
  set (age := JS.floor (draw 4%nat [*] 120) [+] 1) in *.
  set (count := JS.floor (draw 5%nat [*] 200) [+] 10) in *.
  split; [exact Hincome|]. split; [exact Hcredit|]. split; [exact Hbalance|].
  split; [rewrite Ea; exact Baq|]. split; [rewrite Et; exact Btq|].
  split; [|split].
  - pose proof (random_max _ (Hd 6%nat)) as Top. destruct (Hd 6%nat) as (_ & R0 & _).
    assert (R : 0 <= draw 6%nat <= 1 - pow2 (-53)) by (split; assumption).
    assert (L4 : 0 <= JS.num 0.4) by closed.
    pose proof (mul_between_r _ _ _ (JS.num 0.4) L4 R) as M. evalr M.
    assert (K : JS.num 0.8 <= JS.num 0.8 <= JS.num 0.8) by (split; apply Qle_refl).
    pose proof (add_between _ _ _ _ _ _ K M) as F. evalr F.
    set (f := JS.num 0.8 [+] draw 6%nat [*] JS.num 0.4) in *.
    literals. unfold JS.mul. split; apply round_mono; nra.
  - apply seeded_riskScore; [exact Hcredit | rewrite Et; lra |].
    exact (random_unit _ (Hd 7%nat)).
  - apply calculateCLV_nonneg; [lra | lra | rewrite Ea; lra |].
    exact (random_unit _ (Hd 8%nat)).
Qed.

End Generators.


(** ** The sizes of the chunks *)

Section ChunkSizes.

Variable T : Type.

Lemma chunk_count_step (n i c : nat) :
  (0 < c)%nat -> (i < n)%nat ->
  ((n - i + c - 1) / c = S ((n - (i + c) + c - 1) / c))%nat.
Proof.
  intros Hc Hi. destruct (Nat.le_gt_cases (n - i) c) as [Hle|Hgt].
  - replace (n - (i + c))%nat with 0%nat by lia.
    rewrite (Nat.div_small (0 + c - 1) c) by lia.
    replace (n - i + c - 1)%nat with ((n - i - 1) + 1 * c)%nat by lia.
    rewrite Nat.div_add by lia. rewrite Nat.div_small by lia. reflexivity.
  - replace (n - i + c - 1)%nat with ((n - (i + c) + c - 1) + 1 * c)%nat by lia.
    rewrite Nat.div_add by lia. lia.
Qed.

Lemma chunkLoop_sizes (array : list T) (chunkSize : nat) :
  (0 < chunkSize)%nat ->
  forall fuel i chunks,
    (List.length array - i <= fuel)%nat ->
    exists rest,
      DataSeeder.chunkLoop fuel array chunkSize i chunks = Some (chunks ++ rest) /\
      Forall (fun c => (1 <= List.length c)%nat) rest /\
      List.length rest = ((List.length array - i + chunkSize - 1) / chunkSize)%nat /\
      Forall (fun c => List.length c = chunkSize) (removelast rest).
Proof.
  intros Hpos. induction fuel as [|fuel IH]; intros i chunks Hfuel;
    simpl; destruct (Nat.ltb_spec i (List.length array)) as [Hi|Hi];
    try lia.
  - exists []. rewrite app_nil_r. repeat split; try constructor.
    replace (List.length array - i)%nat with 0%nat by lia.
    simpl. symmetry. apply Nat.div_small. lia.
  - destruct (IH (i + chunkSize)%nat (chunks ++ [JS.slice array i (i + chunkSize)]))
      as (rest & Hrun & Hne & Hlen & Hfull); [lia|].
    exists (JS.slice array i (i + chunkSize) :: rest).
    assert (Hslice : List.length (JS.slice array i (i + chunkSize))
                     = Nat.min chunkSize (List.length array - i)).
    { rewrite slice_from, length_firstn, length_skipn. reflexivity. }
    split; [rewrite Hrun, <- app_assoc; reflexivity|].
    split; [constructor; [rewrite Hslice; lia|exact Hne]|].
    split.
    + simpl List.length. rewrite Hlen. symmetry. now apply chunk_count_step.
    + destruct rest as [|c rest]; [constructor|].
      change (removelast (JS.slice array i (i + chunkSize) :: c :: rest))
        with (JS.slice array i (i + chunkSize) :: removelast (c :: rest)).
      constructor; [|exact Hfull].
      rewrite Hslice.
      destruct (Nat.le_gt_cases (List.length array - i) chunkSize) as [Hle|Hgt];
        [|lia].
      exfalso. simpl List.length in Hlen.
      replace (List.length array - (i + chunkSize))%nat with 0%nat in Hlen by lia.
      rewrite Nat.div_small in Hlen by lia. discriminate.
  - exists []. rewrite app_nil_r. repeat split; try constructor.
    replace (List.length array - i)%nat with 0%nat by lia.
    simpl. symmetry. apply Nat.div_small. lia.
Qed.

End ChunkSizes.

(** ** The statistics of the risk page *)

Section Stats.

Open Scope Q_scope.

Lemma length_plus (T : Type) (a b : list T) :
  JS.length a + JS.length b == inject_Z (Z.of_nat (List.length a + List.length b)).
Proof. unfold JS.length. now rewrite Nat2Z.inj_add, inject_Z_plus. Qed.

Lemma length_le (T : Type) (a b : list T) :
  (List.length a <= List.length b)%nat -> JS.length a <= JS.length b.
Proof. intros H. unfold JS.length. rewrite <- Zle_Qle. lia. Qed.

Lemma length_nonneg (T : Type) (a : list T) : 0 <= JS.length a.
Proof.
  unfold JS.length. change 0 with (inject_Z 0). rewrite <- Zle_Qle. lia.
Qed.

(** Counting the elements of a list by four exclusive tests. *)
Lemma filter4_length (T : Type) (p1 p2 p3 p4 : T -> bool) (l : list T) :
  (forall x, (if p1 x then 1 else 0) + (if p2 x then 1 else 0)
             + (if p3 x then 1 else 0) + (if p4 x then 1 else 0) <= 1)%nat ->
  (List.length (filter p1 l) + List.length (filter p2 l)
   + List.length (filter p3 l) + List.length (filter p4 l)
   = List.length (filter (fun x => p1 x || p2 x || p3 x || p4 x) l))%nat.
Proof.
  intros Hex. induction l as [|x l IH]; [reflexivity|].
  specialize (Hex x). cbn [filter].
  destruct (p1 x), (p2 x), (p3 x), (p4 x); cbn [orb List.length] in *; lia.
Qed.

Lemma filter_length_all (T : Type) (p : T -> bool) (l : list T) :
  List.length (filter p l) = List.length l <-> Forall (fun x => p x = true) l.
Proof.
  induction l as [|x l IH]; cbn [filter].
  - split; [constructor|reflexivity].
  - pose proof (filter_length_le p l) as Hle.
    destruct (p x) eqn:E; cbn [List.length]; split; intros H.
    + constructor; [exact E|]. apply IH. lia.
    + inversion H; subst. f_equal. now apply IH.
    + lia.
    + inversion H; subst. congruence.
Qed.

Lemma levels_exclusive (a : Assessment.t) :
  ((if RiskAssessmentStats.hasLevel "low" a then 1 else 0)
   + (if RiskAssessmentStats.hasLevel "medium" a then 1 else 0)
   + (if RiskAssessmentStats.hasLevel "high" a then 1 else 0)
   + (if RiskAssessmentStats.hasLevel "critical" a then 1 else 0) <= 1)%nat.
Proof.
  unfold RiskAssessmentStats.hasLevel.
  destruct (String.eqb_spec (Assessment.riskLevel a) "low") as [->|];
    destruct (String.eqb_spec (Assessment.riskLevel a) "medium") as [E|];
    destruct (String.eqb_spec (Assessment.riskLevel a) "high") as [E'|];
    destruct (String.eqb_spec (Assessment.riskLevel a) "critical") as [E''|];
    try discriminate; try (rewrite E in *; discriminate);
    try (rewrite E' in *; discriminate); cbn; lia.
Qed.

Lemma knownLevel_iff (a : Assessment.t) :
  RiskAssessmentStats.knownLevel a <->
  RiskAssessmentStats.hasLevel "low" a || RiskAssessmentStats.hasLevel "medium" a
  || RiskAssessmentStats.hasLevel "high" a || RiskAssessmentStats.hasLevel "critical" a
  = true.
Proof.
  unfold RiskAssessmentStats.knownLevel, RiskAssessmentStats.hasLevel.
  rewrite !orb_true_iff, !String.eqb_eq. cbn [In]. intuition congruence.
Qed.

Lemma riskDistribution_total (assessments : list Assessment.t) :
  RiskAssessmentStats.total (RiskAssessmentStats.riskDistribution assessments)
  <= JS.length assessments /\
  (RiskAssessmentStats.total (RiskAssessmentStats.riskDistribution assessments)
   == JS.length assessments <->
   Forall RiskAssessmentStats.knownLevel assessments) /\
  JS.length (RiskAssessmentStats.highRiskAssessments assessments)
  == Slice.value (nth 2 (RiskAssessmentStats.riskDistribution assessments)
                    (Slice.mk "" 0 ""))
     + Slice.value (nth 3 (RiskAssessmentStats.riskDistribution assessments)
                      (Slice.mk "" 0 "")).
Proof.
  unfold RiskAssessmentStats.total, RiskAssessmentStats.riskDistribution.
  cbn [fold_right Slice.value nth].
  pose proof (filter4_length _ _ _ _ _ assessments levels_exclusive) as Hsum.
  set (l := filter (RiskAssessmentStats.hasLevel "low") assessments) in *.
  set (m := filter (RiskAssessmentStats.hasLevel "medium") assessments) in *.
  set (hi := filter (RiskAssessmentStats.hasLevel "high") assessments) in *.
  set (c := filter (RiskAssessmentStats.hasLevel "critical") assessments) in *.
  set (known := filter _ assessments) in Hsum.
  assert (Htotal : JS.length l + (JS.length m + (JS.length hi + (JS.length c + 0)))
                   == JS.length known).
  { unfold JS.length. rewrite <- Hsum, !Nat2Z.inj_add, !inject_Z_plus. ring. }
  split; [|split].
  - rewrite Htotal. apply length_le, filter_length_le.
  - rewrite Htotal. unfold JS.length. split.
    + intros E. apply inject_Z_injective, Nat2Z.inj in E.
      apply filter_length_all in E.
      eapply Forall_impl; [|exact E]. intros a Ha. now apply knownLevel_iff.
    + intros Hall.
      assert (E : List.length known = List.length assessments).
      { apply filter_length_all.
        eapply Forall_impl; [|exact Hall]. intros a Ha. now apply knownLevel_iff. }
      rewrite E. reflexivity.
  - unfold RiskAssessmentStats.highRiskAssessments.
    rewrite length_plus. unfold JS.length.
    assert (E : List.length
                  (filter (fun a => RiskAssessmentStats.hasLevel "high" a
                                    || RiskAssessmentStats.hasLevel "critical" a)
                     assessments)
                = (List.length hi + List.length c)%nat).
    { unfold hi, c. clear. induction assessments as [|a l IH]; [reflexivity|].
      cbn [filter]. pose proof (levels_exclusive a) as Hex.
      destruct (RiskAssessmentStats.hasLevel "low" a),
        (RiskAssessmentStats.hasLevel "medium" a),
        (RiskAssessmentStats.hasLevel "high" a),
        (RiskAssessmentStats.hasLevel "critical" a);
        cbn [orb List.length] in *; lia. }
    rewrite E. reflexivity.
Qed.

Lemma round_range (x : Q) : 0 <= x <= 100 ->
  0 <= RiskAssessmentStats.round x <= 100 /\
  exists z, RiskAssessmentStats.round x = inject_Z z.
Proof.
  intros [H0 H1]. unfold RiskAssessmentStats.round, JS.floor.
  split; [|now eexists].
  split.
  - change 0 with (inject_Z 0). rewrite <- Zle_Qle.
    change 0%Z with (Qfloor 0.5). apply Qfloor_resp_le. lra.
  - change 100 with (inject_Z 100). rewrite <- Zle_Qle.
    change 100%Z with (Qfloor 100.5). apply Qfloor_resp_le. lra.
Qed.

Lemma gtb_length (T : Type) (l : list T) :
  JS.gtb (JS.length l) 0 = match l with [] => false | _ => true end.
Proof.
  destruct l as [|x l]; [reflexivity|].
  unfold JS.gtb. apply ltb_lt. unfold JS.length.
  change 0 with (inject_Z 0). rewrite <- Zlt_Qlt. simpl List.length. lia.
Qed.

Lemma highRiskPercent_range (assessments : list Assessment.t) :
  let percent := RiskAssessmentStats.highRiskPercent assessments in
  0 <= percent <= 100 /\
  (exists z, percent = inject_Z z) /\
  (RiskAssessmentStats.highRiskAssessments assessments = [] -> percent == 0) /\
  (assessments <> [] ->
   RiskAssessmentStats.highRiskAssessments assessments = assessments ->
   percent == 100).
Proof.
  unfold RiskAssessmentStats.highRiskPercent. rewrite gtb_length.
  destruct assessments as [|a l].
  - cbn zeta. repeat split; try lra; try reflexivity.
    + now exists 0%Z.
    + congruence.
  - set (all := a :: l).
    set (high := RiskAssessmentStats.highRiskAssessments all).
    assert (Hn : 0 < JS.length all).
    { unfold JS.length. change 0 with (inject_Z 0). rewrite <- Zlt_Qlt.
      simpl List.length. lia. }
    assert (Hk : JS.length high <= JS.length all)
      by apply length_le, filter_length_le.
    assert (Hk0 : 0 <= JS.length high) by apply length_nonneg.
    assert (Hq : 0 <= JS.length high / JS.length all <= 1).
    { split.
      - apply Qle_shift_div_l; [exact Hn|lra].
      - apply Qle_shift_div_r; [exact Hn|lra]. }
    assert (Hd : 0 <= (JS.length high [/] JS.length all)%js <= 1).
    { unfold JS.div. split; rounded. }
    assert (Hx : 0 <= (JS.length high [/] JS.length all [*] 100)%js <= 100).
    { unfold JS.mul. split; rounded. }
    cbn zeta. destruct (round_range _ Hx) as (Hr & Hz).
    split; [exact Hr|]. split; [exact Hz|]. split.
    + intros E. unfold high in *. rewrite E.
      unfold RiskAssessmentStats.round, JS.floor.
      assert (E1 : JS.length (@nil Assessment.t) / JS.length all == 0).
      { change (JS.length (@nil Assessment.t)) with 0. unfold Qdiv. ring. }
      assert (E2 : (JS.length (@nil Assessment.t) [/] JS.length all [*] 100)%js + 0.5
                   == 0.5).
      { unfold JS.div, JS.mul.
        rewrite (round_ext _ _ E1).
        change (Binary64.round 0) with 0.
        rewrite (round_ext (0 * 100) 0) by ring.
        change (Binary64.round 0) with 0. ring. }
      rewrite E2. now vm_compute.
    + intros _ E. unfold high in *. rewrite E.
      assert (E1 : JS.length all / JS.length all == 1).
      { field. intros E0. rewrite E0 in Hn. now apply Qlt_irrefl in Hn. }
      unfold RiskAssessmentStats.round, JS.floor.
      assert (E2 : (JS.length all [/] JS.length all [*] 100)%js + 0.5 == 100.5).
      { unfold JS.div, JS.mul.
        rewrite (round_ext _ _ E1).
        change (Binary64.round 1) with 1.
        rewrite (round_ext (1 * 100) 100) by ring.
        change (Binary64.round 100) with 100. reflexivity. }
      rewrite E2. now vm_compute.
Qed.

End Stats.

Section Distribution.

Open Scope Q_scope.

(** Counting the elements of a list by three tests of which exactly one
    holds of each element. *)
Lemma filter3_length (T : Type) (p1 p2 p3 : T -> bool) (l : list T) :
  (forall x, (if p1 x then 1 else 0) + (if p2 x then 1 else 0)
             + (if p3 x then 1 else 0) = 1)%nat ->
  (List.length (filter p1 l) + List.length (filter p2 l)
   + List.length (filter p3 l) = List.length l)%nat.
Proof.
  intros Hex. induction l as [|x l IH]; [reflexivity|].
  specialize (Hex x). cbn [filter].
  destruct (p1 x), (p2 x), (p3 x); cbn [List.length] in *; lia.
Qed.

Lemma balance_bands (balance : Q) :
  ((if JS.gtb balance 100000 then 1 else 0)
   + (if SegmentationPage.geb balance 10000 && SegmentationPage.leb balance 100000
      then 1 else 0)
   + (if JS.ltb balance 10000 then 1 else 0) = 1)%nat.
Proof.
  unfold JS.gtb, SegmentationPage.geb, SegmentationPage.leb.
  destruct (JS.ltb 100000 balance) eqn:E1;
    [apply ltb_lt in E1|apply ltb_ge in E1];
    (destruct (JS.ltb balance 10000) eqn:E2;
     [apply ltb_lt in E2|apply ltb_ge in E2]);
    (destruct (Qle_bool 10000 balance) eqn:E3;
     [apply Qle_bool_iff in E3|]);
    (destruct (Qle_bool balance 100000) eqn:E4;
     [apply Qle_bool_iff in E4|]);
    cbn; try reflexivity; try (exfalso; lra).
  all: try (apply Qle_bool_iff in E1; congruence).
  all: try (apply Qle_bool_iff in E2; congruence).
Qed.

Lemma customerDistributionData_partition (customers : list SegmentationPage.Customer) :
  (customers = [] -> SegmentationPage.customerDistributionData customers = []) /\
  (customers <> [] ->
   map Slice.name (SegmentationPage.customerDistributionData customers)
   = ["High Value (>$100k)"; "Medium Value ($10k-$100k)"; "Low Value (<$10k)"]%string /\
   RiskAssessmentStats.total (SegmentationPage.customerDistributionData customers)
   == JS.length customers).
Proof.
  unfold SegmentationPage.customerDistributionData. rewrite gtb_length.
  split; [now intros ->|].
  intros Hne. destruct customers as [|c l]; [congruence|].
  split; [reflexivity|].
  unfold RiskAssessmentStats.total. cbn [fold_right Slice.value].
  pose proof (filter3_length _ _ _ _ (c :: l)
                (fun x => balance_bands (SegmentationPage.accountBalance x))) as Hsum.
  unfold JS.length. rewrite <- Hsum, !Nat2Z.inj_add, !inject_Z_plus. ring.
Qed.

End Distribution.

Section Enrich.

Lemma find_first (T : Type) (p : T -> bool) (l : list T) :
  match find p l with
  | Some x => exists before after,
      l = before ++ x :: after /\ p x = true /\
      forall y, In y before -> p y = false
  | None => forall y, In y l -> p y = false
  end.
Proof.
  induction l as [|x l IH]; cbn [find].
  - intros y [].
  - destruct (p x) eqn:E.
    + exists [], l. repeat split; trivial. intros y [].
    + destruct (find p l) as [z|].
      * destruct IH as (before & after & -> & Hz & Hb).
        exists (x :: before), after. repeat split; trivial.
        intros y [<-|Hy]; auto.
      * intros y [<-|Hy]; auto.
Qed.

Lemma filter_map_length (A B : Type) (f : A -> B) (p : B -> bool) (q : A -> bool)
    (l : list A) :
  (forall a, p (f a) = q a) ->
  List.length (filter p (map f l)) = List.length (filter q l).
Proof.
  intros H. induction l as [|a l IH]; [reflexivity|].
  cbn [map filter]. rewrite H. destruct (q a); cbn [List.length]; now rewrite IH.
Qed.

Lemma enrich_spec (assessmentData : list Assessment.t) (customerData : list Customer.t) :
  Forall2 (RiskAssessmentStats.enriches customerData) assessmentData
    (RiskAssessmentStats.enrich assessmentData customerData) /\
  RiskAssessmentStats.riskDistribution
    (RiskAssessmentStats.enrich assessmentData customerData)
  = RiskAssessmentStats.riskDistribution assessmentData.
Proof.
  split.
  - unfold RiskAssessmentStats.enrich.
    induction assessmentData as [|a l IH]; cbn [map]; constructor; [|exact IH].
    unfold RiskAssessmentStats.enriches. cbn.
    pose proof (find_first _ (fun c => String.eqb (Customer.id c) (Assessment.customerId a))
                  customerData) as Hfind.
    destruct (find _ customerData) as [c|].
    + destruct Hfind as (before & after & Hsplit & Hc & Hb).
      apply String.eqb_eq in Hc.
      repeat split; trivial.
      * discriminate.
      * intros Hnone. exfalso. apply (Hnone c); [|exact Hc].
        rewrite Hsplit. apply in_or_app. right. now left.
      * intros info E. injection E as <-.
        exists before, c, after. repeat split; trivial.
        intros c' Hc'. apply String.eqb_neq. now apply Hb.
    + repeat split; trivial.
      * intros _ c Hc. apply String.eqb_neq. now apply Hfind.
      * discriminate.
  - unfold RiskAssessmentStats.riskDistribution, RiskAssessmentStats.enrich.
    assert (E : forall level,
               List.length (filter (RiskAssessmentStats.hasLevel level)
                              (RiskAssessmentStats.enrich assessmentData customerData))
               = List.length (filter (RiskAssessmentStats.hasLevel level) assessmentData)).
    { intros level. unfold RiskAssessmentStats.enrich.
      apply filter_map_length. reflexivity. }
    unfold RiskAssessmentStats.enrich in E. unfold JS.length. now rewrite !E.
Qed.

End Enrich.

(** ** The seeder's transactions *)

Section Transactions.

Open Scope Q_scope.

(** A pick from a non-empty array is one of its entries: the index
    [Math.floor(random * length)] is below the length, because the largest
    draw times the length rounds to a number below the length. *)
Lemma pick_in (array : list string) (random : Q) :
  JS.isRandom random -> array <> [] ->
  Binary64.round ((1 - Binary64.pow2 (-53)) * JS.length array) < JS.length array ->
  exists s, DataSeederTransactions.pick array random = Some s /\ In s array.
Proof.
  intros R Hne Htop. unfold DataSeederTransactions.pick.
  set (n := List.length array).
  assert (Hn : (0 < n)%nat) by (destruct array; [congruence|unfold n; simpl; lia]).
  destruct (floor_mul_random random (Z.of_nat n) R) as (z & E & Hz0 & Hz1);
    [lia | exact Htop |].
  unfold JS.floor in E. injection E as E.
  change (inject_Z (Z.of_nat n)) with (JS.length array) in E. rewrite E.
  assert (Hidx : (Z.to_nat z < n)%nat) by lia.
  destruct (nth_error array (Z.to_nat z)) as [s|] eqn:E'.
  - exists s. split; [|eapply nth_error_In; exact E'].
    destruct z; [exact E'|exact E'|lia].
  - apply nth_error_None in E'. fold n in E'. lia.
Qed.

Lemma getRandomChannel_in (rand : Q) :
  In (DataSeederGenerators.getRandomChannel rand)
    ["online"; "mobile"; "branch"; "atm"; "phone"]%string.
Proof.
  unfold DataSeederGenerators.getRandomChannel.
  cbn [DataSeederGenerators.weightedLoop].
  repeat match goal with
         | |- context [JS.ltb rand ?c] => destruct (JS.ltb rand c)
         end; cbn; tauto.
Qed.

Variable base36 : Q -> string.
Variable draw : nat -> Q.
Variable now : nat -> Z.
Variables customerId userId : string.

Lemma transactionAt_wellFormed (i : nat) :
  DataSeederGenerators.draws draw ->
  DataSeederTransactions.wellFormedRow customerId userId
    (DataSeederTransactions.transactionAt base36 draw now customerId userId i).
Proof.
  intros Hd. unfold DataSeederTransactions.wellFormedRow,
    DataSeederTransactions.transactionAt.
  cbn [TransactionRow.customerId TransactionRow.userId TransactionRow.amount
         TransactionRow.transactionType TransactionRow.merchantCategory
         TransactionRow.channel TransactionRow.isRecurring TransactionRow.riskFlag].
  split; [reflexivity|]. split; [reflexivity|]. split; [|split; [|split; [|split]]].
  - destruct (floor_scaled (draw (10 * i + 3)) 1000 10 (Hd _)) as (z & E & B);
      [lia | lia | lia | closed |].
    exists z. split; [exact E | lia].
  - apply pick_in; [apply Hd | discriminate | closed].
  - apply pick_in; [apply Hd | discriminate | closed].
  - apply getRandomChannel_in.
  - split; [destruct (JS.gtb _ (JS.num 0.8)); cbn; tauto|].
    destruct (JS.gtb _ (JS.num 0.95)); cbn; tauto.
Qed.

Variable count : Q.

Lemma transactionsLoop_spec :
  forall fuel i transactions,
    (50 - i <= fuel)%nat ->
    exists k,
      DataSeederTransactions.transactionsLoop base36 draw now customerId userId count
        fuel i transactions
      = Some (transactions
              ++ map (DataSeederTransactions.transactionAt base36 draw now
                        customerId userId) (seq i k)) /\
      (i <= 50 -> i + k <= 50)%nat /\
      (forall c : nat, count == inject_Z (Z.of_nat c) -> k = (Nat.min c 50 - i)%nat).
Proof.
  induction fuel as [|fuel IH]; intros i transactions Hfuel;
    cbn [DataSeederTransactions.transactionsLoop];
    destruct (JS.ltb (inject_Z (Z.of_nat i)) (JS.min count 50)) eqn:E.
  - apply ltb_lt in E. unfold JS.min in E.
    pose proof (Q.le_min_r count 50) as Hm.
    assert (Hi : inject_Z (Z.of_nat i) < inject_Z 50)
      by (eapply Qlt_le_trans; [exact E|exact Hm]).
    rewrite <- Zlt_Qlt in Hi. lia.
  - exists 0%nat. cbn. rewrite app_nil_r. split; [reflexivity|]. split; [lia|].
    intros c Hc. apply ltb_ge in E. unfold JS.min in E.
    apply Q.min_le in E. rewrite Hc in E.
    change 50 with (inject_Z 50) in E.
    rewrite <- !Zle_Qle in E. lia.
  - apply ltb_lt in E. unfold JS.min in E.
    assert (Hi : inject_Z (Z.of_nat i) < inject_Z 50)
      by (eapply Qlt_le_trans; [exact E|apply Q.le_min_r]).
    rewrite <- Zlt_Qlt in Hi.
    destruct (IH (S i) (transactions
                        ++ [DataSeederTransactions.transactionAt base36 draw now
                              customerId userId i])) as (k & Hrun & Hk & Hc); [lia|].
    exists (S k). rewrite Hrun, <- app_assoc. split; [reflexivity|].
    split; [lia|].
    intros c Hcount. rewrite (Hc c Hcount).
    assert (Hic : inject_Z (Z.of_nat i) < inject_Z (Z.of_nat c)).
    { rewrite <- Hcount. eapply Qlt_le_trans; [exact E|apply Q.le_min_l]. }
    rewrite <- Zlt_Qlt in Hic. lia.
  - exists 0%nat. cbn. rewrite app_nil_r. split; [reflexivity|]. split; [lia|].
    intros c Hc. apply ltb_ge in E. unfold JS.min in E.
    apply Q.min_le in E. rewrite Hc in E.
    change 50 with (inject_Z 50) in E.
    rewrite <- !Zle_Qle in E. lia.
Qed.

End Transactions.

(** ** Extra properties: the seeder *)

(** X12.  For every pair of draws [generateAnnualIncome] returns a whole
    number of dollars from 20,000 up to (not including) 500,000, inside
    the bracket its first draw picks: below 0.2 the bracket 20k-50k, below
    0.5 the bracket 50k-90k, below 0.8 the bracket 90k-150k, below 0.95 the
    bracket 150k-250k, and 250k-500k otherwise; the bounds 0.2, 0.5, 0.8
    and 0.95 are the numbers of the language. *)
Theorem generateAnnualIncome_range (rand random : Q) :
  JS.isRandom random ->
  let income := DataSeederGenerators.generateAnnualIncome rand random in
  (exists z, income == inject_Z z)%Q /\
  (20000 <= income < 500000)%Q /\
  ((rand < JS.num 0.2)%Q -> (20000 <= income < 50000)%Q) /\
  ((JS.num 0.2 <= rand < JS.num 0.5)%Q -> (50000 <= income < 90000)%Q) /\
  ((JS.num 0.5 <= rand < JS.num 0.8)%Q -> (90000 <= income < 150000)%Q) /\
  ((JS.num 0.8 <= rand < JS.num 0.95)%Q -> (150000 <= income < 250000)%Q) /\
  ((JS.num 0.95 <= rand)%Q -> (250000 <= income < 500000)%Q).
Proof. exact (generateAnnualIncome_brackets rand random). Qed.

Lemma random_quarter : JS.isRandom 0.25.
Proof. split; [closed | split; lra]. Qed.

Lemma generateAnnualIncome_range_witness :
  (20000 <= DataSeederGenerators.generateAnnualIncome (JS.num 0.95) 0.25 < 500000)%Q /\
  (250000 <= DataSeederGenerators.generateAnnualIncome (JS.num 0.95) 0.25 < 500000)%Q.
Proof.
  destruct (generateAnnualIncome_range (JS.num 0.95) 0.25 random_quarter)
    as (_ & Hall & _ & _ & _ & _ & Hband).
  split; [exact Hall|]. apply Hband. apply Qle_refl.
Defined.



(** With income 34000, credit score 650 and the draw 0 the base is
    883.9999999999999 in the arithmetic of the language (884 exactly), and
    the code returns 662. *)
Example generateAccountBalance_sample :
  DataSeederGenerators.generateAccountBalance 34000 650 0 = 662%Q /\
  ((34000 [*] JS.num 0.1 [*] (34000 [/] 100000) [*] (650 [/] 850))%js < 884)%Q.
Proof. split; closed. Qed.

(** X14.  For every draw in [0, 1) each of the three weighted choices
    returns the entry whose cumulative-weight interval holds the draw:
    the employment status by the bounds 0.7, 0.85, 0.9, 0.98, the account
    type by 0.6, 0.85, 0.95, the channel by 0.35, 0.75, 0.9, 0.98, which
    are the numbers of the language that the running sums of the weights
    come to; the default after the loop is never reached. *)
Theorem weighted_choice_intervals (rand : Q) :
  (0 <= rand < 1)%Q ->
  (((rand < JS.num 0.7)%Q ->
    DataSeederGenerators.getRandomEmploymentStatus rand = "employed"%string) /\
   ((JS.num 0.7 <= rand < JS.num 0.85)%Q ->
    DataSeederGenerators.getRandomEmploymentStatus rand = "self-employed"%string) /\
   ((JS.num 0.85 <= rand < JS.num 0.9)%Q ->
    DataSeederGenerators.getRandomEmploymentStatus rand = "unemployed"%string) /\
   ((JS.num 0.9 <= rand < JS.num 0.98)%Q ->
    DataSeederGenerators.getRandomEmploymentStatus rand = "retired"%string) /\
   ((JS.num 0.98 <= rand)%Q ->
    DataSeederGenerators.getRandomEmploymentStatus rand = "student"%string)) /\
  (((rand < JS.num 0.6)%Q ->
    DataSeederGenerators.getRandomAccountType rand = "checking"%string) /\
   ((JS.num 0.6 <= rand < JS.num 0.85)%Q ->
    DataSeederGenerators.getRandomAccountType rand = "savings"%string) /\
   ((JS.num 0.85 <= rand < JS.num 0.95)%Q ->
    DataSeederGenerators.getRandomAccountType rand = "premium"%string) /\
   ((JS.num 0.95 <= rand)%Q ->
    DataSeederGenerators.getRandomAccountType rand = "business"%string)) /\
  (((rand < JS.num 0.35)%Q ->
    DataSeederGenerators.getRandomChannel rand = "online"%string) /\
   ((JS.num 0.35 <= rand < JS.num 0.75)%Q ->
    DataSeederGenerators.getRandomChannel rand = "mobile"%string) /\
   ((JS.num 0.75 <= rand < JS.num 0.9)%Q ->
    DataSeederGenerators.getRandomChannel rand = "branch"%string) /\
   ((JS.num 0.9 <= rand < JS.num 0.98)%Q ->
    DataSeederGenerators.getRandomChannel rand = "atm"%string) /\
   ((JS.num 0.98 <= rand)%Q ->
    DataSeederGenerators.getRandomChannel rand = "phone"%string)).
Proof. exact (weighted_choices rand). Qed.

Lemma weighted_choice_intervals_witness :
  DataSeederGenerators.getRandomEmploymentStatus (JS.num 0.7) = "self-employed"%string /\
  DataSeederGenerators.getRandomAccountType (JS.num 0.7) = "savings"%string /\
  DataSeederGenerators.getRandomChannel (JS.num 0.7) = "mobile"%string.
Proof.
  assert (Hr : (0 <= JS.num 0.7 < 1)%Q) by (split; closed).
  destruct (weighted_choice_intervals (JS.num 0.7) Hr) as
    ((_ & He & _) & (_ & Ht & _) & (_ & Hc & _)).
  split; [apply He; split; closed|].
  split; [apply Ht; split; closed | apply Hc; split; closed].
Defined.


Lemma draws_half : DataSeederGenerators.draws (fun _ => 0.5%Q).
Proof. intros n. split; [closed | split; lra]. Qed.


Example seeded_profile_half :
  let p := DataSeederGenerators.financialProfile (fun _ => 0.5%Q) in
  (DataSeederGenerators.annualIncome p == 120000)%Q /\
  (DataSeederGenerators.creditScore p == 700)%Q /\
  (DataSeederGenerators.accountBalance p == 11858)%Q /\
  (DataSeederGenerators.transactionCount p == 110)%Q.
Proof. vm_compute. repeat split. Qed.

(** The smallest average monthly balance of a balance of 324: the product
    324 x 0.8 of the language, which lies below 259.2. *)
Example seeded_average_low :
  ((324 [*] (JS.num 0.8 [+] 0 [*] JS.num 0.4))%js == (324 [*] JS.num 0.8)%js)%Q /\
  ((324 [*] JS.num 0.8)%js < 0.8 * 324)%Q.
Proof. split; closed. Qed.

Lemma filter_none (T : Type) (p : T -> bool) (l : list T) :
  (forall x, In x l -> p x = false) -> filter p l = [].
Proof.
  induction l as [|x l IH]; intros H; [reflexivity|].
  cbn [filter]. rewrite (H x) by now left.
  apply IH. intros y Hy. apply H. now right.
Qed.

(** X16.  A customer whose risk score is the one the seeder computed is
    never high risk by score: in a list of such customers the fallback
    segmentation finds no high-risk customer and returns no High Risk
    segment, and the filter of [runRiskAnalysis] selects such a customer
    exactly when its balance is under 1000. *)
Theorem seeded_scores_never_high_risk (customers : list CustomerData.t) :
  (forall c, In c customers ->
     exists draw,
       DataSeederGenerators.draws draw /\
       CustomerData.riskScore c
       = DataSeederGenerators.riskScore (DataSeederGenerators.financialProfile draw)) ->
  MLEngine.highRiskCustomers customers = [] /\
  (forall (World : Type) (h : Effects.handler World) (w : World),
      exists segs,
        Effects.result (Effects.run h (MLEngine.fallbackSegmentation customers) w)
        = inr segs /\
        Segments.segmentsNamed "High Risk Customers" segs = []) /\
  (forall (c : Customer.t) draw,
      DataSeederGenerators.draws draw ->
      Customer.riskScore c
      = DataSeederGenerators.riskScore (DataSeederGenerators.financialProfile draw) ->
      RiskAssessmentPage.isHighRisk c = JS.ltb (Customer.accountBalance c) 1000).
Proof.
  intros Hseeded.
  assert (Hlow : forall draw threshold,
             DataSeederGenerators.draws draw -> (0.53 < threshold)%Q ->
             JS.gtb (DataSeederGenerators.riskScore
                       (DataSeederGenerators.financialProfile draw)) threshold
             = false).
  { intros draw threshold Hd Ht. unfold JS.gtb. apply ltb_ge.
    destruct (financialProfile_ranges draw Hd) as (_ & _ & _ & _ & _ & _ & Hr & _).
    cbn zeta in Hr. lra. }
  assert (Hnone : MLEngine.highRiskCustomers customers = []).
  { unfold MLEngine.highRiskCustomers. apply filter_none.
    intros c Hc. destruct (Hseeded c Hc) as (draw & Hd & ->).
    apply Hlow; [exact Hd|lra]. }
  split; [exact Hnone|]. split.
  - intros World h w.
    destruct (fallbackSegmentation_segments World h w customers)
      as (segs & hv & yp & hr & Hrun & _ & _ & _ & Hnhr & _ & _ & _ & Hlhr).
    exists segs. split; [exact Hrun|]. rewrite Hnhr.
    rewrite Hnone in Hlhr. now destruct hr.
  - intros c draw Hd Hc. unfold RiskAssessmentPage.isHighRisk.
    rewrite Hc, Hlow; [reflexivity|exact Hd|lra].
Qed.

Lemma seeded_scores_never_high_risk_witness :
  MLEngine.highRiskCustomers
    [ Sample.customer "s1" 11858 120000
        (DataSeederGenerators.riskScore
           (DataSeederGenerators.financialProfile (fun _ => 0.5%Q))) 61 ]
  = [].
Proof.
  apply (seeded_scores_never_high_risk
           [ Sample.customer "s1" 11858 120000
               (DataSeederGenerators.riskScore
                  (DataSeederGenerators.financialProfile (fun _ => 0.5%Q))) 61 ]).
  intros c [<-|[]]. exists (fun _ => 0.5%Q). split; [exact draws_half|reflexivity].
Defined.

(** X17.  For a chunk size greater than zero [chunkArray] returns
    ceil(n / chunkSize) chunks for an array of [n] elements, none of them
    empty, and every chunk but the last has exactly [chunkSize]
    elements. *)
Theorem chunkArray_sizes (T : Type) (array : list T) (chunkSize : nat) :
  (0 < chunkSize)%nat ->
  exists chunks,
    DataSeeder.chunkArray array chunkSize = Some chunks /\
    List.length chunks = ((List.length array + chunkSize - 1) / chunkSize)%nat /\
    Forall (fun c => (1 <= List.length c)%nat) chunks /\
    Forall (fun c => List.length c = chunkSize) (removelast chunks).
Proof.
  intros Hpos. unfold DataSeeder.chunkArray.
  destruct (chunkLoop_sizes T array chunkSize Hpos (List.length array) 0 [])
    as (rest & Hrun & Hne & Hlen & Hfull); [lia|].
  exists rest. rewrite Nat.sub_0_r in Hlen. auto.
Qed.

Lemma chunkArray_sizes_witness :
  exists chunks,
    DataSeeder.chunkArray [1; 2; 3; 4; 5; 6; 7]%nat 3 = Some chunks /\
    List.length chunks = 3%nat /\
    Forall (fun c => (1 <= List.length c)%nat) chunks /\
    Forall (fun c => List.length c = 3%nat) (removelast chunks).
Proof.
  apply (chunkArray_sizes nat [1; 2; 3; 4; 5; 6; 7]%nat 3). lia.
Defined.

(** ** Extra properties: the pages' statistics *)

(** X18.  The four slices of the risk chart never add up to more than the
    number of assessments, and to exactly that number when and only when
    every assessment's level is one of "low", "medium", "high",
    "critical" (in lower case); the count of the High Risk card is the
    sum of the High Risk and Critical slices. *)
Theorem riskDistribution_counts (assessments : list Assessment.t) :
  (RiskAssessmentStats.total (RiskAssessmentStats.riskDistribution assessments)
   <= JS.length assessments)%Q /\
  ((RiskAssessmentStats.total (RiskAssessmentStats.riskDistribution assessments)
    == JS.length assessments)%Q <->
   Forall RiskAssessmentStats.knownLevel assessments) /\
  (JS.length (RiskAssessmentStats.highRiskAssessments assessments)
   == Slice.value (nth 2 (RiskAssessmentStats.riskDistribution assessments)
                     (Slice.mk "" 0 ""))
      + Slice.value (nth 3 (RiskAssessmentStats.riskDistribution assessments)
                       (Slice.mk "" 0 "")))%Q.
Proof. apply riskDistribution_total. Qed.

(** X19.  The percentage of the High Risk card is a whole number between
    0 and 100; it is 0 when no assessment is high or critical (also when
    there is no assessment at all) and 100 when all of them are. *)
Theorem highRiskPercent_bounds (assessments : list Assessment.t) :
  let percent := RiskAssessmentStats.highRiskPercent assessments in
  (0 <= percent <= 100)%Q /\
  (exists z, percent = inject_Z z) /\
  (RiskAssessmentStats.highRiskAssessments assessments = [] -> (percent == 0)%Q) /\
  (assessments <> [] ->
   RiskAssessmentStats.highRiskAssessments assessments = assessments ->
   (percent == 100)%Q).
Proof. apply highRiskPercent_range. Qed.

(** X20.  The enrichment of [loadData] keeps the assessments, their order
    and their own fields; it attaches no customer exactly when no loaded
    customer has the assessment's customer id, and otherwise the name,
    email, balance and credit score of the first loaded customer with that
    id; the risk chart of the enriched list is that of the loaded one. *)
Theorem enrich_attaches_first_match (assessmentData : list Assessment.t)
    (customerData : list Customer.t) :
  Forall2 (RiskAssessmentStats.enriches customerData) assessmentData
    (RiskAssessmentStats.enrich assessmentData customerData) /\
  RiskAssessmentStats.riskDistribution
    (RiskAssessmentStats.enrich assessmentData customerData)
  = RiskAssessmentStats.riskDistribution assessmentData.
Proof. apply enrich_spec. Qed.

(** X21.  The balance chart of the segmentation page is empty for no
    customers, and otherwise has the three slices high, medium and low
    value, whose counts add up to the number of customers: every customer
    falls in exactly one of them. *)
Theorem customerDistributionData_counts (customers : list SegmentationPage.Customer) :
  (customers = [] -> SegmentationPage.customerDistributionData customers = []) /\
  (customers <> [] ->
   map Slice.name (SegmentationPage.customerDistributionData customers)
   = ["High Value (>$100k)"; "Medium Value ($10k-$100k)"; "Low Value (<$10k)"]%string /\
   (RiskAssessmentStats.total (SegmentationPage.customerDistributionData customers)
    == JS.length customers)%Q).
Proof. apply customerDistributionData_partition. Qed.

Lemma generateTransactions_rows_aux (base36 : Q -> string) (draw : nat -> Q)
    (now : nat -> Z) (customerId userId : string) (count : Q) :
  exists rows,
    DataSeederTransactions.generateTransactions base36 draw now customerId userId count
    = Some rows /\
    forall c : nat, (count == inject_Z (Z.of_nat c))%Q ->
                    List.length rows = Nat.min c 50.
Proof.
  unfold DataSeederTransactions.generateTransactions.
  destruct (transactionsLoop_spec base36 draw now customerId userId count 50 0 [])
    as (k & Hrun & Hk & Hc); [lia|].
  eexists. split; [exact Hrun|]. cbn [app].
  intros c Hcount. now rewrite (Hc c Hcount), Nat.sub_0_r, length_map, length_seq.
Qed.

(** X22.  [generateTransactions] returns for every count, and never more
    than 50 rows; for a whole count [c] it returns min(c, 50) rows,
    described "Transaction 1", "Transaction 2", ... in order; with draws in
    [0, 1) every row belongs to the given customer and user, has a whole
    amount from 10 to 1009, a type, a merchant category and a channel of
    the source's tables, and flags that are 0 or 1. *)
Theorem generateTransactions_rows (base36 : Q -> string) (draw : nat -> Q)
    (now : nat -> Z) (customerId userId : string) (count : Q) :
  exists rows,
    DataSeederTransactions.generateTransactions base36 draw now customerId userId count
    = Some rows /\
    (List.length rows <= 50)%nat /\
    (forall c : nat, (count == inject_Z (Z.of_nat c))%Q ->
       List.length rows = Nat.min c 50 /\
       map TransactionRow.description rows
       = map (fun i => ("Transaction " ++ MLEngine.show (Z.of_nat i + 1))%string)
           (seq 0 (Nat.min c 50))) /\
    (DataSeederGenerators.draws draw ->
     Forall (DataSeederTransactions.wellFormedRow customerId userId) rows).
Proof.
  unfold DataSeederTransactions.generateTransactions.
  destruct (transactionsLoop_spec base36 draw now customerId userId count 50 0 [])
    as (k & Hrun & Hk & Hc); [lia|].
  eexists. split; [exact Hrun|]. cbn [app].
  split; [rewrite length_map, length_seq; lia|]. split.
  - intros c Hcount. rewrite (Hc c Hcount), Nat.sub_0_r.
    split; [now rewrite length_map, length_seq|].
    now rewrite map_map.
  - intros Hd. apply Forall_forall. intros row Hrow.
    apply in_map_iff in Hrow as (i & <- & _).
    now apply transactionAt_wellFormed.
Qed.

Lemma generateTransactions_rows_witness :
  exists rows,
    DataSeederTransactions.generateTransactions (fun _ => "k3j9x0q2a"%string)
      (fun _ => 0.5%Q) (fun _ => 1700000000000%Z) "c1" "user_1" 60
    = Some rows /\
    List.length rows = 50%nat /\
    Forall (DataSeederTransactions.wellFormedRow "c1" "user_1") rows.
Proof.
  destruct (generateTransactions_rows (fun _ => "k3j9x0q2a"%string)
              (fun _ => 0.5%Q) (fun _ => 1700000000000%Z) "c1" "user_1" 60)
    as (rows & Hrun & _ & Hcount & Hrows).
  exists rows. split; [exact Hrun|].
  split; [apply (Hcount 60%nat); reflexivity|].
  apply Hrows, draws_half.
Defined.

(** X23.  The transaction count of a seeded customer is a whole number
    from 10 to 209, and [generateTransactions] called with it returns
    between 10 and 50 rows: exactly the count up to 50, and 50 rows for
    every larger count. *)
Theorem seeded_transaction_rows (base36 : Q -> string) (profileDraw draw : nat -> Q)
    (now : nat -> Z) (customerId userId : string) :
  DataSeederGenerators.draws profileDraw ->
  let transactionCount :=
    DataSeederGenerators.transactionCount
      (DataSeederGenerators.financialProfile profileDraw) in
  exists (c : nat) rows,
    (transactionCount == inject_Z (Z.of_nat c))%Q /\
    (10 <= c <= 209)%nat /\
    DataSeederTransactions.generateTransactions base36 draw now customerId userId
      transactionCount
    = Some rows /\
    List.length rows = Nat.min c 50 /\
    (10 <= List.length rows <= 50)%nat.
Proof.
  intros Hd transactionCount.
  destruct (floor_scaled (profileDraw 5%nat) 200 10 (Hd 5%nat)) as (z & Ez & Bz);
    [lia | lia | lia | closed |].
  assert (Hcount : (transactionCount == inject_Z (Z.of_nat (Z.to_nat z)))%Q).
  { unfold transactionCount, DataSeederGenerators.financialProfile.
    cbn [DataSeederGenerators.transactionCount].
    rewrite Z2Nat.id by lia. exact Ez. }
  destruct (generateTransactions_rows_aux base36 draw now customerId userId
              transactionCount)
    as (rows & Hrun & Hlen).
  exists (Z.to_nat z), rows.
  split; [exact Hcount|]. split; [lia|]. split; [exact Hrun|].
  rewrite (Hlen _ Hcount). split; [reflexivity|lia].
Qed.

Lemma seeded_transaction_rows_witness :
  exists (c : nat) rows,
    (10 <= c <= 209)%nat /\
    DataSeederTransactions.generateTransactions (fun _ => "k3j9x0q2a"%string)
      (fun _ => 0.5%Q) (fun _ => 1700000000000%Z) "c1" "user_1"
      (DataSeederGenerators.transactionCount
         (DataSeederGenerators.financialProfile (fun _ => 0.5%Q)))
    = Some rows /\
    (10 <= List.length rows <= 50)%nat.
Proof.
  destruct (seeded_transaction_rows (fun _ => "k3j9x0q2a"%string) (fun _ => 0.5%Q)
              (fun _ => 0.5%Q) (fun _ => 1700000000000%Z) "c1" "user_1" draws_half)
    as (c & rows & _ & Hc & Hrun & _ & Hlen).
  exists c, rows. auto.
Defined.
